(** * BVTooltip: the trigger and lifecycle controller of a tooltip/popover

    A shallow embedding of the renderless [BVTooltip] component
    (src/unnamed/part_000): its configuration normalisers
    ([computedDelay], [computedTriggers]), the resolution of the host
    element ([getTarget]), the ARIA bookkeeping, the show/hide
    orchestration and the timers it schedules.

    JavaScript strings are lists of code units (restricted to the
    Latin-1 range, [ascii]); numbers are the integer-valued doubles
    together with [NaN] and the two infinities; the component instance
    is a record that is threaded through every method. *)

From Stdlib Require Import List String Ascii ZArith Bool Arith Lia.
From Stdlib Require Import Decimal DecimalString.
From Stdlib Require Import DecimalNat NArith.
Import ListNotations.

Set Implicit Arguments.
Set Warnings "-register-all".

(* ================================================================= *)
(** ** JavaScript strings *)

Module JsString.

Abbreviation jsstring := (list ascii).

Definition str (s : string) : jsstring := list_ascii_of_string s.

Fixpoint eqb (a b : jsstring) : bool :=
  match a, b with
  | [], [] => true
  | x :: a', y :: b' => Ascii.eqb x y && eqb a' b'
  | _, _ => false
  end.

Definition isEmpty (s : jsstring) : bool :=
  match s with [] => true | _ => false end.

(** Code units matched by the regular-expression class [\s] and stripped
    by [trim]: TAB, LF, VT, FF, CR, SPACE and NBSP. *)
Definition is_ws (c : ascii) : bool :=
  let n := nat_of_ascii c in
  ((9 <=? n) && (n <=? 13)) || (n =? 32) || (n =? 160).

(** Code units changed by [toLowerCase]: A-Z and the Latin-1 capitals
    U+00C0..U+00DE except the multiplication sign U+00D7. *)
Definition is_upper (c : ascii) : bool :=
  let n := nat_of_ascii c in
  ((65 <=? n) && (n <=? 90))
  || ((192 <=? n) && (n <=? 222) && negb (n =? 215)).

Definition lower_char (c : ascii) : ascii :=
  if is_upper c then ascii_of_nat (nat_of_ascii c + 32) else c.

Definition toLowerCase (s : jsstring) : jsstring := map lower_char s.

(** [Array.prototype.join]. *)
Fixpoint join (sep : jsstring) (l : list jsstring) : jsstring :=
  match l with
  | [] => []
  | x :: l' =>
      match l' with
      | [] => x
      | _ :: _ => x ++ sep ++ join sep l'
      end
  end.

(** [s.split(/\s+/)]: [in_sep] records that the scan is inside a run of
    whitespace that has already closed the previous token.  The regular
    expression never matches the empty string, so the result always has
    at least one token. *)
Fixpoint split_run (in_sep : bool) (s : jsstring) : list jsstring :=
  match s with
  | [] => [[]]
  | c :: s' =>
      if is_ws c then
        if in_sep then split_run true s' else [] :: split_run true s'
      else
        match split_run false s' with
        | t :: ts => (c :: t) :: ts
        | [] => [[c]]
        end
  end.

Definition split_ws (s : jsstring) : list jsstring := split_run false s.

Fixpoint trimStart (s : jsstring) : jsstring :=
  match s with
  | [] => []
  | c :: s' => if is_ws c then trimStart s' else s
  end.

Fixpoint trimEnd (s : jsstring) : jsstring :=
  match s with
  | [] => []
  | c :: s' =>
      match trimEnd s' with
      | [] => if is_ws c then [] else [c]
      | r => c :: r
      end
  end.

Definition trim (s : jsstring) : jsstring := trimEnd (trimStart s).

(** [s.replace(/^#/, '')]. *)
Definition strip_hash (s : jsstring) : jsstring :=
  match s with
  | c :: s' => if Ascii.eqb c "#"%char then s' else s
  | [] => []
  end.

Definition is_digit (c : ascii) : bool :=
  let n := nat_of_ascii c in (48 <=? n) && (n <=? 57).

Fixpoint digits_prefix (s : jsstring) : jsstring :=
  match s with
  | c :: s' => if is_digit c then c :: digits_prefix s' else []
  | [] => []
  end.

Definition digits_value (ds : jsstring) : Z :=
  fold_left (fun acc c => (10 * acc + (Z.of_nat (nat_of_ascii c) - 48))%Z) ds 0%Z.

(** Decimal rendering of a natural number and of the magnitude of an
    integer. *)
Definition of_nat (n : nat) : jsstring :=
  str (NilZero.string_of_uint (Nat.to_uint n)).

Definition of_abs (z : Z) : jsstring :=
  str (NilZero.string_of_uint (N.to_uint (Z.abs_N z))).

(** A digit string without its trailing zeros. *)
Fixpoint strip_zeros (ds : jsstring) : jsstring :=
  match ds with
  | [] => []
  | c :: r =>
      match strip_zeros r with
      | [] => if Ascii.eqb c "0"%char then [] else [c]
      | r' => c :: r'
      end
  end.

Definition nonempty (t : jsstring) : bool := negb (isEmpty t).

(** The tokens of a whitespace-separated attribute value. *)
Definition words (s : jsstring) : list jsstring :=
  filter nonempty (split_ws s).

Definition ws_free (s : jsstring) : Prop := Forall (fun c => is_ws c = false) s.
Definition all_ws (s : jsstring) : Prop := Forall (fun c => is_ws c = true) s.
Definition lower_case (s : jsstring) : Prop := Forall (fun c => is_upper c = false) s.

(** A token: non-empty and free of whitespace. *)
Definition token (t : jsstring) : Prop := nonempty t = true /\ ws_free t.

(** The separator of [join(' ')]. *)
Definition sp : jsstring := str " ".

(** The tokens of a list other than its first and its last. *)
Definition interior (l : list jsstring) : list jsstring := removelast (tl l).

End JsString.

Import JsString.

(* ================================================================= *)
(** ** JavaScript values *)

Module Js.

(** Numbers are IEEE 754 doubles; [Int z] is the double whose value is
    the integer [z].  Fractions are outside the model. *)
Inductive number := Int (z : Z) | NaN | PosInf | NegInf.

(** The Number value of a mathematical integer: exact below 2^53,
    rounded to 53 significant bits (ties to even) from there on, and
    infinite once the rounded value reaches 2^1024. *)
Definition double_of_Z (z : Z) : number :=
  let a := Z.abs z in
  if (a <? 2 ^ 53)%Z then Int z
  else
    let e := (Z.log2 a - 52)%Z in
    let q := Z.shiftr a e in
    let r := (a - Z.shiftl q e)%Z in
    let half := Z.shiftl 1 (e - 1) in
    let q' :=
      if (half <? r)%Z || ((r =? half)%Z && Z.odd q) then (q + 1)%Z else q in
    let v := Z.shiftl q' e in
    if (2 ^ 1024 <=? v)%Z then (if (z <? 0)%Z then NegInf else PosInf)
    else Int (if (z <? 0)%Z then - v else v).

(** [ToInt32]: the integer modulo 2^32, read as a signed 32-bit value;
    [NaN] and the infinities give 0. *)
Definition toInt32 (n : number) : Z :=
  match n with
  | Int z => ((z + 2147483648) mod 4294967296 - 2147483648)%Z
  | _ => 0%Z
  end.

(** A DOM element is known by its identity. *)
Definition elem := nat.

Inductive value :=
| VUndefined
| VNull
| VBool (b : bool)
| VNum (n : number)
| VStr (s : jsstring)
| VElem (e : elem)
| VArr (l : list value)
| VObj (fields : list (string * value)).

Definition num_truthy (n : number) : bool :=
  match n with
  | Int z => negb (z =? 0)%Z
  | NaN => false
  | PosInf | NegInf => true
  end.

(** [Boolean(v)]. *)
Definition truthy (v : value) : bool :=
  match v with
  | VUndefined | VNull => false
  | VBool b => b
  | VNum n => num_truthy n
  | VStr s => negb (isEmpty s)
  | VElem _ | VArr _ | VObj _ => true
  end.

(** [a || b]. *)
Definition js_or (a b : value) : value := if truthy a then a else b.

(** utils/inspect: [typeof v === 'number'], [typeof v === 'string'] and
    [Object.prototype.toString.call(v) === '[object Object]']. *)
Definition isNumber (v : value) : bool :=
  match v with VNum _ => true | _ => false end.
Definition isString (v : value) : bool :=
  match v with VStr _ => true | _ => false end.
Definition isPlainObject (v : value) : bool :=
  match v with VObj _ => true | _ => false end.

Fixpoint assoc (k : string) (fs : list (string * value)) : value :=
  match fs with
  | [] => VUndefined
  | (k', v) :: fs' => if String.eqb k k' then v else assoc k fs'
  end.

(** Property read [v.k]; only plain objects carry properties here. *)
Definition get (v : value) (k : string) : value :=
  match v with
  | VObj fs => assoc k fs
  | _ => VUndefined
  end.

(** [Number::toString] on integer values.  The digits are those of the
    shortest decimal [s * 10^(n-k)] that reads back as the same double
    (the nearest one, the even [s] on a tie): below 2^53 that is the
    integer itself.  [rounds_to x v] tells that [v] reads back as [x]. *)
Definition rounds_to (x v : Z) : bool :=
  match double_of_Z v with
  | Int w => (w =? x)%Z
  | _ => false
  end.

Fixpoint shortest_from (fuel : nat) (k n x : Z) : Z :=
  match fuel with
  | O => x
  | S fuel' =>
      let scale := (10 ^ (n - k))%Z in
      let lo := (x / scale * scale)%Z in
      let hi := (lo + scale)%Z in
      match rounds_to x lo, rounds_to x hi with
      | true, true =>
          if (x - lo <? hi - x)%Z then lo
          else if (hi - x <? x - lo)%Z then hi
          else if Z.even (x / scale) then lo else hi
      | true, false => lo
      | false, true => hi
      | false, false => shortest_from fuel' (k + 1) n x
      end
  end.

Definition shortest (x : Z) : Z :=
  if (x <? 2 ^ 53)%Z then x
  else
    let n := List.length (of_abs x) in
    shortest_from n 1 (Z.of_nat n) x.

(** Up to 21 digits the value is written out (the shortest digits
    followed by zeros); beyond, in exponent form. *)
Definition abs_toString (z : Z) : jsstring :=
  let ds := of_abs (shortest (Z.abs z)) in
  let n := List.length ds in
  if n <=? 21 then ds
  else
    match strip_zeros ds with
    | [] => ds
    | [d] => d :: str "e+" ++ of_nat (n - 1)
    | d :: r => d :: str "." ++ r ++ str "e+" ++ of_nat (n - 1)
    end.

Definition num_toString (n : number) : jsstring :=
  match n with
  | Int z => if (z <? 0)%Z then str "-" ++ abs_toString z else abs_toString z
  | NaN => str "NaN"
  | PosInf => str "Infinity"
  | NegInf => str "-Infinity"
  end.

(** [String(v)].  Inside [join] the entries [null] and [undefined]
    render as the empty string; an element renders by its interface
    name, which is not tracked more precisely. *)
Fixpoint toString (v : value) : jsstring :=
  match v with
  | VUndefined => str "undefined"
  | VNull => str "null"
  | VBool true => str "true"
  | VBool false => str "false"
  | VNum n => num_toString n
  | VStr s => s
  | VElem _ => str "[object HTMLElement]"
  | VArr l =>
      join (str ",")
        (map (fun x => match x with
                       | VUndefined | VNull => []
                       | _ => toString x
                       end) l)
  | VObj _ => str "[object Object]"
  end.

Definition join_entry (v : value) : jsstring :=
  match v with
  | VUndefined | VNull => []
  | _ => toString v
  end.

(** utils/array [concat(x)]: [Array.prototype.concat.apply([], [x])]. *)
Definition concat (v : value) : list value :=
  match v with
  | VArr l => l
  | _ => [v]
  end.

(** [parseInt(s, 10)]: leading whitespace, an optional sign, then the
    longest prefix of decimal digits; [NaN] when there is none, and the
    Number value of the integer they denote otherwise.  Every digit
    counts: the licence to read the digits after the twentieth as zeros
    is not used. *)
Definition parseInt (s : jsstring) : number :=
  let s1 := trimStart s in
  let '(neg, s2) :=
    match s1 with
    | c :: r =>
        if Ascii.eqb c "-"%char then (true, r)
        else if Ascii.eqb c "+"%char then (false, r)
        else (false, s1)
    | [] => (false, s1)
    end in
  match digits_prefix s2 with
  | [] => NaN
  | ds => double_of_Z (if neg then - digits_value ds else digits_value ds)
  end.

(** [n || 0] on numbers. *)
Definition num_or_zero (n : number) : number :=
  if num_truthy n then n else Int 0.

(** [Math.max(n, 0)]. *)
Definition max_zero (n : number) : number :=
  match n with
  | Int z => Int (Z.max z 0)
  | NaN => NaN
  | PosInf => PosInf
  | NegInf => Int 0
  end.

Definition nonneg_integer (n : number) : Prop :=
  exists z, n = Int z /\ (0 <= z)%Z.

End Js.

Import Js.

(* ================================================================= *)
(** ** The component instance and its host environment *)

Module BVTooltip.

(** *** Configuration ([props]) *)

Inductive TemplateType := Tooltip | Popover.

Record Props := mkProps {
  triggers : value;
  delay : value;
  target : value;
  container : value;
  boundary : value;
  disabled : bool;
  (** [templateType] is overwritten by BVPopover; [_uid] is the
      instance counter of the framework. *)
  templateType : TemplateType;
  _uid : nat
}.

(** *** The document, as seen through the helpers of utils/dom *)

Record Dom := mkDom {
  getById : jsstring -> option elem;
  inBody : elem -> bool;            (* document.body.contains(el) *)
  isVisible : elem -> bool;
  isDisabled : elem -> bool;
  hasDropdownClass : elem -> bool;  (* hasClass(el, DROPDOWN_CLASS) *)
  hasOpenMenu : elem -> bool;       (* select(DROPDOWN_OPEN_SELECTOR, el) *)
  closestModal : elem -> option elem; (* closest(MODAL_SELECTOR, el) *)
  contains : elem -> elem -> bool;  (* a.contains(b) *)
  elemId : elem -> jsstring;        (* el.id *)
  hasVue : elem -> bool;            (* el.__vue__ *)
  body : elem;
  bodyChildren : list elem;
  touch : bool                      (* 'ontouchstart' in documentElement *)
}.

(** *** Reactive data, instance properties, timers and listeners *)

Record ActiveTrigger := mkActive {
  at_hover : bool;
  at_click : bool;
  at_focus : bool;
  at_manual : bool
}.

Inductive HoverState := HoverNone | HoverIn | HoverOut.

Definition hover_eqb (a b : HoverState) : bool :=
  match a, b with
  | HoverNone, HoverNone | HoverIn, HoverIn | HoverOut, HoverOut => true
  | _, _ => false
  end.

(** What a property holding a timer handle can contain. *)
Inductive handle := HUndefined | HNull | HTimer (id : nat).

(** The closures handed to [setTimeout] and [setInterval]. *)
Inductive Callback := CbShow | CbHide | CbVisible.

Record Timer := mkTimer {
  tm_id : nat;
  tm_due : nat;
  tm_cb : Callback;
  tm_every : option nat   (* [Some p] for an interval of period [p] *)
}.

(** The template instance held in [$_tip]: its [$el] exists once the
    template has mounted. *)
Record Tip := mkTip {
  tip_el : option elem;
  tip_hiding : bool       (* [hide()] has been called on it *)
}.

Inductive EventType := EvClick | EvFocusin | EvFocusout | EvMouseenter | EvMouseleave.

Record Event := mkEvent {
  ev_type : EventType;
  ev_target : option elem;
  ev_relatedTarget : option elem
}.

Inductive BvType := BvShow | BvShown | BvHide | BvHidden | BvEnabled | BvDisabled.

Record BvEvent := mkBvEvent {
  bv_type : BvType;
  bv_cancelable : bool;
  bv_target : option elem;
  bv_relatedTarget : option elem;
  bv_componentId : jsstring
}.

(** The bound methods that are registered as handlers. *)
Inductive Handler := H_doHide | H_doShow | H_doDisable | H_doEnable | H_forceHide.

Definition handler_eqb (a b : Handler) : bool :=
  match a, b with
  | H_doHide, H_doHide | H_doShow, H_doShow | H_doDisable, H_doDisable
  | H_doEnable, H_doEnable | H_forceHide, H_forceHide => true
  | _, _ => false
  end.

Definition evtype_eqb (a b : EventType) : bool :=
  match a, b with
  | EvClick, EvClick | EvFocusin, EvFocusin | EvFocusout, EvFocusout
  | EvMouseenter, EvMouseenter | EvMouseleave, EvMouseleave => true
  | _, _ => false
  end.

Record State := mkState {
  props : Props;
  dom : Dom;
  (** whether the listeners of a cancelable BvEvent call [preventDefault] *)
  prevents : BvType -> bool;
  (* data() *)
  localPlacementTarget : option elem;
  localContainer : option elem;
  localBoundary : value;
  activeTrigger : ActiveTrigger;
  hoverState : HoverState;
  localShow : bool;
  enabled : bool;
  (* properties set on the instance *)
  _tip : option Tip;                  (* $_tip *)
  _hoverTimeout : handle;             (* $_hoverTimeout *)
  hoverTimeout : handle;              (* hoverTimeout *)
  dollar_hoverTimeout : handle;       (* $hoverTimeout *)
  _hoverTimout : handle;              (* $_hoverTimout *)
  _visibleInterval : handle;          (* $_visibleInterval *)
  visibleInterval : handle;           (* visibleInterval *)
  (* host: clock, timers, attributes, listeners, emitted events *)
  now : nat;
  timers : list Timer;
  next_timer : nat;
  describedby : elem -> option jsstring;  (* the aria-describedby attribute *)
  domListeners : list (elem * EventType); (* handleEvent on the target *)
  rootListeners : list (jsstring * Handler);
  vueListeners : list elem;               (* 'shown' -> forceHide on el.__vue__ *)
  touchListeners : list elem;             (* 'mouseover' -> $_noop *)
  hasParent : bool;   (* [$parent] exists; [created] hooks [$destroy] on it *)
  emitted : list BvEvent
}.

(** *** Assignments to the fields of the instance *)

Definition set_props (v : Props) (s : State) : State :=
  mkState v (dom s) (prevents s) (localPlacementTarget s) (localContainer s)
    (localBoundary s) (activeTrigger s) (hoverState s) (localShow s)
    (enabled s) (_tip s) (_hoverTimeout s) (hoverTimeout s)
    (dollar_hoverTimeout s) (_hoverTimout s) (_visibleInterval s)
    (visibleInterval s) (now s) (timers s) (next_timer s) (describedby s)
    (domListeners s) (rootListeners s) (vueListeners s) (touchListeners s)
    (hasParent s) (emitted s).

Definition set_dom (v : Dom) (s : State) : State :=
  mkState (props s) v (prevents s) (localPlacementTarget s)
    (localContainer s) (localBoundary s) (activeTrigger s) (hoverState s)
    (localShow s) (enabled s) (_tip s) (_hoverTimeout s) (hoverTimeout s)
    (dollar_hoverTimeout s) (_hoverTimout s) (_visibleInterval s)
    (visibleInterval s) (now s) (timers s) (next_timer s) (describedby s)
    (domListeners s) (rootListeners s) (vueListeners s) (touchListeners s)
    (hasParent s) (emitted s).

Definition set_prevents (v : BvType -> bool) (s : State) : State :=
  mkState (props s) (dom s) v (localPlacementTarget s) (localContainer s)
    (localBoundary s) (activeTrigger s) (hoverState s) (localShow s)
    (enabled s) (_tip s) (_hoverTimeout s) (hoverTimeout s)
    (dollar_hoverTimeout s) (_hoverTimout s) (_visibleInterval s)
    (visibleInterval s) (now s) (timers s) (next_timer s) (describedby s)
    (domListeners s) (rootListeners s) (vueListeners s) (touchListeners s)
    (hasParent s) (emitted s).

Definition set_localPlacementTarget (v : option elem) (s : State) : State :=
  mkState (props s) (dom s) (prevents s) v (localContainer s)
    (localBoundary s) (activeTrigger s) (hoverState s) (localShow s)
    (enabled s) (_tip s) (_hoverTimeout s) (hoverTimeout s)
    (dollar_hoverTimeout s) (_hoverTimout s) (_visibleInterval s)
    (visibleInterval s) (now s) (timers s) (next_timer s) (describedby s)
    (domListeners s) (rootListeners s) (vueListeners s) (touchListeners s)
    (hasParent s) (emitted s).

Definition set_localContainer (v : option elem) (s : State) : State :=
  mkState (props s) (dom s) (prevents s) (localPlacementTarget s) v
    (localBoundary s) (activeTrigger s) (hoverState s) (localShow s)
    (enabled s) (_tip s) (_hoverTimeout s) (hoverTimeout s)
    (dollar_hoverTimeout s) (_hoverTimout s) (_visibleInterval s)
    (visibleInterval s) (now s) (timers s) (next_timer s) (describedby s)
    (domListeners s) (rootListeners s) (vueListeners s) (touchListeners s)
    (hasParent s) (emitted s).

Definition set_localBoundary (v : value) (s : State) : State :=
  mkState (props s) (dom s) (prevents s) (localPlacementTarget s)
    (localContainer s) v (activeTrigger s) (hoverState s) (localShow s)
    (enabled s) (_tip s) (_hoverTimeout s) (hoverTimeout s)
    (dollar_hoverTimeout s) (_hoverTimout s) (_visibleInterval s)
    (visibleInterval s) (now s) (timers s) (next_timer s) (describedby s)
    (domListeners s) (rootListeners s) (vueListeners s) (touchListeners s)
    (hasParent s) (emitted s).

Definition set_activeTrigger (v : ActiveTrigger) (s : State) : State :=
  mkState (props s) (dom s) (prevents s) (localPlacementTarget s)
    (localContainer s) (localBoundary s) v (hoverState s) (localShow s)
    (enabled s) (_tip s) (_hoverTimeout s) (hoverTimeout s)
    (dollar_hoverTimeout s) (_hoverTimout s) (_visibleInterval s)
    (visibleInterval s) (now s) (timers s) (next_timer s) (describedby s)
    (domListeners s) (rootListeners s) (vueListeners s) (touchListeners s)
    (hasParent s) (emitted s).

Definition set_hoverState (v : HoverState) (s : State) : State :=
  mkState (props s) (dom s) (prevents s) (localPlacementTarget s)
    (localContainer s) (localBoundary s) (activeTrigger s) v (localShow s)
    (enabled s) (_tip s) (_hoverTimeout s) (hoverTimeout s)
    (dollar_hoverTimeout s) (_hoverTimout s) (_visibleInterval s)
    (visibleInterval s) (now s) (timers s) (next_timer s) (describedby s)
    (domListeners s) (rootListeners s) (vueListeners s) (touchListeners s)
    (hasParent s) (emitted s).

Definition set_localShow (v : bool) (s : State) : State :=
  mkState (props s) (dom s) (prevents s) (localPlacementTarget s)
    (localContainer s) (localBoundary s) (activeTrigger s) (hoverState s) v
    (enabled s) (_tip s) (_hoverTimeout s) (hoverTimeout s)
    (dollar_hoverTimeout s) (_hoverTimout s) (_visibleInterval s)
    (visibleInterval s) (now s) (timers s) (next_timer s) (describedby s)
    (domListeners s) (rootListeners s) (vueListeners s) (touchListeners s)
    (hasParent s) (emitted s).

Definition set_enabled (v : bool) (s : State) : State :=
  mkState (props s) (dom s) (prevents s) (localPlacementTarget s)
    (localContainer s) (localBoundary s) (activeTrigger s) (hoverState s)
    (localShow s) v (_tip s) (_hoverTimeout s) (hoverTimeout s)
    (dollar_hoverTimeout s) (_hoverTimout s) (_visibleInterval s)
    (visibleInterval s) (now s) (timers s) (next_timer s) (describedby s)
    (domListeners s) (rootListeners s) (vueListeners s) (touchListeners s)
    (hasParent s) (emitted s).

Definition set__tip (v : option Tip) (s : State) : State :=
  mkState (props s) (dom s) (prevents s) (localPlacementTarget s)
    (localContainer s) (localBoundary s) (activeTrigger s) (hoverState s)
    (localShow s) (enabled s) v (_hoverTimeout s) (hoverTimeout s)
    (dollar_hoverTimeout s) (_hoverTimout s) (_visibleInterval s)
    (visibleInterval s) (now s) (timers s) (next_timer s) (describedby s)
    (domListeners s) (rootListeners s) (vueListeners s) (touchListeners s)
    (hasParent s) (emitted s).

Definition set__hoverTimeout (v : handle) (s : State) : State :=
  mkState (props s) (dom s) (prevents s) (localPlacementTarget s)
    (localContainer s) (localBoundary s) (activeTrigger s) (hoverState s)
    (localShow s) (enabled s) (_tip s) v (hoverTimeout s)
    (dollar_hoverTimeout s) (_hoverTimout s) (_visibleInterval s)
    (visibleInterval s) (now s) (timers s) (next_timer s) (describedby s)
    (domListeners s) (rootListeners s) (vueListeners s) (touchListeners s)
    (hasParent s) (emitted s).

Definition set_hoverTimeout (v : handle) (s : State) : State :=
  mkState (props s) (dom s) (prevents s) (localPlacementTarget s)
    (localContainer s) (localBoundary s) (activeTrigger s) (hoverState s)
    (localShow s) (enabled s) (_tip s) (_hoverTimeout s) v
    (dollar_hoverTimeout s) (_hoverTimout s) (_visibleInterval s)
    (visibleInterval s) (now s) (timers s) (next_timer s) (describedby s)
    (domListeners s) (rootListeners s) (vueListeners s) (touchListeners s)
    (hasParent s) (emitted s).

Definition set_dollar_hoverTimeout (v : handle) (s : State) : State :=
  mkState (props s) (dom s) (prevents s) (localPlacementTarget s)
    (localContainer s) (localBoundary s) (activeTrigger s) (hoverState s)
    (localShow s) (enabled s) (_tip s) (_hoverTimeout s) (hoverTimeout s) v
    (_hoverTimout s) (_visibleInterval s) (visibleInterval s) (now s)
    (timers s) (next_timer s) (describedby s) (domListeners s)
    (rootListeners s) (vueListeners s) (touchListeners s) (hasParent s)
    (emitted s).

Definition set__hoverTimout (v : handle) (s : State) : State :=
  mkState (props s) (dom s) (prevents s) (localPlacementTarget s)
    (localContainer s) (localBoundary s) (activeTrigger s) (hoverState s)
    (localShow s) (enabled s) (_tip s) (_hoverTimeout s) (hoverTimeout s)
    (dollar_hoverTimeout s) v (_visibleInterval s) (visibleInterval s)
    (now s) (timers s) (next_timer s) (describedby s) (domListeners s)
    (rootListeners s) (vueListeners s) (touchListeners s) (hasParent s)
    (emitted s).

Definition set__visibleInterval (v : handle) (s : State) : State :=
  mkState (props s) (dom s) (prevents s) (localPlacementTarget s)
    (localContainer s) (localBoundary s) (activeTrigger s) (hoverState s)
    (localShow s) (enabled s) (_tip s) (_hoverTimeout s) (hoverTimeout s)
    (dollar_hoverTimeout s) (_hoverTimout s) v (visibleInterval s) (now s)
    (timers s) (next_timer s) (describedby s) (domListeners s)
    (rootListeners s) (vueListeners s) (touchListeners s) (hasParent s)
    (emitted s).

Definition set_visibleInterval (v : handle) (s : State) : State :=
  mkState (props s) (dom s) (prevents s) (localPlacementTarget s)
    (localContainer s) (localBoundary s) (activeTrigger s) (hoverState s)
    (localShow s) (enabled s) (_tip s) (_hoverTimeout s) (hoverTimeout s)
    (dollar_hoverTimeout s) (_hoverTimout s) (_visibleInterval s) v (now s)
    (timers s) (next_timer s) (describedby s) (domListeners s)
    (rootListeners s) (vueListeners s) (touchListeners s) (hasParent s)
    (emitted s).

Definition set_now (v : nat) (s : State) : State :=
  mkState (props s) (dom s) (prevents s) (localPlacementTarget s)
    (localContainer s) (localBoundary s) (activeTrigger s) (hoverState s)
    (localShow s) (enabled s) (_tip s) (_hoverTimeout s) (hoverTimeout s)
    (dollar_hoverTimeout s) (_hoverTimout s) (_visibleInterval s)
    (visibleInterval s) v (timers s) (next_timer s) (describedby s)
    (domListeners s) (rootListeners s) (vueListeners s) (touchListeners s)
    (hasParent s) (emitted s).

Definition set_timers (v : list Timer) (s : State) : State :=
  mkState (props s) (dom s) (prevents s) (localPlacementTarget s)
    (localContainer s) (localBoundary s) (activeTrigger s) (hoverState s)
    (localShow s) (enabled s) (_tip s) (_hoverTimeout s) (hoverTimeout s)
    (dollar_hoverTimeout s) (_hoverTimout s) (_visibleInterval s)
    (visibleInterval s) (now s) v (next_timer s) (describedby s)
    (domListeners s) (rootListeners s) (vueListeners s) (touchListeners s)
    (hasParent s) (emitted s).

Definition set_next_timer (v : nat) (s : State) : State :=
  mkState (props s) (dom s) (prevents s) (localPlacementTarget s)
    (localContainer s) (localBoundary s) (activeTrigger s) (hoverState s)
    (localShow s) (enabled s) (_tip s) (_hoverTimeout s) (hoverTimeout s)
    (dollar_hoverTimeout s) (_hoverTimout s) (_visibleInterval s)
    (visibleInterval s) (now s) (timers s) v (describedby s)
    (domListeners s) (rootListeners s) (vueListeners s) (touchListeners s)
    (hasParent s) (emitted s).

Definition set_describedby (v : elem -> option jsstring) (s : State) : State :=
  mkState (props s) (dom s) (prevents s) (localPlacementTarget s)
    (localContainer s) (localBoundary s) (activeTrigger s) (hoverState s)
    (localShow s) (enabled s) (_tip s) (_hoverTimeout s) (hoverTimeout s)
    (dollar_hoverTimeout s) (_hoverTimout s) (_visibleInterval s)
    (visibleInterval s) (now s) (timers s) (next_timer s) v (domListeners s)
    (rootListeners s) (vueListeners s) (touchListeners s) (hasParent s)
    (emitted s).

Definition set_domListeners (v : list (elem * EventType)) (s : State) : State :=
  mkState (props s) (dom s) (prevents s) (localPlacementTarget s)
    (localContainer s) (localBoundary s) (activeTrigger s) (hoverState s)
    (localShow s) (enabled s) (_tip s) (_hoverTimeout s) (hoverTimeout s)
    (dollar_hoverTimeout s) (_hoverTimout s) (_visibleInterval s)
    (visibleInterval s) (now s) (timers s) (next_timer s) (describedby s) v
    (rootListeners s) (vueListeners s) (touchListeners s) (hasParent s)
    (emitted s).

Definition set_rootListeners (v : list (jsstring * Handler)) (s : State) : State :=
  mkState (props s) (dom s) (prevents s) (localPlacementTarget s)
    (localContainer s) (localBoundary s) (activeTrigger s) (hoverState s)
    (localShow s) (enabled s) (_tip s) (_hoverTimeout s) (hoverTimeout s)
    (dollar_hoverTimeout s) (_hoverTimout s) (_visibleInterval s)
    (visibleInterval s) (now s) (timers s) (next_timer s) (describedby s)
    (domListeners s) v (vueListeners s) (touchListeners s) (hasParent s)
    (emitted s).

Definition set_vueListeners (v : list elem) (s : State) : State :=
  mkState (props s) (dom s) (prevents s) (localPlacementTarget s)
    (localContainer s) (localBoundary s) (activeTrigger s) (hoverState s)
    (localShow s) (enabled s) (_tip s) (_hoverTimeout s) (hoverTimeout s)
    (dollar_hoverTimeout s) (_hoverTimout s) (_visibleInterval s)
    (visibleInterval s) (now s) (timers s) (next_timer s) (describedby s)
    (domListeners s) (rootListeners s) v (touchListeners s) (hasParent s)
    (emitted s).

Definition set_touchListeners (v : list elem) (s : State) : State :=
  mkState (props s) (dom s) (prevents s) (localPlacementTarget s)
    (localContainer s) (localBoundary s) (activeTrigger s) (hoverState s)
    (localShow s) (enabled s) (_tip s) (_hoverTimeout s) (hoverTimeout s)
    (dollar_hoverTimeout s) (_hoverTimout s) (_visibleInterval s)
    (visibleInterval s) (now s) (timers s) (next_timer s) (describedby s)
    (domListeners s) (rootListeners s) (vueListeners s) v (hasParent s)
    (emitted s).

Definition set_hasParent (v : bool) (s : State) : State :=
  mkState (props s) (dom s) (prevents s) (localPlacementTarget s)
    (localContainer s) (localBoundary s) (activeTrigger s) (hoverState s)
    (localShow s) (enabled s) (_tip s) (_hoverTimeout s) (hoverTimeout s)
    (dollar_hoverTimeout s) (_hoverTimout s) (_visibleInterval s)
    (visibleInterval s) (now s) (timers s) (next_timer s) (describedby s)
    (domListeners s) (rootListeners s) (vueListeners s) (touchListeners s) v
    (emitted s).

Definition set_emitted (v : list BvEvent) (s : State) : State :=
  mkState (props s) (dom s) (prevents s) (localPlacementTarget s)
    (localContainer s) (localBoundary s) (activeTrigger s) (hoverState s)
    (localShow s) (enabled s) (_tip s) (_hoverTimeout s) (hoverTimeout s)
    (dollar_hoverTimeout s) (_hoverTimout s) (_visibleInterval s)
    (visibleInterval s) (now s) (timers s) (next_timer s) (describedby s)
    (domListeners s) (rootListeners s) (vueListeners s) (touchListeners s)
    (hasParent s) v.


(** *** Methods that may raise *)

Inductive exn := TypeError (msg : string).

Inductive outcome (A : Type) :=
| Ok (a : A) (s : State)
| Throw (e : exn) (s : State).

Arguments Ok {A} a s.
Arguments Throw {A} e s.

Definition M (A : Type) := State -> outcome A.

Definition ret {A} (a : A) : M A := fun s => Ok a s.

Definition bind {A B} (m : M A) (k : A -> M B) : M B :=
  fun s => match m s with
           | Ok a s' => k a s'
           | Throw e s' => Throw e s'
           end.

Definition throw {A} (e : exn) : M A := fun s => Throw e s.

(** A method that only assigns. *)
Definition lift (f : State -> State) : M unit := fun s => Ok tt (f s).

Definition state_of {A} (o : outcome A) : State :=
  match o with Ok _ s => s | Throw _ s => s end.

Definition raised {A} (o : outcome A) : bool :=
  match o with Ok _ _ => false | Throw _ _ => true end.

Notation "c1 ;; c2" := (bind c1 (fun _ => c2))
  (at level 61, right associativity).

(** *** Computed properties *)

Definition templateTypeName (s : State) : jsstring :=
  match templateType (props s) with
  | Tooltip => str "tooltip"
  | Popover => str "popover"
  end.

Definition computedId (s : State) : jsstring :=
  str "__bv_" ++ templateTypeName s ++ str "_"
    ++ JsString.of_nat (_uid (props s)) ++ str "__".

Record Delay := mkDelay { delay_show : number; delay_hide : number }.

Definition number_of (v : value) (default : number) : number :=
  match v with VNum n => n | _ => default end.

(** Normalizes [delay] into object form. *)
Definition computedDelay (s : State) : Delay :=
  let d := delay (props s) in
  match d with
  | VNum n => mkDelay n n
  | VStr txt =>
      let n := max_zero (num_or_zero (parseInt txt)) in mkDelay n n
  | VObj _ =>
      mkDelay (number_of (get d "show") (Int 0)) (number_of (get d "hide") (Int 0))
  | _ => mkDelay (Int 0) (Int 0)
  end.

(** Returns the triggers in array form. *)
Definition computedTriggers (s : State) : list jsstring :=
  split_ws
    (toLowerCase
       (join sp
          (map join_entry (filter truthy (concat (triggers (props s))))))).

Definition arrayIncludes (l : list jsstring) (x : jsstring) : bool :=
  existsb (JsString.eqb x) l.

Definition isWithActiveTrigger (s : State) : bool :=
  let a := activeTrigger s in
  at_hover a || at_click a || at_focus a || at_manual a.

(** *** Utility methods *)

(** [this.target ? this.target.$el || this.target : null] *)
Definition target_ref (s : State) : value :=
  let t := target (props s) in
  if truthy t then js_or (get t "$el") t else VNull.

Definition getTarget (s : State) : option elem :=
  (* Handle case where target may be a component ref *)
  let t1 := target_ref s in
  (* If an ID *)
  let t2 :=
    match t1 with
    | VStr id =>
        match getById (dom s) (strip_hash id) with
        | Some e => VElem e
        | None => VNull
        end
    | _ => VNull
    end in
  (* If an element ref *)
  match t2 with
  | VElem e => Some e
  | _ => None
  end.

Definition getPlacementTarget (s : State) : option elem := getTarget s.

Definition getTargetId (s : State) : option jsstring :=
  match getTarget s with
  | Some e => if isEmpty (elemId (dom s) e) then None else Some (elemId (dom s) e)
  | None => None
  end.

Definition getTemplateElement (s : State) : option elem :=
  match _tip s with
  | Some t => tip_el t
  | None => None
  end.

Definition getContainer (s : State) : elem :=
  let c := container (props s) in
  let target := getTarget s in
  if truthy c then
    match js_or (get c "$el") c with
    | VStr id =>
        match getById (dom s) (strip_hash id) with
        | Some e => e
        | None => body (dom s)
        end
    | _ => body (dom s)
    end
  else
    match target with
    | Some e =>
        match closestModal (dom s) e with
        | Some m => m
        | None => body (dom s)
        end
    | None => body (dom s)
    end.

Definition getBoundary (s : State) : value :=
  let b := boundary (props s) in
  if truthy b then js_or (get b "$el") b else VStr (str "scrollParent").

Definition isInModal (s : State) : bool :=
  match getTarget s with
  | Some e => match closestModal (dom s) e with Some _ => true | None => false end
  | None => false
  end.

Definition isDropdown (s : State) : bool :=
  match getTarget s with
  | Some e => hasDropdownClass (dom s) e
  | None => false
  end.

Definition dropdownOpen (s : State) : bool :=
  match getTarget s with
  | Some e => isDropdown s && hasOpenMenu (dom s) e
  | None => false
  end.

Definition clearActiveTriggers (s : State) : State :=
  set_activeTrigger (mkActive false false false false) s.

(** *** Host primitives: timers, attributes and listeners *)

(** The delay argument of a timer, as the host reads it: a signed
    32-bit integer, a negative delay counting as 0. *)
Definition timeout_ms (n : number) : nat := Z.to_nat (toInt32 n).

Definition setTimeout (cb : Callback) (ms : nat) (s : State) : handle * State :=
  let id := next_timer s in
  (HTimer id,
   set_next_timer (S id)
     (set_timers (timers s ++ [mkTimer id (now s + ms) cb None]) s)).

Definition setInterval (cb : Callback) (ms : nat) (s : State) : handle * State :=
  let id := next_timer s in
  (HTimer id,
   set_next_timer (S id)
     (set_timers (timers s ++ [mkTimer id (now s + ms) cb (Some ms)]) s)).

(** [clearTimeout] and [clearInterval] share one table of handles;
    [undefined], [null] and stale handles are ignored. *)
Definition clearTimeout (h : handle) (s : State) : State :=
  match h with
  | HTimer id => set_timers (filter (fun t => negb (tm_id t =? id)) (timers s)) s
  | _ => s
  end.

Definition clearInterval := clearTimeout.

Definition getAttr (target : option elem) (s : State) : option jsstring :=
  match target with
  | Some e => describedby s e
  | None => None
  end.

Definition setAttr (target : option elem) (v : jsstring) (s : State) : State :=
  match target with
  | Some e =>
      set_describedby (fun e' => if e' =? e then Some v else describedby s e') s
  | None => s
  end.

Definition removeAttr (target : option elem) (s : State) : State :=
  match target with
  | Some e =>
      set_describedby (fun e' => if e' =? e then None else describedby s e') s
  | None => s
  end.

Definition same_listener (a b : elem * EventType) : bool :=
  (fst a =? fst b) && evtype_eqb (snd a) (snd b).

(** [addEventListener] ignores a registration that is already present. *)
Definition eventOn (el : elem) (ty : EventType) (s : State) : State :=
  if existsb (same_listener (el, ty)) (domListeners s) then s
  else set_domListeners (domListeners s ++ [(el, ty)]) s.

Definition eventOff (el : elem) (ty : EventType) (s : State) : State :=
  set_domListeners
    (filter (fun l => negb (same_listener (el, ty) l)) (domListeners s)) s.

Definition same_root (a b : jsstring * Handler) : bool :=
  JsString.eqb (fst a) (fst b) && handler_eqb (snd a) (snd b).

Fixpoint remove_first {A} (p : A -> bool) (l : list A) : list A :=
  match l with
  | [] => []
  | x :: l' => if p x then l' else x :: remove_first p l'
  end.

(** [$on] appends the handler; [$off] removes its latest registration. *)
Definition root_on (name : jsstring) (h : Handler) (s : State) : State :=
  set_rootListeners (rootListeners s ++ [(name, h)]) s.

Definition root_off (name : jsstring) (h : Handler) (s : State) : State :=
  set_rootListeners
    (List.rev (remove_first (same_root (name, h)) (List.rev (rootListeners s)))) s.

Definition root_method (on : bool) := if on then root_on else root_off.


(** *** ARIA bookkeeping *)

(** [getAttr(target, 'aria-describedby') || ''] *)
Definition attr_or_empty (a : option jsstring) : jsstring :=
  match a with Some v => v | None => [] end.

Definition describedby_add (id : jsstring) (a : option jsstring) : jsstring :=
  trim (join sp (split_ws (attr_or_empty a) ++ [id])).

Definition describedby_remove (id : jsstring) (a : option jsstring) : jsstring :=
  trim (join sp
          (filter (fun d => negb (JsString.eqb d id)) (split_ws (attr_or_empty a)))).

(** Add aria-describedby on trigger element, without removing any other IDs. *)
Definition addAriaDescribedby (s : State) : State :=
  let target := getTarget s in
  let desc := describedby_add (computedId s) (getAttr target s) in
  setAttr target desc s.

(** Remove aria-describedby on trigger element, without removing any other IDs. *)
Definition removeAriaDescribedby (s : State) : State :=
  let target := getTarget s in
  let desc := describedby_remove (computedId s) (getAttr target s) in
  if negb (isEmpty desc) then setAttr target desc s
  else removeAttr target s.

Definition fixTitle (s : State) : State := s.
Definition restoreTitle (s : State) : State := s.

(** *** Listeners that are only registered while the template is showing *)

Definition MODAL_CLOSE_EVENT : jsstring := str "bv::modal::hidden".

Definition setModalListener (on : bool) (s : State) : State :=
  if isInModal s then root_method on MODAL_CLOSE_EVENT H_forceHide s else s.

Definition setDropdownListener (on : bool) (s : State) : State :=
  match getTarget s with
  | None => s
  | Some target =>
      (* [!this.isDropdown] tests the method itself and never holds *)
      if hasVue (dom s) target then
        if on then set_vueListeners (vueListeners s ++ [target]) s
        else set_vueListeners
               (List.rev (remove_first (Nat.eqb target) (List.rev (vueListeners s)))) s
      else s
  end.

Definition visibleCheck (on : bool) (s : State) : State :=
  let s := clearInterval (_visibleInterval s) s in
  let s := set__visibleInterval HNull s in
  if on then
    let '(h, s) := setInterval CbVisible 100 s in
    set_visibleInterval h s
  else s.

Definition setOnTouchStartListener (on : bool) (s : State) : State :=
  if touch (dom s) then
    fold_left
      (fun s el =>
         if on then
           if existsb (Nat.eqb el) (touchListeners s) then s
           else set_touchListeners (touchListeners s ++ [el]) s
         else
           set_touchListeners
             (filter (fun e => negb (e =? el)) (touchListeners s)) s)
      (bodyChildren (dom s)) s
  else s.

Definition setWhileOpenListeners (on : bool) (s : State) : State :=
  let s := setModalListener on s in
  let s := setDropdownListener on s in
  let s := visibleCheck on s in
  setOnTouchStartListener on s.

(** *** Creating and destroying the template *)

Definition createTemplateAndShow (s : State) : State :=
  let s := set_localPlacementTarget (getPlacementTarget s) s in
  let s := set_localContainer (Some (getContainer s)) s in
  let s := set_localBoundary (getBoundary s) s in
  set__tip (Some (mkTip None false)) s.

Definition hideTemplate (s : State) : State :=
  match _tip s with
  | Some t => set__tip (Some (mkTip (tip_el t) true)) s
  | None => s
  end.

Definition destroyTemplate (s : State) : State :=
  let s := setWhileOpenListeners false s in
  let s := clearTimeout (_hoverTimeout s) s in
  let s := set__hoverTimout HNull s in
  let s := set_localPlacementTarget None s in
  let s := set_localContainer None s in
  let s := set_localBoundary (VStr (str "scrollParent")) s in
  let s := clearActiveTriggers s in
  let s := set_hoverState HoverNone s in
  let s := set_localShow false s in
  (* [this.$_tip && this.$_tip.$destroy()], guarded by try/catch *)
  set__tip None s.

(** The names under the [methods] option of the component. *)
Definition method_names : list string :=
  [ "getTemplate"; "createTemplateAndShow"; "hideTemplate"; "destroyTemplate";
    "getTemplateElement"; "show"; "hide"; "forceHide"; "enable"; "disable";
    "onTemplateShow"; "onTemplateShown"; "onTemplateHide"; "onTemplateHidden";
    "onTemplateDestruct"; "getTarget"; "getPlacementTarget"; "getTargetId";
    "getContainer"; "getBoundary"; "isInModal"; "isDropdown"; "dropdownOpen";
    "clearActiveTriggers"; "addAriaDescribedby"; "removeAriaDescribedby";
    "fixTitle"; "restoreTitle"; "buildEvent"; "emitEvent"; "listen";
    "unListen"; "setRootListener"; "setWhileOpenListeners"; "visibleCheck";
    "setModalListener"; "setOnTouchStartListener"; "setDropdownListener";
    "handleEvent"; "doHide"; "doShow"; "doDisable"; "doEnable"; "click";
    "toggle"; "enter"; "leave" ]%string.

(** [this.name()] where the instance has no property [name]: the callee
    is [undefined] and the call raises. *)
Definition call_undefined (name : string) : M unit :=
  throw (TypeError (name ++ " is not a function")).

(** [this.destroyTip()]: no such method exists. *)
Definition destroyTip : M unit := call_undefined "this.destroyTip".

(** *** BvEvent helpers *)

Definition buildEvent (ty : BvType) (cancelable : bool) (s : State) : BvEvent :=
  mkBvEvent ty cancelable (getTarget s) (getTemplateElement s) (computedId s).

(** Emits the event on [$root] and on the instance; the result is the
    event's [defaultPrevented] once the listeners have run. *)
Definition emitEvent (e : BvEvent) (s : State) : bool * State :=
  (bv_cancelable e && prevents s (bv_type e), set_emitted (emitted s ++ [e]) s).

(** *** Show and hide handlers *)

Definition show : M unit := fun s =>
  match getTarget s with
  | None => Ok tt s
  | Some target =>
      if negb (inBody (dom s) target) || negb (isVisible (dom s) target)
         || dropdownOpen s
      then Ok tt s
      else
        let '(defaultPrevented, s) := emitEvent (buildEvent BvShow true s) s in
        if defaultPrevented then
          (* Don't show if event cancelled *)
          (destroyTip ;; ret tt) s
        else
          let s := fixTitle s in
          let s := addAriaDescribedby s in
          let s := set_localShow true s in
          Ok tt (createTemplateAndShow s)
  end.

Definition hide (force : bool) (s : State) : State :=
  match getTemplateElement s with
  | None => s
  | Some _ =>
      if negb (localShow s) then s
      else
        let '(defaultPrevented, s) := emitEvent (buildEvent BvHide (negb force) s) s in
        if defaultPrevented then s
        else
          let s := hideTemplate s in
          let s := clearActiveTriggers s in
          set_hoverState HoverNone s
  end.

Definition forceHide (s : State) : State :=
  match getTemplateElement s with
  | None => s
  | Some _ =>
      if negb (localShow s) then s
      else
        let s := setWhileOpenListeners false s in
        let s := clearTimeout (hoverTimeout s) s in
        let s := set_hoverTimeout HNull s in
        let s := set_hoverState HoverNone s in
        let s := clearActiveTriggers s in
        hide true s
  end.

Definition enable (s : State) : State :=
  let s := set_enabled true s in
  snd (emitEvent (buildEvent BvEnabled false s) s).

Definition disable (s : State) : State :=
  let s := set_enabled false s in
  snd (emitEvent (buildEvent BvDisabled false s) s).

(** *** Trigger handlers *)

Definition enter (evt : option Event) : M unit := fun s =>
  let s :=
    match evt with
    | Some e =>
        let a := activeTrigger s in
        if evtype_eqb (ev_type e) EvFocusin
        then set_activeTrigger (mkActive (at_hover a) (at_click a) true (at_manual a)) s
        else set_activeTrigger (mkActive true (at_click a) (at_focus a) (at_manual a)) s
    | None => s
    end in
  if localShow s || hover_eqb (hoverState s) HoverIn then
    Ok tt (set_hoverState HoverIn s)
  else
    let s := clearTimeout (hoverTimeout s) s in
    let s := set_hoverState HoverIn s in
    if negb (num_truthy (delay_show (computedDelay s))) then show s
    else
      let '(h, s) := setTimeout CbShow (timeout_ms (delay_show (computedDelay s))) s in
      Ok tt (set_hoverTimeout h s).

Definition leave (evt : option Event) (s : State) : State :=
  let s :=
    match evt with
    | Some e =>
        let a := activeTrigger s in
        let s :=
          if evtype_eqb (ev_type e) EvFocusout
          then set_activeTrigger (mkActive (at_hover a) (at_click a) false (at_manual a)) s
          else set_activeTrigger (mkActive false (at_click a) (at_focus a) (at_manual a)) s in
        if evtype_eqb (ev_type e) EvFocusout
           && arrayIncludes (computedTriggers s) (str "blur")
        then
          (* Special case for `blur`: we clear out the other triggers *)
          let a := activeTrigger s in
          let s := set_activeTrigger (mkActive (at_hover a) false (at_focus a) (at_manual a)) s in
          let a := activeTrigger s in
          set_activeTrigger (mkActive false (at_click a) (at_focus a) (at_manual a)) s
        else s
    | None => s
    end in
  if isWithActiveTrigger s then s
  else
    let s := clearTimeout (hoverTimeout s) s in
    let s := set_hoverState HoverOut s in
    if negb (num_truthy (delay_hide (computedDelay s))) then hide false s
    else
      let '(h, s) := setTimeout CbHide (timeout_ms (delay_hide (computedDelay s))) s in
      set_dollar_hoverTimeout h s.

Definition click (evt : Event) : M unit := fun s =>
  if negb (enabled s) || dropdownOpen s then Ok tt s
  else
    let a := activeTrigger s in
    let s := set_activeTrigger
               (mkActive (at_hover a) (negb (at_click a)) (at_focus a) (at_manual a)) s in
    if isWithActiveTrigger s then enter None s
    else Ok tt (leave None s).

Definition toggle : M unit := fun s =>
  if negb (enabled s) || dropdownOpen s then Ok tt s
  else if localShow s then Ok tt (leave None s)
  else enter None s.


(** *** Handlers for template events *)

Definition onTemplateShow (s : State) : State := setWhileOpenListeners true s.

Definition onTemplateShown (s : State) : State :=
  let prevHoverState := hoverState s in
  let s := set_hoverState HoverNone s in
  let s := if hover_eqb prevHoverState HoverOut then leave None s else s in
  snd (emitEvent (buildEvent BvShown false s) s).

Definition onTemplateHide (s : State) : State := setWhileOpenListeners false s.

Definition onTemplateHidden (s : State) : State :=
  let s := removeAriaDescribedby s in
  let s := restoreTitle s in
  let s := destroyTemplate s in
  snd (emitEvent (buildEvent BvHidden false s) s).

Definition onTemplateDestruct (s : State) : State := destroyTemplate s.

(** The template instance has mounted: its [$el] now exists. *)
Definition templateMounted (el : elem) (s : State) : State :=
  match _tip s with
  | Some t => set__tip (Some (mkTip (Some el) (tip_hiding t))) s
  | None => s
  end.

(** *** Event handler setup *)

Definition rootChannel (cmd : string) (s : State) : jsstring :=
  str "bv::" ++ str cmd ++ str "::" ++ templateTypeName s.

(** [$root] exists for every instance, so its guard always passes. *)
Definition setRootListener (on : bool) (s : State) : State :=
  let s := root_method on (rootChannel "hide" s) H_doHide s in
  let s := root_method on (rootChannel "show" s) H_doShow s in
  let s := root_method on (rootChannel "disable" s) H_doDisable s in
  root_method on (rootChannel "enable" s) H_doEnable s.

Definition listen (s : State) : State :=
  match getTarget s with
  | None => s
  | Some el =>
      let s := setRootListener true s in
      fold_left
        (fun s trigger =>
           if JsString.eqb trigger (str "click") then eventOn el EvClick s
           else if JsString.eqb trigger (str "focus") then
             eventOn el EvFocusout (eventOn el EvFocusin s)
           else if JsString.eqb trigger (str "blur") then eventOn el EvFocusout s
           else if JsString.eqb trigger (str "hover") then
             eventOn el EvMouseleave (eventOn el EvMouseenter s)
           else s)
        (computedTriggers s) s
  end.

Definition unListen (s : State) : State :=
  let events := [EvClick; EvFocusin; EvFocusout; EvMouseenter; EvMouseleave] in
  let target := getTarget s in
  let s :=
    fold_left
      (fun s evt =>
         match target with
         | Some t => eventOff t evt s
         | None => s
         end)
      events s in
  setRootListener false s.

(** *** Event handlers *)

Definition contains_opt (d : Dom) (a : elem) (b : option elem) : bool :=
  match b with
  | Some b => contains d a b
  | None => false
  end.

(** Focus moves between the tip and the target, or stays within one. *)
Definition focus_stays (s : State) (target : elem) (evt : Event) : bool :=
  let d := dom s in
  let evtTarget := ev_target evt in
  let relatedTarget := ev_relatedTarget evt in
  match getTemplateElement s with
  | Some tip =>
      (contains_opt d tip evtTarget && contains_opt d target relatedTarget)
      || (contains_opt d target evtTarget && contains_opt d tip relatedTarget)
      || (contains_opt d tip evtTarget && contains_opt d tip relatedTarget)
      || (contains_opt d target evtTarget && contains_opt d target relatedTarget)
  | None =>
      contains_opt d target evtTarget && contains_opt d target relatedTarget
  end.

Definition handleEvent (evt : Event) : M unit := fun s =>
  match getTarget s with
  | None => Ok tt s
  | Some target =>
      if isDisabled (dom s) target || negb (enabled s) || dropdownOpen s then Ok tt s
      else
        let triggers := computedTriggers s in
        match ev_type evt with
        | EvClick =>
            if arrayIncludes triggers (str "click") then click evt s else Ok tt s
        | EvMouseenter =>
            if arrayIncludes triggers (str "hover") then enter (Some evt) s else Ok tt s
        | EvMouseleave =>
            if arrayIncludes triggers (str "hover") then Ok tt (leave (Some evt) s)
            else Ok tt s
        | EvFocusin =>
            if arrayIncludes triggers (str "focus") then enter (Some evt) s else Ok tt s
        | EvFocusout =>
            if arrayIncludes triggers (str "focus") || arrayIncludes triggers (str "blur")
            then
              if focus_stays s target evt then Ok tt s
              else Ok tt (leave (Some evt) s)
            else Ok tt s
        end
  end.

(** The id argument of a global command: absent, or a string. *)
Definition matches_id (id : option jsstring) (s : State) : bool :=
  match id with
  | None => true
  | Some i =>
      if isEmpty i then true
      else
        match getTargetId s with
        | Some t => JsString.eqb t i || JsString.eqb (computedId s) i
        | None => JsString.eqb (computedId s) i
        end
  end.

Definition doHide (id : option jsstring) (s : State) : State :=
  if matches_id id s then forceHide s else s.

Definition doShow (id : option jsstring) : M unit := fun s =>
  if matches_id id s then show s else Ok tt s.

Definition doDisable (id : option jsstring) (s : State) : State :=
  if matches_id id s then disable s else s.

Definition doEnable (id : option jsstring) (s : State) : State :=
  if matches_id id s then enable s else s.

(** *** Lifecycle *)

(** The instance as [data()] leaves it, before [created] runs. *)
Definition instantiate (p : Props) (d : Dom) (pv : BvType -> bool)
    (hasParent : bool) : State :=
  mkState p d pv
    None None (VStr (str "scrollParent"))
    (mkActive false false false false) HoverNone false (negb (disabled p))
    None HUndefined HUndefined HUndefined HUndefined HUndefined HUndefined
    0 [] 1 (fun _ => None) [] [] [] [] hasParent [].

Definition created (s : State) : State :=
  let s := set__tip None s in
  let s := set__hoverTimeout HNull s in
  let s := set__visibleInterval HNull s in
  listen s.

Definition deactivated (s : State) : State := forceHide s.

Definition beforDestroy : M unit :=
  lift unListen ;;
  lift (setWhileOpenListeners false) ;;
  lift (fun s => clearTimeout (_hoverTimeout s) s) ;;
  lift (set__hoverTimeout HNull) ;;
  destroyTip.

(** The lifecycle options of the component, under the names the source
    gives them. *)
Definition lifecycle_options : list (string * M unit) :=
  [ ("created", lift created);
    ("deactivated", lift deactivated);
    ("beforDestroy", beforDestroy) ]%string.

Fixpoint find_hook (name : string) (l : list (string * M unit)) : option (M unit) :=
  match l with
  | [] => None
  | (n, m) :: l' => if String.eqb name n then Some m else find_hook name l'
  end.

(** The framework runs the option registered under the hook's name, if
    there is one. *)
Definition callHook (name : string) : M unit :=
  match find_hook name lifecycle_options with
  | Some m => m
  | None => ret tt
  end.

(** [$destroy()], as far as the component's own options are concerned. *)
Definition destroy : M unit := callHook "beforeDestroy".

(** *** Timer callbacks and the passage of time *)

Definition run_callback (cb : Callback) : M unit := fun s =>
  match cb with
  | CbShow => if hover_eqb (hoverState s) HoverIn then show s else Ok tt s
  | CbHide => if hover_eqb (hoverState s) HoverOut then Ok tt (hide false s) else Ok tt s
  | CbVisible =>
      match getTemplateElement s with
      | Some _ =>
          let visible :=
            match getTarget s with
            | Some t => isVisible (dom s) t
            | None => false
            end in
          if negb visible && localShow s then Ok tt (forceHide s) else Ok tt s
      | None => Ok tt s
      end
  end.

Definition earlier (a b : Timer) : bool :=
  (tm_due a <? tm_due b) || ((tm_due a =? tm_due b) && (tm_id a <=? tm_id b)).

Definition earliest (l : list Timer) : option Timer :=
  fold_left
    (fun best t =>
       match best with
       | None => Some t
       | Some b => if earlier b t then Some b else Some t
       end)
    l None.

Definition next_due (t : nat) (s : State) : option Timer :=
  match earliest (timers s) with
  | Some tm => if tm_due tm <=? t then Some tm else None
  | None => None
  end.

(** Runs one timer task: a timeout is dropped from the table, an
    interval is re-armed; an exception escaping the callback ends the
    task and the loop goes on. *)
Definition fire (tm : Timer) (s : State) : State :=
  let s := set_now (Nat.max (now s) (tm_due tm)) s in
  let others := filter (fun t => negb (tm_id t =? tm_id tm)) (timers s) in
  let s :=
    match tm_every tm with
    | None => set_timers others s
    | Some p =>
        set_timers (others ++ [mkTimer (tm_id tm) (tm_due tm + p) (tm_cb tm) (Some p)]) s
    end in
  state_of (run_callback (tm_cb tm) s).

(** Lets the clock reach [t], running at most [fuel] timer tasks. *)
Fixpoint advance (fuel : nat) (t : nat) (s : State) : State :=
  match fuel with
  | 0 => s
  | S fuel' =>
      match next_due t s with
      | Some tm => advance fuel' t (fire tm s)
      | None => set_now (Nat.max (now s) t) s
      end
  end.

Definition pending (cb : Callback) (s : State) : list Timer :=
  filter (fun t => match tm_cb t, cb with
                   | CbShow, CbShow | CbHide, CbHide | CbVisible, CbVisible => true
                   | _, _ => false
                   end) (timers s).

(** The show/hide delay timers that are pending. *)
Definition delay_timers (s : State) : list Timer :=
  filter (fun t => match tm_cb t with
                   | CbShow | CbHide => true
                   | CbVisible => false
                   end) (timers s).


(** *** Vocabulary of the statements *)

(** The ids listed by an attribute value, and the attribute that lists
    given ids separated by single spaces (absent when there is none). *)
Definition ids_of (a : option jsstring) : list jsstring :=
  words (attr_or_empty a).

Definition attr_of (ids : list jsstring) : option jsstring :=
  match ids with
  | [] => None
  | _ :: _ => Some (join sp ids)
  end.

Definition without (id : jsstring) (ids : list jsstring) : list jsstring :=
  filter (fun d => negb (JsString.eqb d id)) ids.

(** No overlay: nothing is shown and no template instance exists. *)
Definition closed (s : State) : Prop :=
  localShow s = false /\ _tip s = None.

(** A controller at rest. *)
Definition idle (s : State) : Prop :=
  closed s /\ hoverState s = HoverNone /\ timers s = []
  /\ activeTrigger s = mkActive false false false false.

(** The guard of [handleEvent] lets events of the host through. *)
Definition listening (s : State) (host : elem) : Prop :=
  getTarget s = Some host /\ isDisabled (dom s) host = false
  /\ enabled s = true /\ dropdownOpen s = false.

Definition all_inactive (a : ActiveTrigger) : Prop :=
  at_hover a = false /\ at_click a = false /\ at_focus a = false.

(** [s'] differs from [s] in its registered listeners only. *)
Definition listeners_only (s s' : State) : Prop :=
  s' = set_domListeners (domListeners s') (set_rootListeners (rootListeners s') s).

(** No overlay exists and no show timer is pending. *)
Definition no_show (s : State) : Prop :=
  closed s /\ Forall (fun tm => tm_cb tm <> CbShow) (timers s).

(** *** Watchers *)

(** [watch.disabled]: [newVal ? this.disable() : this.enable()]. *)
Definition watch_disabled (newVal : bool) (s : State) : State :=
  if newVal then disable s else enable s.

(** *** Vocabulary of the further statements *)

(** Everything of the instance apart from its timers, its interval
    handles and the listeners on [$root], on a dropdown and on the
    children of the body. *)
Definition core (s : State) :=
  (props s, dom s, prevents s, localPlacementTarget s, localContainer s,
   localBoundary s, activeTrigger s, hoverState s, localShow s, enabled s,
   _tip s, _hoverTimeout s, hoverTimeout s, dollar_hoverTimeout s,
   _hoverTimout s, now s, describedby s, domListeners s, hasParent s,
   emitted s).

(** A delay configuration whose numbers, where it has any, are
    non-negative integers. *)
Definition delay_well_formed (d : value) : Prop :=
  match d with
  | VNum n => nonneg_integer n
  | VStr txt => List.length txt <= 308
  | VObj _ =>
      (forall n, get d "show" = VNum n -> nonneg_integer n)
      /\ (forall n, get d "hide" = VNum n -> nonneg_integer n)
  | _ => True
  end.

(** The guards of [show] pass for [host]. *)
Definition showable (s : State) (host : elem) : Prop :=
  getTarget s = Some host /\ inBody (dom s) host = true
  /\ isVisible (dom s) host = true /\ dropdownOpen s = false.

(** An overlay is open on the mounted element [el]. *)
Definition open_on (s : State) (el : elem) : Prop :=
  getTemplateElement s = Some el /\ localShow s = true.

(** The instance is told to hide: its template got [hide()], no trigger
    is active and the hover intent is reset. *)
Definition hiding (s : State) (el : elem) : Prop :=
  _tip s = Some (mkTip (Some el) true)
  /\ hoverState s = HoverNone
  /\ activeTrigger s = mkActive false false false false.

Definition no_listener_on (host : elem) (s : State) : Prop :=
  forall ty, ~ In (host, ty) (domListeners s).

(** What [$off] leaves of the handlers registered on [$root]. *)
Definition without_latest (a : jsstring * Handler)
    (l : list (jsstring * Handler)) : list (jsstring * Handler) :=
  List.rev (remove_first (same_root a) (List.rev l)).

(** The DOM events that [listen] binds for one trigger token. *)
Definition trigger_events (t : jsstring) : list EventType :=
  if JsString.eqb t (str "click") then [EvClick]
  else if JsString.eqb t (str "focus") then [EvFocusin; EvFocusout]
  else if JsString.eqb t (str "blur") then [EvFocusout]
  else if JsString.eqb t (str "hover") then [EvMouseenter; EvMouseleave]
  else [].

(** *** Vocabulary of the runs *)

(** The handle that the host hands out next is not in use, and no
    interval has period 0. *)
Definition timers_sound (s : State) : Prop :=
  Forall (fun x => tm_id x <> next_timer s /\ tm_every x <> Some 0) (timers s).

(** A bound on the timer tasks that run until the clock reaches [t]:
    every task drops its timer or moves it ahead. *)
Definition tasks_until (t : nat) (s : State) : nat :=
  list_sum (map (fun x => S t - tm_due x) (timers s)).

(** The hide timer [tm] is pending on an overlay open on [el]: the
    hover intent is [out], nothing cancels [hide], and no other timer
    has the handle of [tm]. *)
Definition hide_pending (tm : Timer) (el : elem) (s : State) : Prop :=
  In tm (timers s)
  /\ Forall (fun x => tm_id x = tm_id tm -> x = tm) (timers s)
  /\ open_on s el /\ hoverState s = HoverOut /\ prevents s BvHide = false.

(** The overlay on [el] has been told to hide and is not yet gone. *)
Definition closing (s : State) (el : elem) : Prop :=
  hiding s el /\ localShow s = true.

End BVTooltip.

(* ================================================================= *)
(** ** A page with one host element *)

Module Example.

Import BVTooltip.

Definition host : elem := 1.
Definition tipEl : elem := 2.

(** The host is [<button id="btn">], attached and visible. *)
Definition page : Dom :=
  mkDom (fun id => if JsString.eqb id (str "btn") then Some host else None)
    (fun _ => true) (fun _ => true) (fun _ => false) (fun _ => false)
    (fun _ => false) (fun _ => None) Nat.eqb
    (fun e => if e =? host then str "btn" else []) (fun _ => false)
    0 [] false.

Definition config (tr dl : value) : Props :=
  mkProps tr dl (VStr (str "#btn")) VNull (VStr (str "scrollParent"))
    false Tooltip 7.

Definition delay_100_50 : value :=
  VObj [("show", VNum (Int 100)); ("hide", VNum (Int 50))]%string.

Definition nobody (_ : BvType) : bool := false.
Definition cancel_show (ty : BvType) : bool :=
  match ty with BvShow => true | _ => false end.
Definition cancel_hide (ty : BvType) : bool :=
  match ty with BvHide => true | _ => false end.

Definition controller (p : Props) (pv : BvType -> bool) : State :=
  created (instantiate p page pv true).

Definition hovering : State :=
  controller (config (VStr (str "hover focus")) delay_100_50) nobody.

Definition mouseenter : Event := mkEvent EvMouseenter (Some host) None.
Definition mouseleave : Event := mkEvent EvMouseleave (Some host) None.
Definition focusin : Event := mkEvent EvFocusin (Some host) None.
Definition focusout_away : Event := mkEvent EvFocusout (Some host) (Some 9).
Definition click_host : Event := mkEvent EvClick (Some host) None.

(** The event at time [t]: the clock advances, due timers run, then the
    handler runs. *)
Definition at_time (t : nat) (evt : Event) (s : State) : State :=
  state_of (handleEvent evt (advance 8 t s)).

(** mouseenter at 0, mouseleave at 10, mouseenter at 20. *)
Definition rapid_hover : State :=
  at_time 20 mouseenter (at_time 10 mouseleave (at_time 0 mouseenter hovering)).

(** An open overlay: shown through a focus with no delay, mounted, and
    told by the template that it is inserted. *)
Definition opened (p : Props) (pv : BvType -> bool) : State :=
  onTemplateShow
    (templateMounted tipEl (state_of (handleEvent focusin (controller p pv)))).

Definition open_tooltip : State :=
  opened (config (VStr (str "focus blur")) (VNum (Int 0))) nobody.

(** The overlay closes again: focus leaves the host, the template
    reports [hide] and then [hidden]. *)
Definition closed_again : State :=
  onTemplateHidden
    (onTemplateHide (state_of (handleEvent focusout_away open_tooltip))).

(** An overlay opened by a hover and clicked once mounted, so that the
    hover and the click triggers are both active; hiding is delayed. *)
Definition hover_click_blur : Props :=
  config (VStr (str "hover click blur")) (VObj [("hide", VNum (Int 50))]%string).

Definition hover_click_open : State :=
  state_of
    (handleEvent click_host
       (onTemplateShow
          (templateMounted tipEl
             (state_of (handleEvent mouseenter (controller hover_click_blur nobody)))))).

End Example.

(* ================================================================= *)
(** ** Facts about splitting, joining and trimming *)

Module JsStringFacts.

Lemma eqb_eq (a b : jsstring) : JsString.eqb a b = true <-> a = b.
Proof.
  revert b; induction a as [|x a IH]; intros [|y b]; simpl; split;
    try congruence; try discriminate.
  - intros H. apply andb_true_iff in H as [H1 H2].
    apply Ascii.eqb_eq in H1. apply IH in H2. congruence.
  - intros H. injection H as -> ->. apply andb_true_iff; split.
    + apply Ascii.eqb_refl.
    + now apply IH.
Qed.

Lemma eqb_refl (a : jsstring) : JsString.eqb a a = true.
Proof. now apply eqb_eq. Qed.

Lemma eqb_neq (a b : jsstring) : JsString.eqb a b = false <-> a <> b.
Proof.
  destruct (JsString.eqb a b) eqn:E; split; intros H; try congruence.
  - apply eqb_eq in E. contradiction.
  - intros ->. rewrite eqb_refl in E. discriminate.
Qed.

Lemma lower_char_not_upper (c : ascii) : is_upper (lower_char c) = false.
Proof. destruct c as [[] [] [] [] [] [] [] []]; vm_compute; reflexivity. Qed.

Lemma toLowerCase_lower_case (s : jsstring) : lower_case (toLowerCase s).
Proof.
  induction s as [|c s IH]; constructor; auto using lower_char_not_upper.
Qed.

(** *** Splitting on runs of whitespace *)

Lemma split_run_not_nil (b : bool) (s : jsstring) : split_run b s <> [].
Proof.
  revert b; induction s as [|c s IH]; intros b; simpl; [discriminate|].
  destruct (is_ws c).
  - destruct b; [apply IH | discriminate].
  - destruct (split_run false s); discriminate.
Qed.

Lemma split_run_cons (b : bool) (s : jsstring) :
  split_run b s = hd [] (split_run b s) :: tl (split_run b s).
Proof.
  pose proof (split_run_not_nil b s). destruct (split_run b s); [contradiction | reflexivity].
Qed.

Lemma split_run_Forall (P : ascii -> Prop) (s : jsstring) :
  Forall P s -> forall b, Forall (Forall P) (split_run b s).
Proof.
  induction 1 as [|c s Hc Hs IH]; intros b; simpl.
  - repeat constructor.
  - destruct (is_ws c).
    + destruct b; [apply IH | constructor; [constructor | apply IH]].
    + specialize (IH false). destruct (split_run false s) as [|t ts].
      * repeat constructor; assumption.
      * inversion IH; subst. constructor; [constructor|]; assumption.
Qed.

Lemma split_run_ws_free (s : jsstring) (b : bool) :
  Forall ws_free (split_run b s).
Proof.
  revert b; induction s as [|c s IH]; intros b; simpl.
  - repeat constructor.
  - destruct (is_ws c) eqn:E.
    + destruct b; [apply IH | constructor; [constructor | apply IH]].
    + specialize (IH false). destruct (split_run false s) as [|t ts].
      * repeat constructor; assumption.
      * inversion IH; subst. constructor; [constructor|]; assumption.
Qed.

(** The result of a split is a block of tokens, preceded by at most one
    empty string and followed by empty strings only. *)
Lemma split_run_shape (s : jsstring) (b : bool) :
  exists e1 m e2,
    split_run b s = e1 ++ m ++ e2
    /\ (e1 = [] \/ (e1 = [[]] /\ b = false /\ m <> []))
    /\ Forall (fun t => nonempty t = true) m
    /\ Forall (fun t => t = []) e2.
Proof.
  revert b; induction s as [|c s IH]; intros b; simpl.
  - exists [], [], [[]]. repeat split; auto.
  - destruct (is_ws c).
    + destruct b.
      * destruct (IH true) as (e1 & m & e2 & H & [He1 | (_ & Hb & _)] & Hm & He2);
          [|discriminate].
        exists e1, m, e2. auto.
      * destruct (IH true) as (e1 & m & e2 & H & [He1 | (_ & Hb & _)] & Hm & He2);
          [|discriminate].
        subst e1. simpl in H. rewrite H. destruct m as [|t m].
        -- exists [], [], ([] :: e2). repeat split; auto.
        -- exists [[]], (t :: m), e2. repeat split; auto.
           right. repeat split; auto. discriminate.
    + destruct (IH false) as (e1 & m & e2 & H & He1 & Hm & He2). rewrite H.
      destruct He1 as [-> | (-> & _ & Hne)].
      * simpl. destruct m as [|t m].
        -- simpl. destruct e2 as [|x e2].
           ++ exfalso. apply (split_run_not_nil false s). now rewrite H.
           ++ inversion He2; subst. exists [], [[c]], e2. repeat split; auto.
        -- inversion Hm; subst. exists [], ((c :: t) :: m), e2.
           repeat split; auto.
      * simpl. exists [], ([c] :: m), e2. repeat split; auto.
Qed.

Lemma split_run_inner (s : jsstring) (b : bool) :
  Forall (fun t => nonempty t = true) (removelast (tl (split_run b s)))
  /\ (b = true -> tl (split_run b s) <> [] ->
      nonempty (hd [] (split_run b s)) = true).
Proof.
  revert b; induction s as [|c s IH]; intros b; simpl.
  - split; [constructor | congruence].
  - destruct (is_ws c).
    + destruct b; [apply IH|]. split; [|discriminate].
      destruct (IH true) as [H1 H2]. simpl tl.
      rewrite (split_run_cons true s) in *. simpl in H1, H2.
      destruct (tl (split_run true s)) as [|u us] eqn:E; [constructor|].
      constructor; [apply H2; [reflexivity | discriminate] | exact H1].
    + destruct (IH false) as [H1 _].
      rewrite (split_run_cons false s) in *. simpl in H1 |- *.
      split; [exact H1 | reflexivity].
Qed.

(** Only the first and the last token of a split can be empty. *)
Lemma split_ws_interior (s : jsstring) :
  Forall (fun t => nonempty t = true) (interior (split_ws s)).
Proof. apply (split_run_inner s false). Qed.

Lemma filter_nonempty_empties (e : list jsstring) :
  Forall (fun t => t = []) e -> filter nonempty e = [].
Proof. induction 1 as [|x e Hx _ IH]; simpl; [|subst; simpl]; auto. Qed.

Lemma filter_nonempty_id (m : list jsstring) :
  Forall (fun t => nonempty t = true) m -> filter nonempty m = m.
Proof. induction 1 as [|x m Hx _ IH]; simpl; [|rewrite Hx, IH]; auto. Qed.

Lemma words_eq (s : jsstring) : words s = filter nonempty (split_ws s).
Proof. reflexivity. Qed.

Lemma split_ws_words (s : jsstring) :
  exists e1 e2,
    split_ws s = e1 ++ words s ++ e2
    /\ Forall (fun t => t = []) e1 /\ Forall (fun t => t = []) e2.
Proof.
  destruct (split_run_shape s false) as (e1 & m & e2 & H & He1 & Hm & He2).
  assert (E1 : Forall (fun t : jsstring => t = []) e1).
  { destruct He1 as [-> | (-> & _)]; repeat constructor. }
  exists e1, e2. rewrite words_eq. unfold split_ws. rewrite H at 2.
  rewrite !filter_app, (filter_nonempty_empties E1),
    (filter_nonempty_empties He2), (filter_nonempty_id Hm), app_nil_r.
  auto.
Qed.

Lemma words_tokens (s : jsstring) : Forall token (words s).
Proof.
  rewrite words_eq. apply Forall_forall. intros t Ht.
  apply filter_In in Ht as [Hin Hne]. split; [assumption|].
  pose proof (split_run_ws_free s false) as H.
  rewrite Forall_forall in H. now apply H.
Qed.

Lemma filter_run_irrel (s : jsstring) :
  filter nonempty (split_run true s) = filter nonempty (split_run false s).
Proof. destruct s as [|c s]; simpl; [|destruct (is_ws c)]; reflexivity. Qed.

Lemma split_run_token (t s : jsstring) (b : bool) :
  ws_free t -> t <> [] \/ b = false ->
  split_run b (t ++ s)
  = (t ++ hd [] (split_run false s)) :: tl (split_run false s).
Proof.
  intros Ht; revert b; induction Ht as [|c t Hc Ht IH]; intros b Hb.
  - destruct Hb as [Hb | ->]; [congruence|]. simpl. apply split_run_cons.
  - simpl. rewrite Hc. rewrite (IH false) by auto. reflexivity.
Qed.

Lemma join_cons2 (x y : jsstring) (l : list jsstring) :
  join sp (x :: y :: l) = x ++ sp ++ join sp (y :: l).
Proof. reflexivity. Qed.

Lemma filter_run_join (l : list jsstring) :
  Forall ws_free l ->
  filter nonempty (split_run true (join sp l)) = filter nonempty l.
Proof.
  induction 1 as [|t l Ht Hl IH]; [reflexivity|].
  destruct l as [|t' l'].
  - simpl join. destruct t as [|c t0]; [reflexivity|].
    rewrite <- (app_nil_r (c :: t0)) at 1.
    rewrite split_run_token by (auto; left; discriminate).
    simpl. now rewrite app_nil_r.
  - rewrite join_cons2. destruct t as [|c t0].
    + simpl. apply IH.
    + rewrite split_run_token by (auto; left; discriminate).
      change (split_run false (sp ++ join sp (t' :: l')))
        with ([] :: split_run true (join sp (t' :: l'))).
      simpl hd. simpl tl. rewrite app_nil_r.
      cbn [filter nonempty isEmpty negb]. f_equal. exact IH.
Qed.

Lemma words_join (l : list jsstring) :
  Forall ws_free l -> words (join sp l) = filter nonempty l.
Proof.
  intros H. rewrite words_eq. unfold split_ws.
  rewrite <- filter_run_irrel. now apply filter_run_join.
Qed.


(** *** Trimming *)

Lemma words_cons_ws (c : ascii) (s : jsstring) :
  is_ws c = true -> words (c :: s) = words s.
Proof.
  intros H. rewrite !words_eq. unfold split_ws. simpl. rewrite H. simpl.
  apply filter_run_irrel.
Qed.

Lemma words_trimStart (s : jsstring) : words (trimStart s) = words s.
Proof.
  induction s as [|c s IH]; simpl; [reflexivity|].
  destruct (is_ws c) eqn:E; [|reflexivity].
  now rewrite IH, words_cons_ws.
Qed.

Lemma split_run_trimEnd (s : jsstring) (b : bool) :
  hd [] (split_run b (trimEnd s)) = hd [] (split_run b s)
  /\ filter nonempty (tl (split_run b (trimEnd s)))
     = filter nonempty (tl (split_run b s)).
Proof.
  revert b; induction s as [|c s IH]; intros b; [split; reflexivity|].
  simpl trimEnd. destruct (trimEnd s) as [|x r] eqn:E.
  - destruct (is_ws c) eqn:W.
    + simpl. rewrite W. destruct b.
      * apply (IH true).
      * destruct (IH true) as [H1 H2]. simpl. split; [reflexivity|].
        rewrite (split_run_cons true s). simpl in H1, H2 |- *.
        rewrite <- H1, <- H2. reflexivity.
    + simpl. rewrite W. destruct (IH false) as [H1 H2].
      rewrite (split_run_cons false s). simpl in H1, H2 |- *.
      rewrite <- H1, <- H2. split; reflexivity.
  - rewrite <- E in *. clear E x r.
    cbn [split_run]. destruct (is_ws c) eqn:W.
    + destruct b.
      * apply (IH true).
      * destruct (IH true) as [H1 H2]. simpl. split; [reflexivity|].
        rewrite (split_run_cons true s), (split_run_cons true (trimEnd s)).
        simpl. now rewrite H1, H2.
    + destruct (IH false) as [H1 H2].
      rewrite (split_run_cons false s), (split_run_cons false (trimEnd s)).
      simpl. now rewrite H1, H2.
Qed.

Lemma words_trimEnd (s : jsstring) : words (trimEnd s) = words s.
Proof.
  rewrite !words_eq. unfold split_ws.
  destruct (split_run_trimEnd s false) as [H1 H2].
  rewrite (split_run_cons false s), (split_run_cons false (trimEnd s)).
  simpl. now rewrite H1, H2.
Qed.

Lemma words_trim (s : jsstring) : words (trim s) = words s.
Proof. unfold trim. now rewrite words_trimEnd, words_trimStart. Qed.

Lemma trimStart_all_ws (a s : jsstring) :
  all_ws a -> trimStart (a ++ s) = trimStart s.
Proof. induction 1 as [|c a Hc _ IH]; simpl; [|rewrite Hc]; auto. Qed.

Lemma trimEnd_all_ws_nil (b : jsstring) : all_ws b -> trimEnd b = [].
Proof. induction 1 as [|c b Hc _ IH]; simpl; [|rewrite IH, Hc]; auto. Qed.

Lemma trimEnd_all_ws (s b : jsstring) :
  all_ws b -> trimEnd (s ++ b) = trimEnd s.
Proof.
  intros Hb. induction s as [|c s IH]; simpl.
  - now apply trimEnd_all_ws_nil.
  - now rewrite IH.
Qed.

Lemma trimEnd_ws_free (t : jsstring) : ws_free t -> trimEnd t = t.
Proof.
  induction 1 as [|c t Hc _ IH]; simpl; [reflexivity|].
  rewrite IH, Hc. destruct t; reflexivity.
Qed.

Lemma trimEnd_app (x y : jsstring) :
  trimEnd y <> [] -> trimEnd (x ++ y) = x ++ trimEnd y.
Proof.
  intros H. induction x as [|c x IH]; simpl; [reflexivity|].
  rewrite IH. destruct (x ++ trimEnd y) eqn:E; [|reflexivity].
  apply app_eq_nil in E. tauto.
Qed.

Lemma join_tokens_head (m : list jsstring) :
  Forall token m -> m <> [] ->
  exists c r, join sp m = c :: r /\ is_ws c = false.
Proof.
  intros H Hm. destruct H as [|t m [Hne Hws] _]; [contradiction|].
  destruct t as [|c t]; [discriminate|]. inversion Hws; subst.
  exists c. destruct m; simpl; eauto.
Qed.

Lemma trimEnd_join_tokens (m : list jsstring) :
  Forall token m -> trimEnd (join sp m) = join sp m.
Proof.
  induction 1 as [|t m [Hne Hws] Hm IH]; [reflexivity|].
  destruct m as [|t' m'].
  - simpl. now apply trimEnd_ws_free.
  - rewrite join_cons2, app_assoc, trimEnd_app; rewrite IH; [reflexivity|].
    destruct (@join_tokens_head (t' :: m')) as (c & r & E & _);
      [assumption | discriminate | congruence].
Qed.

Lemma join_empties_l (e l : list jsstring) :
  Forall (fun t => t = []) e ->
  exists a, all_ws a /\ join sp (e ++ l) = a ++ join sp l.
Proof.
  induction 1 as [|x e Hx _ IH].
  - exists []. split; [constructor | reflexivity].
  - subst x. destruct IH as (a & Ha & E).
    change (([] :: e) ++ l) with ([] :: (e ++ l)).
    destruct (e ++ l) as [|y r] eqn:El.
    + apply app_eq_nil in El as [_ ->]. exists []. split; [constructor|reflexivity].
    + exists (sp ++ a). split.
      * constructor; [reflexivity | assumption].
      * rewrite join_cons2, E. now rewrite app_assoc.
Qed.

Lemma join_empties_nil (e : list jsstring) :
  Forall (fun t => t = []) e -> all_ws (join sp e).
Proof.
  intros H. destruct (join_empties_l [] H) as (a & Ha & E).
  rewrite app_nil_r in E. simpl in E. rewrite app_nil_r in E. now rewrite E.
Qed.

Lemma join_empties_r (l e : list jsstring) :
  Forall (fun t => t = []) e ->
  exists b, all_ws b /\ join sp (l ++ e) = join sp l ++ b.
Proof.
  intros He. induction l as [|x l IH].
  - exists (join sp e). split; [now apply join_empties_nil | reflexivity].
  - destruct IH as (b & Hb & E). destruct l as [|y l'].
    + change ([x] ++ e) with (x :: e). destruct e as [|z e'].
      * exists []. split; [constructor | now rewrite app_nil_r].
      * rewrite join_cons2. exists (sp ++ join sp (z :: e')). split; [|reflexivity].
        constructor; [reflexivity | now apply join_empties_nil].
    + exists b. split; [assumption|].
      change (join sp ((x :: y :: l') ++ e))
        with (x ++ sp ++ join sp ((y :: l') ++ e)).
      rewrite E, join_cons2. now rewrite <- !app_assoc.
Qed.

(** Trimming the join of a block of tokens surrounded by empty strings
    leaves the tokens, single-spaced. *)
Lemma trim_join_shape (e1 m e2 : list jsstring) :
  Forall (fun t => t = []) e1 -> Forall token m -> Forall (fun t => t = []) e2 ->
  trim (join sp (e1 ++ m ++ e2)) = join sp m.
Proof.
  intros H1 Hm H2.
  destruct (join_empties_l (m ++ e2) H1) as (a & Ha & Ea).
  destruct (join_empties_r m H2) as (b & Hb & Eb).
  rewrite Ea, Eb. unfold trim. rewrite trimStart_all_ws by assumption.
  destruct m as [|t m'].
  - simpl. rewrite <- (app_nil_r b), trimStart_all_ws by assumption. reflexivity.
  - destruct (@join_tokens_head (t :: m')) as (c & r & E & Hc);
      [assumption | discriminate |].
    assert (S : trimStart (join sp (t :: m') ++ b) = join sp (t :: m') ++ b).
    { rewrite E. simpl. now rewrite Hc. }
    rewrite S, trimEnd_all_ws by assumption. now apply trimEnd_join_tokens.
Qed.

(** *** Decimal rendering *)

Lemma string_of_uint_ws_free (d : uint) :
  ws_free (str (NilEmpty.string_of_uint d)).
Proof. induction d; simpl; constructor; auto. Qed.

Lemma of_nat_ws_free (n : nat) : ws_free (JsString.of_nat n).
Proof.
  unfold JsString.of_nat, NilZero.string_of_uint.
  destruct (Nat.to_uint n) eqn:E; try apply string_of_uint_ws_free.
  repeat constructor.
Qed.

(** *** Lower-casing, joining and splitting *)

Lemma is_ws_lower_char (c : ascii) : is_ws (lower_char c) = is_ws c.
Proof. destruct c as [[] [] [] [] [] [] [] []]; vm_compute; reflexivity. Qed.

Lemma toLowerCase_app (a b : jsstring) :
  toLowerCase (a ++ b) = toLowerCase a ++ toLowerCase b.
Proof. apply map_app. Qed.

Lemma toLowerCase_join (l : list jsstring) :
  toLowerCase (join sp l) = join sp (map toLowerCase l).
Proof.
  induction l as [|x l IH]; [reflexivity|].
  destruct l as [|y l]; [reflexivity|].
  rewrite join_cons2, !toLowerCase_app, IH. reflexivity.
Qed.

Lemma split_run_toLowerCase (s : jsstring) (b : bool) :
  split_run b (toLowerCase s) = map toLowerCase (split_run b s).
Proof.
  revert b. induction s as [|c s IH]; intros b; [reflexivity|].
  cbn [toLowerCase map split_run]. rewrite is_ws_lower_char.
  fold (toLowerCase s). destruct (is_ws c).
  - destruct b; cbn [map]; now rewrite IH.
  - rewrite IH. pose proof (split_run_not_nil false s).
    destruct (split_run false s); [contradiction | reflexivity].
Qed.

Lemma nonempty_toLowerCase (t : jsstring) :
  nonempty (toLowerCase t) = nonempty t.
Proof. now destruct t. Qed.

Lemma words_toLowerCase (s : jsstring) :
  words (toLowerCase s) = map toLowerCase (words s).
Proof.
  rewrite !words_eq. unfold split_ws. rewrite split_run_toLowerCase.
  induction (split_run false s) as [|t ts IH]; [reflexivity|].
  cbn [map filter]. rewrite nonempty_toLowerCase.
  destruct (nonempty t); cbn [map]; now rewrite IH.
Qed.

Lemma token_toLowerCase (t : jsstring) : token t -> token (toLowerCase t).
Proof.
  intros [N W]. split; [now rewrite nonempty_toLowerCase|].
  unfold ws_free, toLowerCase. rewrite Forall_map.
  eapply Forall_impl; [|exact W]. intros c Hc. now rewrite is_ws_lower_char.
Qed.

(** A whitespace character between two strings separates their words. *)
Lemma split_run_sep (a b : jsstring) (c : ascii) :
  is_ws c = true ->
  hd [] (split_run false (a ++ c :: b)) = hd [] (split_run false a)
  /\ filter nonempty (tl (split_run false (a ++ c :: b)))
     = filter nonempty (tl (split_run false a)) ++ words b.
Proof.
  intros Hc. induction a as [|d a [IH1 IH2]].
  - cbn [Datatypes.app split_run]. rewrite Hc. cbn [hd tl filter Datatypes.app].
    split; [reflexivity|]. rewrite words_eq. apply filter_run_irrel.
  - cbn [Datatypes.app split_run]. destruct (is_ws d).
    + cbn [hd tl]. split; [reflexivity|].
      rewrite !filter_run_irrel.
      rewrite (split_run_cons false (a ++ c :: b)), (split_run_cons false a).
      cbn [filter]. rewrite IH1, IH2.
      destruct (nonempty (hd [] (split_run false a))); reflexivity.
    + rewrite (split_run_cons false (a ++ c :: b)), (split_run_cons false a).
      cbn [hd tl]. rewrite IH1. split; [reflexivity | exact IH2].
Qed.

Lemma words_sep (a b : jsstring) (c : ascii) :
  is_ws c = true -> words (a ++ c :: b) = words a ++ words b.
Proof.
  intros Hc. destruct (@split_run_sep a b c Hc) as [H1 H2].
  rewrite (words_eq (a ++ c :: b)), (words_eq a). unfold split_ws.
  rewrite (split_run_cons false (a ++ c :: b)), (split_run_cons false a).
  cbn [filter]. rewrite H1, H2.
  destruct (nonempty (hd [] (split_run false a))); reflexivity.
Qed.

Lemma words_nil : words [] = [].
Proof. reflexivity. Qed.

(** The words of a joined list are the words of its members. *)
Lemma words_join_any (l : list jsstring) :
  words (join sp l) = flat_map words l.
Proof.
  induction l as [|x l IH]; [reflexivity|].
  destruct l as [|y l].
  - cbn [join flat_map]. now rewrite app_nil_r.
  - rewrite join_cons2. change (sp ++ join sp (y :: l)) with (" "%char :: join sp (y :: l)).
    rewrite words_sep by reflexivity. rewrite IH. reflexivity.
Qed.

(** Joining tokens with a space and splitting gives the tokens back. *)
Lemma split_run_join_tokens (l : list jsstring) (b : bool) :
  Forall token l -> l <> [] -> split_run b (join sp l) = l.
Proof.
  intros H. revert b. induction H as [|t l [Hn Hw] Hl IH]; intros b Hne; [congruence|].
  assert (T : t <> []) by (destruct t; [discriminate | discriminate]).
  destruct l as [|t' l'].
  - cbn [join]. rewrite <- (app_nil_r t) at 1.
    rewrite split_run_token by auto. cbn [split_run hd tl]. now rewrite app_nil_r.
  - rewrite join_cons2. rewrite split_run_token by auto.
    change (split_run false (sp ++ join sp (t' :: l')))
      with ([] :: split_run true (join sp (t' :: l'))).
    cbn [hd tl]. rewrite app_nil_r. f_equal. apply IH. discriminate.
Qed.

Lemma flat_map_map_in {A B C} (f : B -> list C) (g : A -> B) (l : list A) :
  flat_map f (map g l) = flat_map (fun x => f (g x)) l.
Proof. induction l as [|x l IH]; simpl; [|rewrite IH]; reflexivity. Qed.

Lemma map_flat_map {A B C} (f : B -> C) (g : A -> list B) (l : list A) :
  map f (flat_map g l) = flat_map (fun x => map f (g x)) l.
Proof. induction l as [|x l IH]; simpl; [|rewrite map_app, IH]; reflexivity. Qed.

End JsStringFacts.

(* ================================================================= *)
(** ** Facts about the controller *)

Module BVTooltipFacts.

Import BVTooltip JsStringFacts.

(** Projections of an assignment. *)
Ltac fields :=
  cbn [props dom prevents localPlacementTarget localContainer localBoundary
       activeTrigger hoverState localShow enabled _tip _hoverTimeout
       hoverTimeout dollar_hoverTimeout _hoverTimout _visibleInterval
       visibleInterval now timers next_timer describedby domListeners
       rootListeners vueListeners touchListeners hasParent emitted
       set_props set_dom set_prevents set_localPlacementTarget
       set_localContainer set_localBoundary set_activeTrigger set_hoverState
       set_localShow set_enabled set__tip set__hoverTimeout set_hoverTimeout
       set_dollar_hoverTimeout set__hoverTimout set__visibleInterval
       set_visibleInterval set_now set_timers set_next_timer set_describedby
       set_domListeners set_rootListeners set_vueListeners set_touchListeners
       set_hasParent set_emitted
       at_hover at_click at_focus at_manual tip_el tip_hiding
       tm_id tm_due tm_cb tm_every] in *.

(** Turns a chain of assignments on a record into the record itself. *)
Ltac norm :=
  cbv [props dom prevents localPlacementTarget localContainer localBoundary
       activeTrigger hoverState localShow enabled _tip _hoverTimeout
       hoverTimeout dollar_hoverTimeout _hoverTimout _visibleInterval
       visibleInterval now timers next_timer describedby domListeners
       rootListeners vueListeners touchListeners hasParent emitted
       set_props set_dom set_prevents set_localPlacementTarget
       set_localContainer set_localBoundary set_activeTrigger set_hoverState
       set_localShow set_enabled set__tip set__hoverTimeout set_hoverTimeout
       set_dollar_hoverTimeout set__hoverTimout set__visibleInterval
       set_visibleInterval set_now set_timers set_next_timer set_describedby
       set_domListeners set_rootListeners set_vueListeners set_touchListeners
       set_hasParent set_emitted
       at_hover at_click at_focus at_manual].


Lemma clearTimeout_as_set (h : handle) (s : State) :
  clearTimeout h s
  = set_timers
      (match h with
       | HTimer id => filter (fun t => negb (tm_id t =? id)) (timers s)
       | _ => timers s
       end) s.
Proof. destruct h; destruct s; reflexivity. Qed.

Lemma hide_inactive (f : bool) (s : State) :
  all_inactive (activeTrigger s) -> all_inactive (activeTrigger (hide f s)).
Proof.
  intros H. unfold hide.
  destruct (getTemplateElement s); [|assumption].
  destruct (localShow s); [|assumption]. simpl negb. cbv iota.
  unfold emitEvent. cbv iota beta.
  destruct (_ && _); [assumption|].
  fields. unfold clearActiveTriggers. fields. repeat split.
Qed.

Lemma hide_closed (f : bool) (s : State) :
  getTemplateElement s = None -> hide f s = s.
Proof. intros H. unfold hide. now rewrite H. Qed.

(** An open overlay whose hide notification is not cancelled is told to
    hide, and every trigger is released. *)
Lemma hide_open (f : bool) (s : State) (el : elem) :
  getTemplateElement s = Some el -> localShow s = true ->
  negb f && prevents s BvHide = false ->
  _tip (hide f s) = Some (mkTip (Some el) true)
  /\ hoverState (hide f s) = HoverNone
  /\ activeTrigger (hide f s) = mkActive false false false false.
Proof.
  intros T L P. unfold hide. rewrite T, L. simpl negb. cbv iota.
  unfold emitEvent, buildEvent. fields. cbn [bv_cancelable bv_type].
  rewrite P. unfold hideTemplate, clearActiveTriggers. fields.
  unfold getTemplateElement in T. destruct (_tip s) as [t|]; [|discriminate].
  fields. rewrite T. auto.
Qed.

(** *** The normalisers *)

Lemma toInt32_small (d : Z) :
  (0 <= d <= 2147483647)%Z -> toInt32 (Int d) = d.
Proof.
  intros H. unfold toInt32. rewrite Z.mod_small; lia.
Qed.

Lemma timeout_ms_small (d : Z) :
  (0 <= d <= 2147483647)%Z -> timeout_ms (Int d) = Z.to_nat d.
Proof. intros H. unfold timeout_ms. now rewrite toInt32_small. Qed.

Lemma double_of_Z_cases (z : Z) :
  (exists w, double_of_Z z = Int w)
  \/ double_of_Z z = PosInf \/ double_of_Z z = NegInf.
Proof.
  unfold double_of_Z. cbv zeta.
  destruct (Z.abs z <? 2 ^ 53)%Z; [eauto|].
  match goal with |- context [(2 ^ 1024 <=? ?v)%Z] =>
    destruct (2 ^ 1024 <=? v)%Z end;
    destruct (z <? 0)%Z; eauto.
Qed.

Lemma parseInt_cases (s : jsstring) :
  parseInt s = NaN \/ (exists z, parseInt s = Int z)
  \/ parseInt s = PosInf \/ parseInt s = NegInf.
Proof.
  unfold parseInt.
  destruct (trimStart s) as [|c r]; simpl; [now left|].
  destruct (Ascii.eqb c "-"); [|destruct (Ascii.eqb c "+")];
    match goal with |- context [digits_prefix ?x] => destruct (digits_prefix x) end;
    solve [now left | right; apply double_of_Z_cases].
Qed.

(** A string delay is parsed and clamped: the result is the same for
    both fields, a non-negative integer or, for a digit string beyond
    the range of a Number, [Infinity]. *)
Lemma computedDelay_string (s : State) (txt : jsstring) :
  delay (props s) = VStr txt ->
  exists n, computedDelay s = mkDelay n n
    /\ (nonneg_integer n \/ n = PosInf).
Proof.
  intros H. unfold computedDelay. rewrite H. cbv zeta.
  eexists. split; [reflexivity|].
  destruct (parseInt_cases txt) as [-> | [[z ->] | [-> | ->]]].
  - left. exists 0%Z. split; [reflexivity | lia].
  - left. unfold num_or_zero. simpl. destruct (z =? 0)%Z; simpl.
    + exists 0%Z. split; [reflexivity | lia].
    + exists (Z.max z 0). split; [reflexivity | lia].
  - now right.
  - left. exists 0%Z. split; [reflexivity | lia].
Qed.

Lemma computedDelay_number (s : State) (n : number) :
  delay (props s) = VNum n -> computedDelay s = mkDelay n n.
Proof. intros H. unfold computedDelay. now rewrite H. Qed.

(** C6: [computedDelay] does not clamp a number.  For the delay [-5] it
    returns [{show: -5, hide: -5}], for the record [{show: -3}] it
    returns [{show: -3, hide: 0}] and for [NaN] it returns
    [{show: NaN, hide: NaN}]: none of these is a pair of non-negative
    integers, although the string ["-5"] is clamped to [{0, 0}]. *)
Theorem computedDelay_negative_number :
  let with_delay dl :=
    Example.controller (Example.config (VStr (str "hover")) dl) Example.nobody in
  computedDelay (with_delay (VNum (Int (-5)))) = mkDelay (Int (-5)) (Int (-5))
  /\ ~ nonneg_integer (delay_show (computedDelay (with_delay (VNum (Int (-5))))))
  /\ computedDelay (with_delay (VObj [("show"%string, VNum (Int (-3)))]))
     = mkDelay (Int (-3)) (Int 0)
  /\ computedDelay (with_delay (VNum NaN)) = mkDelay NaN NaN
  /\ computedDelay (with_delay (VStr (str "-5"))) = mkDelay (Int 0) (Int 0).
Proof.
  cbv zeta. split; [reflexivity|]. split; [|repeat split].
  intros (z & E & Hz). vm_compute in E. injection E as <-. lia.
Qed.

Lemma computedTriggers_string (s : State) (x : jsstring) :
  triggers (props s) = VStr x ->
  computedTriggers s = split_ws (toLowerCase x).
Proof.
  intros H. unfold computedTriggers. rewrite H. simpl.
  destruct x; reflexivity.
Qed.

(** C7 (amended): [computedTriggers] drops the falsy entries of the
    configuration (a string counts as a one-entry list), joins the rest
    with a space, lower-cases and splits on runs of whitespace.  So the
    non-empty tokens of the result are the words of the entries that
    were kept, lower-cased, in their order and as often as they occur;
    when every kept entry is a single word and there is one at least,
    the result is exactly those entries lower-cased; when no entry is
    kept it is the one empty token.  The result is never empty; no
    token contains whitespace or a capital; every token other than the
    first and the last is non-empty; for a string configuration the
    result is exactly the split of the lower-cased string. *)
Theorem computedTriggers_tokens (s : State) :
  let r := computedTriggers s in
  let kept := filter truthy (concat (triggers (props s))) in
  r <> []
  /\ Forall ws_free r
  /\ Forall lower_case r
  /\ Forall (fun t => nonempty t = true) (interior r)
  /\ (forall x, triggers (props s) = VStr x -> r = split_ws (toLowerCase x))
  /\ r = split_ws (toLowerCase (join sp (map join_entry kept)))
  /\ filter nonempty r
     = flat_map (fun v => map toLowerCase (words (join_entry v))) kept
  /\ (kept <> [] -> Forall token (map join_entry kept) ->
      r = map (fun v => toLowerCase (join_entry v)) kept)
  /\ (kept = [] -> r = [[]]).
Proof.
  cbv zeta. repeat split.
  - apply split_run_not_nil.
  - apply split_run_ws_free.
  - apply split_run_Forall, toLowerCase_lower_case.
  - apply split_ws_interior.
  - apply computedTriggers_string.
  - unfold computedTriggers. fold (words (toLowerCase
      (join sp (map join_entry (filter truthy (concat (triggers (props s)))))))).
    rewrite words_toLowerCase, words_join_any, map_flat_map, flat_map_map_in.
    reflexivity.
  - intros Hk Ht. unfold computedTriggers, split_ws.
    rewrite toLowerCase_join, split_run_join_tokens.
    + apply map_map.
    + rewrite Forall_map.
      eapply Forall_impl; [|exact Ht]. intros v. apply token_toLowerCase.
    + destruct (filter truthy (concat (triggers (props s)))); [congruence | discriminate].
  - intros Hk. unfold computedTriggers. rewrite Hk. reflexivity.
Qed.

Lemma computedTriggers_tokens_witness :
  let with_triggers tr :=
    Example.controller (Example.config tr (VNum (Int 0))) Example.nobody in
  computedTriggers
    (with_triggers (VArr [VStr (str "Click"); VNull; VStr (str "click");
                          VStr []; VNum (Int 0); VStr (str "FOCUS")]))
  = [str "click"; str "click"; str "focus"]
  /\ filter nonempty
       (computedTriggers
          (with_triggers (VArr [VStr (str " Hover  CLICK"); VBool false;
                                VStr (str "hover ")])))
     = [str "hover"; str "click"; str "hover"]
  /\ computedTriggers Example.hovering = [str "hover"; str "focus"].
Proof.
  cbv zeta. split; [|split].
  - destruct (computedTriggers_tokens
                (Example.controller
                   (Example.config
                      (VArr [VStr (str "Click"); VNull; VStr (str "click");
                             VStr []; VNum (Int 0); VStr (str "FOCUS")])
                      (VNum (Int 0))) Example.nobody))
      as (_ & _ & _ & _ & _ & _ & _ & H & _).
    rewrite H; [reflexivity | discriminate |].
    repeat (constructor; try reflexivity).
  - destruct (computedTriggers_tokens
                (Example.controller
                   (Example.config
                      (VArr [VStr (str " Hover  CLICK"); VBool false;
                             VStr (str "hover ")])
                      (VNum (Int 0))) Example.nobody))
      as (_ & _ & _ & _ & _ & _ & H & _).
    rewrite H. reflexivity.
  - destruct (computedTriggers_tokens Example.hovering) as (_ & _ & _ & _ & H & _).
    rewrite (H (str "hover focus")); reflexivity.
Defined.

(** C7 (as stated) fails: ["click click"] yields the token [click]
    twice, and [" click"] yields an empty first token. *)
Lemma computedTriggers_not_canonical :
  let dup := Example.controller (Example.config (VStr (str "click click")) (VNum (Int 0))) Example.nobody in
  let lead := Example.controller (Example.config (VStr (str " click")) (VNum (Int 0))) Example.nobody in
  computedTriggers dup = [str "click"; str "click"]
  /\ ~ NoDup (computedTriggers dup)
  /\ computedTriggers lead = [[]; str "click"]
  /\ In [] (computedTriggers lead).
Proof.
  cbv zeta. split; [reflexivity|]. split.
  - intros H. vm_compute in H. inversion H as [|x l Hin _]; subst.
    apply Hin. now left.
  - split; [reflexivity | now left].
Qed.


(** *** Resolution of the host element *)

Lemma getTarget_string (s : State) (e : elem) :
  getTarget s = Some e ->
  exists id, target_ref s = VStr id /\ getById (dom s) (strip_hash id) = Some e.
Proof.
  unfold getTarget. destruct (target_ref s); try discriminate.
  destruct (getById (dom s) (strip_hash s0)) eqn:E; [|discriminate].
  intros [= ->]. eauto.
Qed.

Lemma getTarget_not_string (s : State) :
  isString (target_ref s) = false -> getTarget s = None.
Proof.
  unfold getTarget. destruct (target_ref s); try reflexivity. discriminate.
Qed.

(** C10: when the configured target, or the [$el] of the component it
    refers to, is not a string, [getTarget] returns [null], and
    [show], [listen] and [handleEvent] leave the instance as it is;
    whenever [getTarget] returns an element, the target was a string
    and the element is the one with that id. *)
Theorem getTarget_only_string_ids (s : State) :
  (isString (target_ref s) = false ->
     getTarget s = None
     /\ show s = Ok tt s
     /\ listen s = s
     /\ (forall evt, handleEvent evt s = Ok tt s))
  /\ (forall e, getTarget s = Some e ->
        exists id, target_ref s = VStr id
                   /\ getById (dom s) (strip_hash id) = Some e).
Proof.
  split.
  - intros H. pose proof (getTarget_not_string s H) as T.
    unfold show, listen, handleEvent. rewrite T. auto.
  - apply getTarget_string.
Qed.

Lemma getTarget_only_string_ids_witness :
  let by_element :=
    instantiate (mkProps (VStr (str "click")) (VNum (Int 0)) (VElem Example.host)
                   VNull VNull false Tooltip 3) Example.page Example.nobody true in
  let by_component :=
    instantiate (mkProps (VStr (str "click")) (VNum (Int 0))
                   (VObj [("$el"%string, VElem Example.host)])
                   VNull VNull false Tooltip 4) Example.page Example.nobody true in
  (getTarget by_element = None /\ show by_element = Ok tt by_element)
  /\ (getTarget by_component = None /\ listen by_component = by_component)
  /\ (exists id, target_ref Example.hovering = VStr id).
Proof.
  cbv zeta. split; [|split].
  - split; apply getTarget_only_string_ids; reflexivity.
  - split; apply getTarget_only_string_ids; reflexivity.
  - destruct (getTarget_only_string_ids Example.hovering) as [_ H].
    destruct (H Example.host) as (id & E & _); [reflexivity|]. now exists id.
Defined.

(** *** ARIA bookkeeping *)

Lemma templateTypeName_token (s : State) :
  ws_free (templateTypeName s) /\ templateTypeName s <> [].
Proof.
  unfold templateTypeName. destruct (templateType (props s));
    (split; [repeat constructor | discriminate]).
Qed.

Lemma computedId_token (s : State) : token (computedId s).
Proof.
  unfold computedId. split; [reflexivity|].
  unfold ws_free. rewrite !Forall_app. repeat split.
  - repeat constructor.
  - apply templateTypeName_token.
  - repeat constructor.
  - apply of_nat_ws_free.
  - repeat constructor.
Qed.

Lemma without_app (id : jsstring) (a b : list jsstring) :
  without id (a ++ b) = without id a ++ without id b.
Proof. apply filter_app. Qed.

Lemma without_empties (id : jsstring) (e : list jsstring) :
  Forall (fun t => t = []) e -> Forall (fun t => t = []) (without id e).
Proof.
  intros H. apply Forall_forall. intros t Ht.
  apply filter_In in Ht as [Ht _]. rewrite Forall_forall in H. auto.
Qed.

Lemma without_tokens (id : jsstring) (m : list jsstring) :
  Forall token m -> Forall token (without id m).
Proof.
  intros H. apply Forall_forall. intros t Ht.
  apply filter_In in Ht as [Ht _]. rewrite Forall_forall in H. auto.
Qed.

Lemma without_absent (id : jsstring) (m : list jsstring) :
  ~ In id m -> without id m = m.
Proof.
  induction m as [|x m IH]; intros H; simpl; [reflexivity|].
  destruct (JsString.eqb x id) eqn:E.
  - apply eqb_eq in E. subst. exfalso. apply H. now left.
  - simpl. rewrite IH; [reflexivity|]. intros Hin. apply H. now right.
Qed.

Lemma join_tokens_nil (m : list jsstring) :
  Forall token m -> isEmpty (join sp m) = true -> m = [].
Proof.
  intros H E. destruct m as [|t m]; [reflexivity|].
  destruct (@join_tokens_head (t :: m)) as (c & r & J & _);
    [assumption | discriminate |].
  rewrite J in E. discriminate.
Qed.

(** What [addAriaDescribedby] writes lists the previous ids and then the
    controller's own. *)
Lemma words_describedby_add (id : jsstring) (a : option jsstring) :
  token id -> words (describedby_add id a) = ids_of a ++ [id].
Proof.
  intros [Hne Hws]. unfold describedby_add, ids_of.
  rewrite words_trim, words_join.
  - rewrite filter_app. simpl. rewrite Hne. reflexivity.
  - apply Forall_app. split; [apply split_run_ws_free | now constructor].
Qed.

(** What [removeAriaDescribedby] computes is the single-spaced list of
    the other ids. *)
Lemma describedby_remove_spec (id : jsstring) (a : option jsstring) :
  describedby_remove id a = join sp (without id (ids_of a)).
Proof.
  unfold describedby_remove, ids_of.
  destruct (split_ws_words (attr_or_empty a)) as (e1 & e2 & E & H1 & H2).
  fold (without id (split_ws (attr_or_empty a))).
  rewrite E, !without_app.
  apply trim_join_shape; auto using without_empties, without_tokens, words_tokens.
Qed.

Lemma getAttr_setAttr (s : State) (e : elem) (v : jsstring) :
  describedby (setAttr (Some e) v s) e = Some v.
Proof. simpl. now rewrite Nat.eqb_refl. Qed.

(** C9 (amended): on a resolved host, [addAriaDescribedby] leaves an
    attribute that lists the ids already present, in order, followed by
    the controller's id; a following [removeAriaDescribedby] leaves the
    ids that were present other than the controller's, separated by
    single spaces, or no attribute when there is none; no other element
    is touched; and the attribute is back to exactly its previous value
    when that value was absent, or was a single-spaced list of ids
    without the controller's id. *)
Theorem aria_describedby_roundtrip (s : State) (host : elem) :
  getTarget s = Some host ->
  let id := computedId s in
  let pre := describedby s host in
  let shown := addAriaDescribedby s in
  let hidden := removeAriaDescribedby shown in
  (exists v, describedby shown host = Some v /\ words v = ids_of pre ++ [id])
  /\ describedby hidden host = attr_of (without id (ids_of pre))
  /\ (forall e, e <> host ->
        describedby shown e = describedby s e
        /\ describedby hidden e = describedby s e)
  /\ (pre = attr_of (ids_of pre) -> ~ In id (ids_of pre) ->
        describedby hidden host = pre).
Proof.
  intros T. cbv zeta.
  assert (Shown : addAriaDescribedby s
                  = setAttr (Some host)
                      (describedby_add (computedId s) (describedby s host)) s).
  { unfold addAriaDescribedby. rewrite T. reflexivity. }
  assert (Hid : describedby (removeAriaDescribedby (addAriaDescribedby s)) host
                = attr_of (without (computedId s) (ids_of (describedby s host)))).
  { unfold removeAriaDescribedby.
    assert (T' : getTarget (addAriaDescribedby s) = Some host)
      by (rewrite Shown; exact T).
    assert (I' : computedId (addAriaDescribedby s) = computedId s)
      by (rewrite Shown; reflexivity).
    assert (A : describedby (addAriaDescribedby s) host
                = Some (describedby_add (computedId s) (describedby s host)))
      by (rewrite Shown; apply getAttr_setAttr).
    rewrite T', I'. unfold getAttr. rewrite A.
    rewrite describedby_remove_spec. unfold ids_of at 1 2. simpl attr_or_empty.
    rewrite words_describedby_add by apply computedId_token.
    rewrite without_app. simpl. rewrite eqb_refl. simpl. rewrite app_nil_r.
    set (L := without (computedId s) (ids_of (describedby s host))).
    assert (HL : Forall token L) by apply without_tokens, words_tokens.
    destruct (isEmpty (join sp L)) eqn:E; simpl.
    - rewrite (join_tokens_nil HL E). simpl. now rewrite Nat.eqb_refl.
    - rewrite Nat.eqb_refl. destruct L; [discriminate | reflexivity]. }
  repeat split.
  - exists (describedby_add (computedId s) (describedby s host)). split.
    + rewrite Shown. apply getAttr_setAttr.
    + apply words_describedby_add, computedId_token.
  - exact Hid.
  - rewrite Shown. simpl. apply Nat.eqb_neq in H. now rewrite H.
  - unfold removeAriaDescribedby.
    assert (T' : getTarget (addAriaDescribedby s) = Some host)
      by (rewrite Shown; exact T).
    rewrite T'. apply Nat.eqb_neq in H.
    destruct (negb _); simpl; rewrite H; rewrite Shown; simpl; now rewrite H.
  - intros Hpre Hin. rewrite Hid, without_absent by assumption. now symmetry.
Qed.


Lemma aria_describedby_roundtrip_witness :
  let s := set_describedby (fun _ => Some (str "foo bar")) Example.hovering in
  describedby (removeAriaDescribedby (addAriaDescribedby s)) Example.host
  = Some (str "foo bar").
Proof.
  cbv zeta.
  destruct (@aria_describedby_roundtrip
              (set_describedby (fun _ => Some (str "foo bar")) Example.hovering)
              Example.host eq_refl) as (_ & _ & _ & H).
  apply H.
  - reflexivity.
  - vm_compute. intros [H1 | [H1 | []]]; discriminate.
Defined.

(** C9 (as stated) fails: the value ["foo  bar"], with two spaces, comes
    back as ["foo bar"], and an empty attribute comes back absent. *)
Lemma aria_describedby_not_restored :
  let s := set_describedby (fun _ => Some (str "foo  bar")) Example.hovering in
  let t := set_describedby (fun _ => Some []) Example.hovering in
  getTarget s = Some Example.host
  /\ describedby s Example.host = Some (str "foo  bar")
  /\ describedby (removeAriaDescribedby (addAriaDescribedby s)) Example.host
     = Some (str "foo bar")
  /\ describedby (removeAriaDescribedby (addAriaDescribedby s)) Example.host
     <> describedby s Example.host
  /\ describedby t Example.host = Some []
  /\ describedby (removeAriaDescribedby (addAriaDescribedby t)) Example.host = None.
Proof.
  cbv zeta. repeat split; try reflexivity.
  vm_compute. discriminate.
Qed.

(** *** Show, hide and the timers: the defects *)

Lemma hide_keeps_hoverTimeout (f : bool) (s : State) :
  hoverTimeout (hide f s) = hoverTimeout s.
Proof.
  unfold hide. destruct (getTemplateElement s); [|reflexivity].
  destruct (localShow s); [|reflexivity]. cbn [negb]. cbv iota.
  unfold emitEvent. cbv iota beta. destruct (_ && _); [reflexivity|].
  unfold hideTemplate, clearActiveTriggers. fields.
  destruct (_tip s); reflexivity.
Qed.

(** [leave] never assigns [hoverTimeout]: the handle of the timer it
    schedules goes to [$hoverTimeout]. *)
Lemma leave_keeps_hoverTimeout (evt : option Event) (s : State) :
  hoverTimeout (leave evt s) = hoverTimeout s.
Proof.
  unfold leave.
  match goal with
  | |- context [isWithActiveTrigger ?x] => set (X := x)
  end.
  assert (HX : hoverTimeout X = hoverTimeout s).
  { subst X. destruct evt as [e|]; [|reflexivity].
    destruct (evtype_eqb (ev_type e) EvFocusout); cbn [andb]; fields.
    - match goal with |- context [if ?c then _ else _] => destruct c end;
        reflexivity.
    - reflexivity. }
  destruct (isWithActiveTrigger X); [exact HX|].
  rewrite clearTimeout_as_set.
  destruct (negb _).
  - rewrite hide_keeps_hoverTimeout. fields. exact HX.
  - unfold setTimeout. fields. exact HX.
Qed.

(** C1: after mouseenter at 0, mouseleave at 10 and mouseenter at 20,
    with delay {show: 100, hide: 50}, two delay timers are pending at
    once: the hide timer of the leave, whose handle went to
    [$hoverTimeout], and the show timer of the second enter, whose
    handle is in [hoverTimeout], the only property that is ever
    cleared. *)
Theorem hide_timer_survives_enter :
  delay_timers Example.rapid_hover
  = [mkTimer 2 60 CbHide None; mkTimer 3 120 CbShow None]
  /\ hoverTimeout Example.rapid_hover = HTimer 3
  /\ dollar_hoverTimeout Example.rapid_hover = HTimer 2
  /\ List.length (delay_timers Example.rapid_hover) = 2.
Proof. vm_compute. auto. Qed.

(** C3: when the host passes the guards of [show] and a listener
    prevents the default of the [show] notification, [show] raises a
    TypeError, because [this.destroyTip] is not a method of the
    component; an overlay instance that existed is still there. *)
Theorem show_cancelled_raises (s : State) (host : elem) :
  getTarget s = Some host ->
  inBody (dom s) host = true ->
  isVisible (dom s) host = true ->
  dropdownOpen s = false ->
  prevents s BvShow = true ->
  show s = Throw (TypeError "this.destroyTip is not a function")
             (snd (emitEvent (buildEvent BvShow true s) s))
  /\ _tip (state_of (show s)) = _tip s.
Proof.
  intros T B V D P. unfold show. rewrite T, B, V, D. simpl.
  rewrite P. simpl. auto.
Qed.

Lemma show_cancelled_raises_witness :
  let s := Example.controller
             (Example.config (VStr (str "click")) (VNum (Int 0))) Example.cancel_show in
  raised (show s) = true.
Proof.
  cbv zeta.
  destruct (@show_cancelled_raises
              (Example.controller
                 (Example.config (VStr (str "click")) (VNum (Int 0))) Example.cancel_show)
              Example.host eq_refl eq_refl eq_refl eq_refl eq_refl) as [H _].
  rewrite H. reflexivity.
Defined.

(** Whatever the state, switching the poll on leaves [$_visibleInterval]
    at [null] and an interval pending; switching it off then clears
    nothing. *)
Lemma visibleCheck_on (s : State) :
  _visibleInterval (visibleCheck true s) = HNull
  /\ visibleInterval (visibleCheck true s) = HTimer (next_timer s)
  /\ In (mkTimer (next_timer s) (now s + 100) CbVisible (Some 100))
        (timers (visibleCheck true s)).
Proof.
  unfold visibleCheck, clearInterval. rewrite clearTimeout_as_set.
  unfold setInterval. fields. repeat split.
  apply in_or_app. right. now left.
Qed.

Lemma visibleCheck_off (s : State) :
  _visibleInterval s = HNull -> timers (visibleCheck false s) = timers s.
Proof.
  intros H. unfold visibleCheck, clearInterval. rewrite H. reflexivity.
Qed.

Lemma destroyTip_undefined : ~ In "destroyTip"%string method_names.
Proof.
  intros H. unfold method_names in H. simpl in H.
  repeat (destruct H as [H | H]; [discriminate|]). exact H.
Qed.

(** C4: the interval started by [visibleCheck(true)] is kept in
    [visibleInterval], while [visibleCheck] clears [$_visibleInterval];
    so the poll is still pending after the template's [hide], after
    [forceHide], and after the overlay has closed and its instance is
    gone, and it keeps re-arming itself from then on. *)
Theorem visible_interval_outlives_overlay :
  pending CbVisible Example.open_tooltip = [mkTimer 1 100 CbVisible (Some 100)]
  /\ visibleInterval Example.open_tooltip = HTimer 1
  /\ _visibleInterval Example.open_tooltip = HNull
  /\ pending CbVisible (onTemplateHide Example.open_tooltip)
     = [mkTimer 1 100 CbVisible (Some 100)]
  /\ pending CbVisible (forceHide Example.open_tooltip)
     = [mkTimer 1 100 CbVisible (Some 100)]
  /\ localShow Example.closed_again = false
  /\ _tip Example.closed_again = None
  /\ pending CbVisible Example.closed_again
     = [mkTimer 1 100 CbVisible (Some 100)]
  /\ pending CbVisible (advance 20 1000 Example.closed_again)
     = [mkTimer 1 1100 CbVisible (Some 100)].
Proof. vm_compute. repeat split. Qed.

(** C5: the teardown is registered under the name [beforDestroy], so
    destroying the component runs nothing and leaves listeners, timers
    and overlay as they are; run directly, the teardown raises a
    TypeError at [this.destroyTip()], with the overlay instance still
    present and the visibility poll still pending. *)
Theorem destroy_leaves_everything :
  find_hook "beforeDestroy" lifecycle_options = None
  /\ destroy Example.open_tooltip = Ok tt Example.open_tooltip
  /\ domListeners Example.open_tooltip <> []
  /\ rootListeners Example.open_tooltip <> []
  /\ raised (beforDestroy Example.open_tooltip) = true
  /\ _tip (state_of (beforDestroy Example.open_tooltip))
     = Some (mkTip (Some Example.tipEl) false)
  /\ localShow (state_of (beforDestroy Example.open_tooltip)) = true
  /\ pending CbVisible (state_of (beforDestroy Example.open_tooltip))
     = [mkTimer 1 100 CbVisible (Some 100)].
Proof.
  split; [reflexivity|]. split; [reflexivity|].
  vm_compute. repeat split; discriminate.
Qed.


(** *** [listen] only registers listeners *)

Lemma listeners_only_refl (s : State) : listeners_only s s.
Proof. destruct s; reflexivity. Qed.

Lemma listeners_only_trans (a b c : State) :
  listeners_only a b -> listeners_only b c -> listeners_only a c.
Proof.
  unfold listeners_only. intros H1 H2. rewrite H2 at 1. rewrite H1 at 1.
  reflexivity.
Qed.

Lemma eventOn_listeners_only (el : elem) (ty : EventType) (s : State) :
  listeners_only s (eventOn el ty s).
Proof.
  unfold eventOn. destruct (existsb _ _).
  - apply listeners_only_refl.
  - destruct s; reflexivity.
Qed.

Lemma root_on_listeners_only (n : jsstring) (h : Handler) (s : State) :
  listeners_only s (root_on n h s).
Proof. destruct s; reflexivity. Qed.

Lemma fold_listeners_only {A} (f : State -> A -> State) (l : list A) :
  (forall s a, listeners_only s (f s a)) ->
  forall s, listeners_only s (fold_left f l s).
Proof.
  intros Hf. induction l as [|a l IH]; intros s; simpl.
  - apply listeners_only_refl.
  - eapply listeners_only_trans; [apply Hf | apply IH].
Qed.

Lemma listen_listeners_only (s : State) : listeners_only s (listen s).
Proof.
  unfold listen. destruct (getTarget s); [|apply listeners_only_refl].
  eapply listeners_only_trans.
  - unfold setRootListener. cbn [root_method].
    do 3 (eapply listeners_only_trans; [|apply root_on_listeners_only]).
    apply root_on_listeners_only.
  - apply fold_listeners_only. intros s' a.
    destruct (JsString.eqb a (str "click")); [apply eventOn_listeners_only|].
    destruct (JsString.eqb a (str "focus")).
    { eapply listeners_only_trans; apply eventOn_listeners_only. }
    destruct (JsString.eqb a (str "blur")); [apply eventOn_listeners_only|].
    destruct (JsString.eqb a (str "hover")).
    { eapply listeners_only_trans; apply eventOn_listeners_only. }
    apply listeners_only_refl.
Qed.

(** The instance that [created] leaves behind is at rest. *)
Lemma created_fresh (p : Props) (d : Dom) (pv : BvType -> bool) (hp : bool) :
  exists dl rl,
    created (instantiate p d pv hp)
    = mkState p d pv None None (VStr (str "scrollParent"))
        (mkActive false false false false) HoverNone false (negb (disabled p))
        None HNull HUndefined HUndefined HUndefined HNull HUndefined
        0 [] 1 (fun _ => None) dl rl [] [] hp [].
Proof.
  unfold created.
  match goal with |- context [listen ?b] => pose proof (listen_listeners_only b) as H;
    exists (domListeners (listen b)), (rootListeners (listen b)) end.
  unfold listeners_only in H. rewrite H at 1. reflexivity.
Qed.

Lemma created_idle (p : Props) (d : Dom) (pv : BvType -> bool) (hp : bool) :
  idle (created (instantiate p d pv hp)).
Proof.
  destruct (created_fresh p d pv hp) as (dl & rl & ->). repeat split.
Qed.


(** *** The passage of time *)

Lemma earliest_from (l : list Timer) (acc : option Timer) (tm : Timer) :
  fold_left
    (fun best t =>
       match best with
       | None => Some t
       | Some b => if earlier b t then Some b else Some t
       end) l acc = Some tm ->
  In tm l \/ acc = Some tm.
Proof.
  revert acc; induction l as [|x l IH]; intros acc H; simpl in H; [now right|].
  apply IH in H as [H | H]; [left; now right|].
  destruct acc as [b|].
  - destruct (earlier b x); [now right | left; left; congruence].
  - left; left; congruence.
Qed.

Lemma next_due_In (t : nat) (s : State) (tm : Timer) :
  next_due t s = Some tm -> In tm (timers s) /\ tm_due tm <= t.
Proof.
  unfold next_due, earliest. destruct (fold_left _ _ _) as [b|] eqn:E; [|discriminate].
  destruct (tm_due b <=? t) eqn:L; [|discriminate]. intros [= <-].
  apply earliest_from in E as [E | E]; [|discriminate].
  split; [assumption | now apply Nat.leb_le].
Qed.

Lemma next_due_later (t : nat) (s : State) :
  Forall (fun tm => t < tm_due tm) (timers s) -> next_due t s = None.
Proof.
  intros H. destruct (next_due t s) as [tm|] eqn:E; [|reflexivity].
  apply next_due_In in E as [Hin Hle]. rewrite Forall_forall in H.
  apply H in Hin. lia.
Qed.

(** Before the first timer is due, time passes and nothing else happens. *)
Lemma advance_early (fuel t : nat) (s : State) :
  Forall (fun tm => t < tm_due tm) (timers s) ->
  advance fuel t s = s \/ advance fuel t s = set_now (Nat.max (now s) t) s.
Proof.
  intros H. destruct fuel as [|fuel]; simpl; [now left|].
  rewrite next_due_later by assumption. now right.
Qed.

Lemma fire_no_show (tm : Timer) (s : State) :
  no_show s -> In tm (timers s) -> no_show (fire tm s).
Proof.
  intros [[L Tip] F] Hin.
  assert (Cb : tm_cb tm <> CbShow) by (rewrite Forall_forall in F; auto).
  unfold fire.
  match goal with |- no_show (state_of (run_callback _ ?x)) => set (X := x) end.
  assert (HX : no_show X).
  { subst X. destruct (tm_every tm); (split; [split; assumption|]); fields.
    - apply Forall_app. split.
      + apply Forall_forall. intros x Hx. apply filter_In in Hx as [Hx _].
        rewrite Forall_forall in F. auto.
      + constructor; [assumption | constructor].
    - apply Forall_forall. intros x Hx. apply filter_In in Hx as [Hx _].
      rewrite Forall_forall in F. auto. }
  assert (TX : getTemplateElement X = None).
  { unfold getTemplateElement. destruct HX as [[_ ->] _]. reflexivity. }
  unfold run_callback. destruct (tm_cb tm); [contradiction| |].
  - destruct (hover_eqb _ _); [rewrite hide_closed by assumption|]; exact HX.
  - rewrite TX. exact HX.
Qed.

Lemma set_now_no_show (n : nat) (s : State) : no_show s -> no_show (set_now n s).
Proof. intros H. exact H. Qed.

Lemma advance_no_show (fuel t : nat) (s : State) :
  no_show s -> no_show (advance fuel t s).
Proof.
  revert s; induction fuel as [|fuel IH]; intros s H; simpl; [assumption|].
  destruct (next_due t s) as [tm|] eqn:E.
  - apply IH, fire_no_show; [assumption | now apply next_due_In in E].
  - now apply set_now_no_show.
Qed.

Lemma no_show_pending (s : State) : no_show s -> pending CbShow s = [].
Proof.
  intros [_ F]. unfold pending. induction F as [|x l Hx _ IH]; [reflexivity|].
  simpl. destruct (tm_cb x); [contradiction | exact IH | exact IH].
Qed.

(** Every delay-timer callback looks at [hoverState] first. *)
Lemma run_callback_stale (s : State) :
  (hoverState s <> HoverIn -> run_callback CbShow s = Ok tt s)
  /\ (hoverState s <> HoverOut -> run_callback CbHide s = Ok tt s).
Proof.
  unfold run_callback. split; intros H; destruct (hoverState s); simpl;
    try reflexivity; contradiction.
Qed.


(** C2: with triggers "hover focus" and delay {show: 100, hide: 50}, a
    mouseenter at time 0 schedules the show for time 100 and no overlay
    exists before that; a mouseleave that arrives while the show timer
    is pending cancels it and schedules a hide, after which no overlay
    ever appears; and each delay-timer callback does nothing unless
    [hoverState] still has the value it was scheduled for. *)
Theorem hover_delay_scenario (p : Props) (d : Dom) (pv : BvType -> bool)
    (hp : bool) (host : elem) (entering leaving : Event) :
  triggers p = VStr (str "hover focus") ->
  delay p = Example.delay_100_50 ->
  ev_type entering = EvMouseenter ->
  ev_type leaving = EvMouseleave ->
  let s0 := created (instantiate p d pv hp) in
  listening s0 host ->
  let s1 := state_of (handleEvent entering s0) in
  (timers s1 = [mkTimer 1 100 CbShow None]
   /\ forall fuel t, t < 100 -> closed (advance fuel t s1))
  /\ (forall fuel tl, tl < 100 ->
        let s2 := state_of (handleEvent leaving (advance (S fuel) tl s1)) in
        timers s2 = [mkTimer 2 (tl + 50) CbHide None]
        /\ forall fuel' t,
             closed (advance fuel' t s2)
             /\ pending CbShow (advance fuel' t s2) = [])
  /\ (forall s,
        (hoverState s <> HoverIn -> run_callback CbShow s = Ok tt s)
        /\ (hoverState s <> HoverOut -> run_callback CbHide s = Ok tt s)).
Proof.
  intros Tr De Te Tl. cbv zeta.
  destruct (created_fresh p d pv hp) as (dl & rl & ->).
  intros (T & Dis & En & Dd). cbn [dom enabled] in Dis, En.
  assert (CT : forall x, props x = p ->
               computedTriggers x = [str "hover"; str "focus"]).
  { intros x E. unfold computedTriggers. rewrite E, Tr. reflexivity. }
  assert (CD : forall x, props x = p ->
               computedDelay x = mkDelay (Int 100) (Int 50)).
  { intros x E. unfold computedDelay. rewrite E, De. reflexivity. }
  assert (Hov : arrayIncludes [str "hover"; str "focus"] (str "hover") = true)
    by reflexivity.
  match type of T with getTarget ?x = _ => set (S0 := x) in * end.
  (* the mouseenter *)
  eassert (E1 : handleEvent entering S0 = Ok tt _).
  { unfold handleEvent. rewrite T, Dd, Te, (CT S0 eq_refl), Hov.
    subst S0. norm. rewrite Dis, En. cbn [negb orb].
    unfold enter. rewrite Te. cbn [evtype_eqb]. norm.
    cbn [orb hover_eqb clearTimeout]. norm.
    rewrite CD by reflexivity.
    cbn [delay_show num_truthy Z.eqb negb]. unfold setTimeout. norm.
    change (timeout_ms (Int 100)) with 100. cbn [app Nat.add].
    reflexivity. }
  rewrite E1. cbn [state_of]. clear E1.
  match goal with |- context [timers ?x = [mkTimer 1 100 CbShow None]] =>
    set (S1 := x) in * end.
  assert (C1 : closed S1) by (split; reflexivity).
  assert (F1 : forall t, t < 100 -> Forall (fun tm => t < tm_due tm) (timers S1)).
  { intros t Ht. constructor; [exact Ht | constructor]. }
  split; [split; [reflexivity|]|split].
  - intros fuel t Ht.
    destruct (@advance_early fuel t S1 (F1 t Ht)) as [-> | ->]; exact C1.
  - intros fuel tl Htl.
    (* the mouseleave, at time [tl] *)
    eassert (A1 : advance (S fuel) tl S1 = _).
    { cbn [advance]. rewrite next_due_later by auto. subst S1. norm.
      cbn [Nat.max]. reflexivity. }
    rewrite A1. clear A1.
    match goal with |- context [handleEvent leaving ?x] => set (S1' := x) in * end.
    eassert (E2 : handleEvent leaving S1' = Ok tt _).
    { unfold handleEvent.
      change (getTarget S1') with (getTarget S0).
      change (dropdownOpen S1') with (dropdownOpen S0).
      rewrite T, Dd, Tl, (CT S1' eq_refl), Hov.
      subst S1'. norm. rewrite Dis. cbn [negb orb].
      unfold leave. rewrite Tl. cbn [evtype_eqb andb]. norm.
      unfold isWithActiveTrigger. norm. cbn [orb clearTimeout]. norm.
      cbn [tm_id Nat.eqb negb filter].
      rewrite CD by reflexivity.
      cbn [delay_hide num_truthy Z.eqb negb]. unfold setTimeout. norm.
      change (timeout_ms (Int 50)) with 50. cbn [app].
      reflexivity. }
    rewrite E2. cbn [state_of]. clear E2. split; [reflexivity|].
    intros fuel' t.
    match goal with |- closed (advance _ _ ?x) /\ _ => set (S2 := x) end.
    assert (N : no_show (advance fuel' t S2)).
    { apply advance_no_show. split; [split; reflexivity|].
      constructor; [discriminate | constructor]. }
    split; [apply N | now apply no_show_pending].
  - apply run_callback_stale.
Qed.

Lemma hover_delay_scenario_witness :
  let s0 :=
    created
      (instantiate (Example.config (VStr (str "hover focus")) Example.delay_100_50)
         Example.page Example.nobody true) in
  let s1 := state_of (handleEvent Example.mouseenter s0) in
  let s2 := state_of (handleEvent Example.mouseleave (advance 1 60 s1)) in
  listening s0 Example.host
  /\ closed (advance 5 50 s1)
  /\ timers s2 = [mkTimer 2 110 CbHide None]
  /\ closed (advance 5 1000 s2).
Proof.
  cbv zeta.
  assert (L : listening
                (created
                   (instantiate
                      (Example.config (VStr (str "hover focus")) Example.delay_100_50)
                      Example.page Example.nobody true)) Example.host)
    by (repeat split).
  split; [exact L|].
  pose proof (@hover_delay_scenario
                (Example.config (VStr (str "hover focus")) Example.delay_100_50)
                Example.page Example.nobody true Example.host
                Example.mouseenter Example.mouseleave
                eq_refl eq_refl eq_refl eq_refl L) as H.
  cbv zeta in H. destruct H as ((_ & A) & B & _).
  split; [apply A; lia|].
  destruct (B 0 60 ltac:(lia)) as [B1 B2].
  split; [exact B1 | apply B2].
Defined.

End BVTooltipFacts.

(* ================================================================= *)
(** ** Further facts about the controller *)

Module BVTooltipMore.

Import BVTooltip JsStringFacts BVTooltipFacts.

(** *** The delay normaliser on well-formed input *)

Lemma is_digit_value (c : ascii) :
  is_digit c = true -> (0 <= Z.of_nat (nat_of_ascii c) - 48 <= 9)%Z.
Proof.
  unfold is_digit. intros H. apply andb_true_iff in H as [A B].
  apply Nat.leb_le in A, B. lia.
Qed.

Lemma digits_value_bound (ds : jsstring) (acc : Z) :
  Forall (fun c => is_digit c = true) ds -> (0 <= acc)%Z ->
  (0 <= fold_left (fun a c => 10 * a + (Z.of_nat (nat_of_ascii c) - 48)) ds acc
     < (acc + 1) * 10 ^ Z.of_nat (List.length ds))%Z.
Proof.
  intros F. revert acc. induction F as [|c ds Hc F IH]; intros acc Ha.
  - simpl. lia.
  - cbn [fold_left List.length]. apply is_digit_value in Hc.
    specialize (IH (10 * acc + (Z.of_nat (nat_of_ascii c) - 48))%Z ltac:(lia)).
    rewrite Nat2Z.inj_succ, Z.pow_succ_r by lia.
    assert (P : (0 < 10 ^ Z.of_nat (List.length ds))%Z) by (apply Z.pow_pos_nonneg; lia).
    nia.
Qed.

Lemma digits_prefix_digits (s : jsstring) :
  Forall (fun c => is_digit c = true) (digits_prefix s)
  /\ List.length (digits_prefix s) <= List.length s.
Proof.
  induction s as [|c s [IH1 IH2]]; simpl; [split; [constructor | lia]|].
  destruct (is_digit c) eqn:E; simpl; split; auto; lia.
Qed.

Lemma trimStart_length (s : jsstring) :
  List.length (trimStart s) <= List.length s.
Proof.
  induction s as [|c s IH]; simpl; [lia|].
  destruct (is_ws c); simpl; lia.
Qed.

Lemma double_of_Z_finite (z : Z) :
  (Z.abs z < 10 ^ 308)%Z -> exists w, double_of_Z z = Int w.
Proof.
  intros H. unfold double_of_Z. cbv zeta.
  destruct (Z.abs z <? 2 ^ 53)%Z eqn:S; [eauto|].
  apply Z.ltb_ge in S.
  set (a := Z.abs z) in *.
  set (e := (Z.log2 a - 52)%Z).
  assert (K : (2 ^ 53 < 10 ^ 308)%Z) by reflexivity.
  assert (Hb : (2 ^ Z.log2 a <= a < 2 ^ Z.succ (Z.log2 a))%Z)
    by (apply Z.log2_spec; lia).
  assert (B53 : (53 <= Z.log2 a)%Z) by (apply Z.log2_le_pow2; lia).
  assert (B1024 : (Z.log2 a < 1024)%Z).
  { apply Z.log2_lt_pow2; [lia|]. 
    assert ((10 ^ 308 < 2 ^ 1024)%Z) by reflexivity. lia. }
  assert (He : (1 <= e <= 971)%Z) by (unfold e; lia).
  assert (P : (0 < 2 ^ e)%Z) by (apply Z.pow_pos_nonneg; lia).
  assert (Pe : (2 ^ e <= 2 ^ 971)%Z) by (apply Z.pow_le_mono_r; lia).
  set (q := Z.shiftr a e).
  assert (Q : (q * 2 ^ e <= a)%Z).
  { unfold q. rewrite Z.shiftr_div_pow2 by lia.
    rewrite Z.mul_comm. apply Z.mul_div_le. exact P. }
  match goal with |- context [if ?c then (q + 1)%Z else q] => set (up := c) end.
  set (q' := if up then (q + 1)%Z else q).
  assert (Q' : (q' <= q + 1)%Z) by (unfold q'; destruct up; lia).
  assert (V : (Z.shiftl q' e < 2 ^ 1024)%Z).
  { rewrite Z.shiftl_mul_pow2 by lia.
    assert ((10 ^ 308 + 2 ^ 971 < 2 ^ 1024)%Z) by reflexivity.
    nia. }
  apply Z.leb_gt in V. rewrite V. eauto.
Qed.

Lemma parseInt_finite (s : jsstring) :
  List.length s <= 308 ->
  parseInt s = NaN \/ exists z, parseInt s = Int z.
Proof.
  intros L. unfold parseInt.
  pose proof (trimStart_length s) as T.
  assert (D : forall r, List.length r <= 308 ->
              forall sg : bool,
              match digits_prefix r with
              | [] => NaN
              | c :: ds => double_of_Z (if sg then - digits_value (c :: ds)
                                        else digits_value (c :: ds))
              end = NaN
              \/ exists z, match digits_prefix r with
                | [] => NaN
                | c :: ds => double_of_Z (if sg then - digits_value (c :: ds)
                                        else digits_value (c :: ds))
                end = Int z).
  { intros r Lr sg. destruct (digits_prefix_digits r) as [F Ln].
    destruct (digits_prefix r) as [|c ds] eqn:E; [now left|]. right.
    apply double_of_Z_finite.
    pose proof (@digits_value_bound (c :: ds) 0%Z F ltac:(lia)) as B.
    fold (digits_value (c :: ds)) in B.
    assert (M : (10 ^ Z.of_nat (List.length (c :: ds)) <= 10 ^ 308)%Z)
      by (apply Z.pow_le_mono_r; lia).
    destruct sg; lia. }
  destruct (trimStart s) as [|c r] eqn:E; [now left|].
  cbn [List.length] in T.
  destruct (Ascii.eqb c "-"); [|destruct (Ascii.eqb c "+")].
  - apply (D r ltac:(lia) true).
  - apply (D r ltac:(lia) false).
  - apply (D (c :: r) ltac:(cbn [List.length]; lia) false).
Qed.

(** X1: a delay whose numbers, at top level or in its [show] and [hide]
    fields, are non-negative integers is normalised to a pair of
    non-negative integers; so are a string of at most 308 characters and
    every value that is neither a number, a string nor a record.  A
    string of any length gives the same value for both fields, a
    non-negative integer or [Infinity], never [NaN] and never a negative
    number. *)
Theorem computedDelay_well_formed (s : State) :
  (delay_well_formed (delay (props s)) ->
   nonneg_integer (delay_show (computedDelay s))
   /\ nonneg_integer (delay_hide (computedDelay s)))
  /\ (forall txt, delay (props s) = VStr txt ->
      delay_show (computedDelay s) = delay_hide (computedDelay s)
      /\ (nonneg_integer (delay_show (computedDelay s))
          \/ delay_show (computedDelay s) = PosInf)).
Proof.
  split.
  - unfold computedDelay, delay_well_formed.
    destruct (delay (props s)) as [| |b|n|txt|e|l|fs] eqn:D;
      try (intros _; split; (exists 0%Z; split; [reflexivity | lia])).
    + intros H. split; exact H.
    + intros L. cbv zeta. cbn [delay_show delay_hide].
      assert (N : nonneg_integer (max_zero (num_or_zero (parseInt txt)))).
      { destruct (parseInt_finite txt L) as [-> | [z ->]].
        - exists 0%Z. split; [reflexivity | lia].
        - unfold num_or_zero. simpl. destruct (z =? 0)%Z; simpl.
          + exists 0%Z. split; [reflexivity | lia].
          + exists (Z.max z 0). split; [reflexivity | lia]. }
      split; exact N.
    + intros [Hs Hh]. cbn [delay_show delay_hide]. split.
      * destruct (get (VObj fs) "show") eqn:E; cbn [number_of];
          try (exists 0%Z; split; [reflexivity | lia]).
        now apply Hs.
      * destruct (get (VObj fs) "hide") eqn:E; cbn [number_of];
          try (exists 0%Z; split; [reflexivity | lia]).
        now apply Hh.
  - intros txt D. destruct (computedDelay_string s D) as (n & -> & H).
    cbn [delay_show delay_hide]. split; [reflexivity | exact H].
Qed.

Lemma computedDelay_well_formed_witness :
  let with_delay dl :=
    Example.controller (Example.config (VStr (str "hover")) dl) Example.nobody in
  (nonneg_integer (delay_show (computedDelay (with_delay (VStr (str "250ms")))))
   /\ computedDelay (with_delay (VStr (str "250ms"))) = mkDelay (Int 250) (Int 250))
  /\ nonneg_integer
       (delay_hide
          (computedDelay
             (with_delay (VObj [("show"%string, VStr (str "soon"));
                                ("hide"%string, VNum (Int 50))])))).
Proof.
  cbv zeta. split; [split; [|reflexivity]|].
  - apply (computedDelay_well_formed
             (Example.controller
                (Example.config (VStr (str "hover")) (VStr (str "250ms")))
                Example.nobody)).
    simpl. lia.
  - apply (computedDelay_well_formed
             (Example.controller
                (Example.config (VStr (str "hover"))
                   (VObj [("show"%string, VStr (str "soon"));
                          ("hide"%string, VNum (Int 50))]))
                Example.nobody)).
    split; intros n E.
    + discriminate E.
    + injection E as <-. exists 50%Z. split; [reflexivity | lia].
Defined.

(** *** Disabled controllers *)

Lemma handleEvent_guard (s : State) (evt : Event) :
  enabled s = false -> handleEvent evt s = Ok tt s.
Proof.
  intros H. unfold handleEvent. destruct (getTarget s); [|reflexivity].
  rewrite H. cbn [negb]. now rewrite orb_true_r.
Qed.

(** X8: once [disable] has run, every trigger event and [toggle] leave
    the instance unchanged, while an overlay that was open and the
    pending timers stay as they were; the [disabled] watcher calls
    [disable] for true and [enable] for false. *)
Theorem disabled_ignores_triggers (s : State) :
  let s' := disable s in
  (forall evt, handleEvent evt s' = Ok tt s')
  /\ toggle s' = Ok tt s'
  /\ _tip s' = _tip s /\ localShow s' = localShow s
  /\ timers s' = timers s
  /\ watch_disabled true s = s'
  /\ enabled (watch_disabled false s') = true.
Proof.
  cbv zeta. split; [|repeat split; reflexivity].
  intros evt. apply handleEvent_guard. reflexivity.
Qed.

(** *** [hide] *)

Lemma hide_cases (f : bool) (s : State) :
  hide f s = s
  \/ hide f s = snd (emitEvent (buildEvent BvHide (negb f) s) s)
  \/ hide f s
     = set_hoverState HoverNone
         (clearActiveTriggers
            (hideTemplate (snd (emitEvent (buildEvent BvHide (negb f) s) s)))).
Proof.
  unfold hide. destruct (getTemplateElement s); [|now left].
  destruct (localShow s); [|now left]. cbn [negb]. cbv iota.
  unfold emitEvent, buildEvent. cbn [bv_cancelable bv_type snd].
  destruct (negb f && prevents s BvHide);
    [right; left; reflexivity | right; right; reflexivity].
Qed.

(** X11: [hide], forced or not, never removes the template instance,
    never changes its element, and leaves [localShow], the timers and
    aria-describedby as they are. *)
Theorem hide_keeps_overlay (f : bool) (s : State) :
  localShow (hide f s) = localShow s
  /\ option_map tip_el (_tip (hide f s)) = option_map tip_el (_tip s)
  /\ timers (hide f s) = timers s
  /\ describedby (hide f s) = describedby s.
Proof.
  destruct (hide_cases f s) as [E | [E | E]]; rewrite E; clear E;
    unfold hideTemplate, clearActiveTriggers, emitEvent; cbn [snd]; fields;
    try (repeat split; reflexivity).
  destruct (_tip s) as [t0|] eqn:T; fields; rewrite ?T; repeat split.
Qed.

(** *** What the while-open listeners touch *)

Lemma fold_core {A} (f : State -> A -> State) (l : list A) :
  (forall s a, core (f s a) = core s) ->
  forall s, core (fold_left f l s) = core s.
Proof.
  intros Hf. induction l as [|a l IH]; intros s; simpl; [reflexivity|].
  now rewrite IH, Hf.
Qed.

Lemma setModalListener_core (on : bool) (s : State) :
  core (setModalListener on s) = core s.
Proof.
  unfold setModalListener. destruct (isInModal s); [|reflexivity].
  destruct on; reflexivity.
Qed.

Lemma setDropdownListener_core (on : bool) (s : State) :
  core (setDropdownListener on s) = core s.
Proof.
  unfold setDropdownListener. destruct (getTarget s); [|reflexivity].
  destruct (hasVue (dom s) e); [|reflexivity]. destruct on; reflexivity.
Qed.

Lemma visibleCheck_core (on : bool) (s : State) :
  core (visibleCheck on s) = core s.
Proof.
  unfold visibleCheck, clearInterval. rewrite clearTimeout_as_set.
  destruct on; reflexivity.
Qed.

Lemma setOnTouchStartListener_core (on : bool) (s : State) :
  core (setOnTouchStartListener on s) = core s.
Proof.
  unfold setOnTouchStartListener. destruct (touch (dom s)); [|reflexivity].
  apply fold_core. intros s' el. destruct on; [|reflexivity].
  destruct (existsb _ _); reflexivity.
Qed.

Lemma setWhileOpenListeners_core (on : bool) (s : State) :
  core (setWhileOpenListeners on s) = core s.
Proof.
  unfold setWhileOpenListeners.
  now rewrite setOnTouchStartListener_core, visibleCheck_core,
    setDropdownListener_core, setModalListener_core.
Qed.

Lemma core_fields (s s' : State) :
  core s' = core s ->
  props s' = props s /\ dom s' = dom s /\ prevents s' = prevents s
  /\ activeTrigger s' = activeTrigger s /\ hoverState s' = hoverState s
  /\ localShow s' = localShow s /\ enabled s' = enabled s
  /\ _tip s' = _tip s /\ hoverTimeout s' = hoverTimeout s
  /\ _hoverTimeout s' = _hoverTimeout s
  /\ describedby s' = describedby s /\ domListeners s' = domListeners s
  /\ emitted s' = emitted s.
Proof.
  unfold core. intros H. injection H. intros. repeat split; assumption.
Qed.

Lemma getTarget_ext (s s' : State) :
  props s' = props s -> dom s' = dom s -> getTarget s' = getTarget s.
Proof. intros P D. unfold getTarget, target_ref. now rewrite P, D. Qed.

Lemma computedId_ext (s s' : State) :
  props s' = props s -> computedId s' = computedId s.
Proof. intros P. unfold computedId, templateTypeName. now rewrite P. Qed.

Lemma getTemplateElement_ext (s s' : State) :
  _tip s' = _tip s -> getTemplateElement s' = getTemplateElement s.
Proof. intros T. unfold getTemplateElement. now rewrite T. Qed.

(** *** [hide] and [forceHide] *)

(** Forcing an open overlay to hide cannot be cancelled. *)
Lemma forceHide_open (s : State) (el : elem) :
  open_on s el -> hiding (forceHide s) el.
Proof.
  intros [T L]. unfold forceHide. rewrite T, L. cbn [negb]. cbv iota.
  rewrite clearTimeout_as_set.
  pose proof (core_fields (setWhileOpenListeners_core false s))
    as (_ & _ & _ & _ & _ & HL & _ & HT & _).
  apply hide_open; unfold getTemplateElement, clearActiveTriggers; fields.
  - rewrite HT. exact T.
  - now rewrite HL.
  - reflexivity.
Qed.

(** X12: on an open overlay whose listeners cancel the [hide] event, a
    plain [hide] only records the event, while a forced [hide] and
    [forceHide] still tell the template to hide and release every
    trigger. *)
Theorem hide_cancelled (s : State) (el : elem) :
  open_on s el ->
  prevents s BvHide = true ->
  hide false s = set_emitted (emitted s ++ [buildEvent BvHide true s]) s
  /\ hiding (hide true s) el
  /\ hiding (forceHide s) el.
Proof.
  intros [T L] P. split; [|split].
  - unfold hide. rewrite T, L. cbn [negb]. cbv iota.
    unfold emitEvent, buildEvent. cbn [bv_cancelable bv_type]. rewrite P.
    reflexivity.
  - now apply hide_open.
  - apply forceHide_open. now split.
Qed.

Lemma hide_cancelled_witness :
  let s := Example.opened
             (Example.config (VStr (str "focus blur")) (VNum (Int 0)))
             Example.cancel_hide in
  _tip (hide false s) = Some (mkTip (Some Example.tipEl) false)
  /\ _tip (forceHide s) = Some (mkTip (Some Example.tipEl) true).
Proof.
  cbv zeta.
  destruct (@hide_cancelled
              (Example.opened
                 (Example.config (VStr (str "focus blur")) (VNum (Int 0)))
                 Example.cancel_hide)
              Example.tipEl (conj eq_refl eq_refl) eq_refl) as (H1 & _ & H3 & _).
  split; [rewrite H1; reflexivity | exact H3].
Defined.

(** X13: when no mounted template exists or nothing is shown, [hide],
    [forceHide], the hide-timer callback and the visibility poll all
    leave the instance unchanged. *)
Theorem closed_hide_noop (s : State) :
  getTemplateElement s = None \/ localShow s = false ->
  (forall f, hide f s = s) /\ forceHide s = s
  /\ run_callback CbHide s = Ok tt s
  /\ run_callback CbVisible s = Ok tt s.
Proof.
  intros H. unfold run_callback, hide, forceHide.
  destruct H as [-> | H].
  - repeat split. destruct (hover_eqb _ _); reflexivity.
  - rewrite H. destruct (getTemplateElement s); cbn [negb andb];
      repeat split; try rewrite andb_false_r;
      try (destruct (hover_eqb _ _); reflexivity); reflexivity.
Qed.

Lemma closed_hide_noop_witness :
  forceHide Example.hovering = Example.hovering
  /\ hide true Example.hovering = Example.hovering.
Proof.
  destruct (@closed_hide_noop Example.hovering (or_introl eq_refl))
    as (H1 & H2 & _).
  split; [exact H2 | apply H1].
Defined.

(** *** [destroyTemplate] *)

Lemma destroyTemplate_resets_core (s : State) :
  closed (destroyTemplate s)
  /\ activeTrigger (destroyTemplate s) = mkActive false false false false
  /\ hoverState (destroyTemplate s) = HoverNone
  /\ describedby (destroyTemplate s) = describedby s
  /\ props (destroyTemplate s) = props s
  /\ dom (destroyTemplate s) = dom s
  /\ emitted (destroyTemplate s) = emitted s
  /\ _tip (destroyTemplate s) = None.
Proof.
  pose proof (core_fields (setWhileOpenListeners_core false s))
    as (HP & HDm & _ & _ & _ & _ & _ & _ & _ & _ & HD & _ & HE).
  split; [split; reflexivity|]. do 2 (split; [reflexivity|]).
  split; [|split; [|split; [|split]]].
  - unfold destroyTemplate. rewrite clearTimeout_as_set. fields. exact HD.
  - unfold destroyTemplate. rewrite clearTimeout_as_set. fields. exact HP.
  - unfold destroyTemplate. rewrite clearTimeout_as_set. fields. exact HDm.
  - unfold destroyTemplate. rewrite clearTimeout_as_set. fields. exact HE.
  - reflexivity.
Qed.

(** X14: whatever the state, after [destroyTemplate] nothing is shown,
    no template instance exists, no trigger is active, [hoverState] and
    the placement fields have their initial values, and a following
    [hide] or [forceHide] changes nothing; aria-describedby and the DOM
    listeners are left alone. *)
Theorem destroyTemplate_resets (s : State) :
  let s' := destroyTemplate s in
  closed s'
  /\ activeTrigger s' = mkActive false false false false
  /\ hoverState s' = HoverNone
  /\ localPlacementTarget s' = None /\ localContainer s' = None
  /\ localBoundary s' = VStr (str "scrollParent")
  /\ describedby s' = describedby s
  /\ domListeners s' = domListeners s
  /\ (forall f, hide f s' = s') /\ forceHide s' = s'.
Proof.
  cbv zeta.
  pose proof (core_fields (setWhileOpenListeners_core false s))
    as (_ & _ & _ & _ & _ & _ & _ & _ & _ & _ & HD & HL & _).
  assert (T : getTemplateElement (destroyTemplate s) = None) by reflexivity.
  split; [split; reflexivity|].
  do 5 (split; [reflexivity|]).
  split; [|split; [|split]].
  - unfold destroyTemplate. rewrite clearTimeout_as_set. fields. exact HD.
  - unfold destroyTemplate. rewrite clearTimeout_as_set. fields. exact HL.
  - intros f. now apply hide_closed.
  - unfold forceHide. now rewrite T.
Qed.

(** *** [show] *)

(** X9: when no element passes the guards of [show] (host resolved,
    attached, visible, not an open dropdown), [show] changes nothing and
    emits nothing. *)
Theorem show_refused (s : State) :
  (forall host, ~ showable s host) ->
  show s = Ok tt s.
Proof.
  intros H. unfold show. destruct (getTarget s) as [host|] eqn:T; [|reflexivity].
  destruct (inBody (dom s) host) eqn:B; [|reflexivity].
  destruct (isVisible (dom s) host) eqn:V; [|reflexivity].
  destruct (dropdownOpen s) eqn:D; [reflexivity|].
  exfalso. apply (H host). repeat split; assumption.
Qed.

Lemma show_refused_witness :
  let hidden_page :=
    mkDom (getById Example.page) (inBody Example.page) (fun _ => false)
      (isDisabled Example.page) (hasDropdownClass Example.page)
      (hasOpenMenu Example.page) (closestModal Example.page)
      (contains Example.page) (elemId Example.page) (hasVue Example.page)
      (body Example.page) (bodyChildren Example.page) (touch Example.page) in
  let s := set_dom hidden_page Example.hovering in
  show s = Ok tt s.
Proof.
  cbv zeta. apply show_refused.
  intros host (_ & _ & V & _). discriminate V.
Defined.

Lemma show_open_state (s : State) (host : elem) :
  showable s host ->
  prevents s BvShow = false ->
  exists s',
    show s = Ok tt s'
    /\ localShow s' = true
    /\ _tip s' = Some (mkTip None false)
    /\ localPlacementTarget s' = Some host
    /\ ids_of (describedby s' host) = ids_of (describedby s host) ++ [computedId s]
    /\ emitted s' = emitted s ++ [buildEvent BvShow true s]
    /\ timers s' = timers s
    /\ activeTrigger s' = activeTrigger s
    /\ hoverState s' = hoverState s.
Proof.
  intros (T & B & V & D) P. unfold show. rewrite T, B, V, D. cbn [negb orb].
  unfold emitEvent, buildEvent. cbn [bv_cancelable bv_type]. rewrite P.
  cbn [andb]. eexists. split; [reflexivity|].
  unfold createTemplateAndShow, fixTitle, addAriaDescribedby, getPlacementTarget.
  match goal with |- context [setAttr (getTarget ?x)] =>
    change (getTarget x) with (getTarget s);
    change (computedId x) with (computedId s)
  end.
  rewrite T. unfold getAttr, setAttr. fields.
  match goal with |- context [set_localShow true ?x] =>
    change (getTarget (set_localShow true x)) with (getTarget s)
  end.
  rewrite T, Nat.eqb_refl. repeat split.
  unfold ids_of at 1. cbn [attr_or_empty].
  apply words_describedby_add, computedId_token.
Qed.

(** X10: when the host passes the guards and the [show] event is not
    cancelled, [show] returns normally with [localShow] set, a fresh
    unmounted template instance placed on the host, the controller's id
    appended to the ids of aria-describedby, one cancelable [show] event
    emitted, and timers, active triggers and [hoverState] untouched. *)
Theorem show_opens (s : State) (host : elem) :
  showable s host ->
  prevents s BvShow = false ->
  exists s',
    show s = Ok tt s'
    /\ localShow s' = true
    /\ _tip s' = Some (mkTip None false)
    /\ localPlacementTarget s' = Some host
    /\ ids_of (describedby s' host) = ids_of (describedby s host) ++ [computedId s]
    /\ emitted s' = emitted s ++ [buildEvent BvShow true s]
    /\ timers s' = timers s
    /\ activeTrigger s' = activeTrigger s
    /\ hoverState s' = hoverState s.
Proof. exact (@show_open_state s host). Qed.

Lemma show_opens_witness :
  exists s',
    show Example.hovering = Ok tt s'
    /\ describedby s' Example.host = Some (str "__bv_tooltip_7__").
Proof.
  destruct (@show_opens Example.hovering Example.host
              (conj eq_refl (conj eq_refl (conj eq_refl eq_refl))) eq_refl)
    as (s' & E & _).
  exists s'. split; [exact E|].
  assert (E' : s' = state_of (show Example.hovering)) by (rewrite E; reflexivity).
  rewrite E'. reflexivity.
Defined.

(** *** The controller's id *)

Lemma to_uint_not_nil (n : nat) : Nat.to_uint n <> Nil.
Proof.
  intros H. pose proof (Unsigned.of_to n) as E. rewrite H in E.
  simpl in E. subst n. discriminate H.
Qed.

Lemma of_nat_inj (n m : nat) : JsString.of_nat n = JsString.of_nat m -> n = m.
Proof.
  unfold JsString.of_nat, str. intros H.
  apply (f_equal string_of_list_ascii) in H.
  rewrite !string_of_list_ascii_of_string in H.
  apply (f_equal NilZero.uint_of_string) in H.
  rewrite !NilZero.usu in H by apply to_uint_not_nil.
  injection H as H. now apply Unsigned.to_uint_inj.
Qed.

(** X3: two instances have the same computed id exactly when they have
    the same template type and the same uid. *)
Theorem computedId_unique (s s' : State) :
  computedId s = computedId s'
  <-> templateType (props s) = templateType (props s')
      /\ _uid (props s) = _uid (props s').
Proof.
  unfold computedId, templateTypeName. split.
  - intros H. apply app_inv_head in H.
    destruct (templateType (props s)), (templateType (props s'));
      try discriminate H; (split; [reflexivity|]);
      apply (app_inv_head (str "tooltip" ++ str "_")) in H
      || apply (app_inv_head (str "popover" ++ str "_")) in H;
      apply app_inv_tail in H; now apply of_nat_inj.
  - intros [-> ->]. reflexivity.
Qed.

Lemma computedId_unique_witness :
  computedId Example.hovering
  <> computedId (set_props (mkProps VNull VNull VNull VNull VNull false Tooltip 8)
                   Example.hovering).
Proof.
  intros H. apply computedId_unique in H as [_ H]. discriminate H.
Defined.

(** *** [enter], [leave] and [click] *)

Lemma show_keeps (s : State) :
  let s' := state_of (show s) in
  hoverState s' = hoverState s /\ activeTrigger s' = activeTrigger s
  /\ timers s' = timers s /\ hoverTimeout s' = hoverTimeout s
  /\ enabled s' = enabled s.
Proof.
  cbv zeta. unfold show. destruct (getTarget s) as [host|] eqn:T;
    [|repeat split].
  destruct (_ || _); [repeat split|].
  unfold emitEvent, buildEvent. cbn [bv_cancelable bv_type].
  destruct (true && prevents s BvShow); [repeat split|].
  unfold createTemplateAndShow, fixTitle, addAriaDescribedby, setAttr.
  match goal with |- context [match getTarget ?x with _ => _ end] =>
    destruct (getTarget x)
  end; repeat split.
Qed.

(** X19: after any [enter] the hover intent is in, and a second [enter]
    returns normally without adding a timer, emitting an event, or
    touching the overlay and aria-describedby. *)
Theorem enter_idempotent (e1 e2 : option Event) (s : State) :
  let s1 := state_of (enter e1 s) in
  let s2 := state_of (enter e2 s1) in
  hoverState s1 = HoverIn
  /\ raised (enter e2 s1) = false
  /\ timers s2 = timers s1
  /\ emitted s2 = emitted s1
  /\ _tip s2 = _tip s1
  /\ localShow s2 = localShow s1
  /\ describedby s2 = describedby s1.
Proof.
  cbv zeta.
  assert (H1 : hoverState (state_of (enter e1 s)) = HoverIn).
  { unfold enter.
    match goal with |- context [localShow ?x || _] => set (X := x) end.
    destruct (localShow X || hover_eqb (hoverState X) HoverIn); [reflexivity|].
    rewrite clearTimeout_as_set.
    destruct (negb _).
    - match goal with |- hoverState (state_of (show ?y)) = _ =>
        destruct (show_keeps y) as (-> & _) end.
      reflexivity.
    - unfold setTimeout. reflexivity. }
  split; [exact H1|].
  set (s1 := state_of (enter e1 s)) in *.
  unfold enter.
  match goal with |- context [localShow ?x || _] => set (X := x) end.
  assert (HX : hoverState X = HoverIn).
  { subst X. destruct e2 as [e|]; [|exact H1].
    destruct (evtype_eqb (ev_type e) EvFocusin); exact H1. }
  rewrite HX. cbn [hover_eqb]. rewrite orb_true_r. cbn [raised state_of].
  subst X. destruct e2 as [e|]; [|repeat split].
  destruct (evtype_eqb (ev_type e) EvFocusin); repeat split.
Qed.

(** X20: a mouseleave while click, focus or manual is active, and a
    focusout without the blur trigger while hover, click or manual is
    active, only release their own trigger: timers, [hoverState] and the
    overlay are untouched. *)
Theorem leave_stays_open (e : Event) (s : State) :
  let a := activeTrigger s in
  (ev_type e = EvMouseleave ->
   at_click a || at_focus a || at_manual a = true ->
   leave (Some e) s
   = set_activeTrigger (mkActive false (at_click a) (at_focus a) (at_manual a)) s)
  /\ (ev_type e = EvFocusout ->
      arrayIncludes (computedTriggers s) (str "blur") = false ->
      at_hover a || at_click a || at_manual a = true ->
      leave (Some e) s
      = set_activeTrigger (mkActive (at_hover a) (at_click a) false (at_manual a)) s).
Proof.
  cbv zeta. split.
  - intros Ty A. unfold leave. rewrite Ty. cbn [evtype_eqb andb].
    unfold isWithActiveTrigger. fields. cbn [orb].
    destruct (at_click (activeTrigger s)), (at_focus (activeTrigger s)),
      (at_manual (activeTrigger s)); try discriminate A; reflexivity.
  - intros Ty B A. unfold leave. rewrite Ty. cbn [evtype_eqb andb].
    change (computedTriggers (set_activeTrigger ?x s)) with (computedTriggers s).
    rewrite B. unfold isWithActiveTrigger. fields.
    destruct (at_hover (activeTrigger s)), (at_click (activeTrigger s)),
      (at_manual (activeTrigger s)); try discriminate A; reflexivity.
Qed.

Lemma leave_stays_open_witness :
  let s := state_of (handleEvent Example.focusin
                       (state_of (handleEvent Example.mouseenter Example.hovering))) in
  timers (leave (Some Example.mouseleave) s) = timers s
  /\ hoverState (leave (Some Example.mouseleave) s) = HoverIn.
Proof.
  cbv zeta.
  destruct (@leave_stays_open Example.mouseleave
              (state_of (handleEvent Example.focusin
                 (state_of (handleEvent Example.mouseenter Example.hovering)))))
    as [H _].
  rewrite (H eq_refl eq_refl). split; vm_compute; reflexivity.
Defined.

Lemma enter_keeps_click (s : State) :
  at_click (activeTrigger (state_of (enter None s))) = at_click (activeTrigger s).
Proof.
  unfold enter.
  destruct (localShow s || hover_eqb (hoverState s) HoverIn); [reflexivity|].
  rewrite clearTimeout_as_set. destruct (negb _).
  - match goal with |- context [state_of (show ?y)] =>
      destruct (show_keeps y) as (_ & -> & _) end.
    reflexivity.
  - reflexivity.
Qed.

Lemma leave_releases (s : State) :
  isWithActiveTrigger s = false ->
  at_click (activeTrigger (leave None s)) = false.
Proof.
  intros H. unfold leave. rewrite H. rewrite clearTimeout_as_set.
  assert (C : at_click (activeTrigger s) = false).
  { unfold isWithActiveTrigger in H.
    destruct (at_hover (activeTrigger s)), (at_click (activeTrigger s));
      try discriminate H; reflexivity. }
  destruct (negb _).
  - destruct (hide_cases false
                (set_hoverState HoverOut
                   (set_timers
                      match hoverTimeout s with
                      | HTimer id => filter (fun t => negb (tm_id t =? id)) (timers s)
                      | _ => timers s
                      end s))) as [E | [E | E]]; rewrite E;
      unfold hideTemplate, clearActiveTriggers, emitEvent; cbn [snd]; fields;
      try exact C. reflexivity.
  - unfold setTimeout. fields. exact C.
Qed.

(** X21: on an enabled controller whose host is not an open dropdown,
    [click] inverts the click trigger. *)
Theorem click_toggles (e : Event) (s : State) :
  enabled s = true -> dropdownOpen s = false ->
  at_click (activeTrigger (state_of (click e s)))
  = negb (at_click (activeTrigger s)).
Proof.
  intros En Dd. unfold click. rewrite En, Dd. cbn [negb orb].
  match goal with |- context [isWithActiveTrigger ?x] => set (X := x) end.
  destruct (isWithActiveTrigger X) eqn:A.
  - rewrite enter_keeps_click. reflexivity.
  - cbn [state_of]. rewrite leave_releases by exact A.
    unfold isWithActiveTrigger in A. subst X. fields.
    destruct (at_hover (activeTrigger s)), (at_click (activeTrigger s));
      try discriminate A; reflexivity.
Qed.

Lemma click_toggles_witness :
  let s := Example.controller
             (Example.config (VStr (str "click")) (VNum (Int 0))) Example.nobody in
  let click_evt := mkEvent EvClick (Some Example.host) None in
  at_click (activeTrigger (state_of (click click_evt s))) = true.
Proof.
  cbv zeta.
  rewrite (@click_toggles (mkEvent EvClick (Some Example.host) None)
             (Example.controller
                (Example.config (VStr (str "click")) (VNum (Int 0))) Example.nobody)
             eq_refl eq_refl).
  reflexivity.
Defined.

(** *** The template's [hidden] callback *)

Lemma ids_of_attr_of (l : list jsstring) :
  Forall token l -> ids_of (attr_of l) = l.
Proof.
  intros H. destruct l as [|t l]; [reflexivity|].
  unfold ids_of, attr_of, attr_or_empty. rewrite words_join.
  - apply filter_nonempty_id. eapply Forall_impl; [|exact H]. now intros a [Ha _].
  - eapply Forall_impl; [|exact H]. now intros a [_ Ha].
Qed.

Lemma removeAriaDescribedby_spec (s : State) (host : elem) :
  getTarget s = Some host ->
  describedby (removeAriaDescribedby s) host
  = attr_of (without (computedId s) (ids_of (describedby s host))).
Proof.
  intros T. unfold removeAriaDescribedby. rewrite T. unfold getAttr.
  rewrite describedby_remove_spec.
  set (L := without (computedId s) (ids_of (describedby s host))).
  assert (HL : Forall token L) by apply without_tokens, words_tokens.
  destruct (isEmpty (join sp L)) eqn:E; simpl.
  - rewrite (join_tokens_nil HL E). simpl. now rewrite Nat.eqb_refl.
  - rewrite Nat.eqb_refl. destruct L; [discriminate | reflexivity].
Qed.

Lemma without_not_in (id : jsstring) (l : list jsstring) : ~ In id (without id l).
Proof.
  intros H. apply filter_In in H as [_ H]. rewrite eqb_refl in H. discriminate.
Qed.

(** X15: with a resolved host, after the template's [hidden] callback
    the overlay is gone, the ids of aria-describedby are the previous
    ones without any occurrence of the controller's id, no trigger is
    active and one non-cancelable [hidden] event has been emitted. *)
Theorem onTemplateHidden_cleans_up (s : State) (host : elem) :
  getTarget s = Some host ->
  let s' := onTemplateHidden s in
  closed s'
  /\ ids_of (describedby s' host)
     = without (computedId s) (ids_of (describedby s host))
  /\ ~ In (computedId s) (ids_of (describedby s' host))
  /\ activeTrigger s' = mkActive false false false false
  /\ hoverState s' = HoverNone
  /\ emitted s' = emitted s ++ [mkBvEvent BvHidden false (Some host) None (computedId s)].
Proof.
  intros T. cbv zeta. unfold onTemplateHidden, restoreTitle.
  set (r := removeAriaDescribedby s).
  assert (Tr : getTarget r = Some host).
  { subst r. unfold removeAriaDescribedby. rewrite T. unfold getAttr.
    destruct (negb _); exact T. }
  assert (Ir : computedId r = computedId s).
  { subst r. unfold removeAriaDescribedby. rewrite T. destruct (negb _); reflexivity. }
  assert (Er : emitted r = emitted s).
  { subst r. unfold removeAriaDescribedby. rewrite T. destruct (negb _); reflexivity. }
  destruct (destroyTemplate_resets_core r) as ((L & Tp) & A & Hs & D & P & Dm & Em & _).
  assert (Desc : describedby r host
                 = attr_of (without (computedId s) (ids_of (describedby s host))))
    by (subst r; now apply removeAriaDescribedby_spec).
  generalize dependent (destroyTemplate r). intros d L Tp A Hs D P Dm Em.
  assert (Td : getTarget d = Some host)
    by (rewrite (getTarget_ext _ _ P Dm); exact Tr).
  assert (Id : computedId d = computedId s)
    by (rewrite (computedId_ext _ _ P); exact Ir).
  unfold emitEvent, buildEvent, closed, getTemplateElement. cbn [snd]. fields.
  rewrite D, Desc, ids_of_attr_of by apply without_tokens, words_tokens.
  rewrite Em, Er, Td, Id, Tp.
  repeat split; try assumption. apply without_not_in.
Qed.

Lemma onTemplateHidden_cleans_up_witness :
  ids_of (describedby (onTemplateHidden Example.open_tooltip) Example.host) = [].
Proof.
  destruct (@onTemplateHidden_cleans_up Example.open_tooltip Example.host eq_refl)
    as (_ & H & _).
  rewrite H. vm_compute. reflexivity.
Defined.

(** *** The visibility poll and the template's [shown] callback *)

(** X17: when an overlay is open and the host is missing or not
    visible, the visibility poll runs [forceHide], which tells the
    template to hide and releases every trigger. *)
Theorem poll_force_hides (s : State) (el : elem) :
  open_on s el ->
  (forall host, getTarget s = Some host -> isVisible (dom s) host = false) ->
  run_callback CbVisible s = Ok tt (forceHide s)
  /\ hiding (forceHide s) el.
Proof.
  intros [T L] V. split; [|apply forceHide_open; now split].
  unfold run_callback. rewrite T, L.
  destruct (getTarget s) as [host|]; [rewrite (V host eq_refl)|]; reflexivity.
Qed.

Lemma poll_force_hides_witness :
  let hidden_page :=
    mkDom (getById Example.page) (inBody Example.page) (fun _ => false)
      (isDisabled Example.page) (hasDropdownClass Example.page)
      (hasOpenMenu Example.page) (closestModal Example.page)
      (contains Example.page) (elemId Example.page) (hasVue Example.page)
      (body Example.page) (bodyChildren Example.page) (touch Example.page) in
  let s := set_dom hidden_page Example.open_tooltip in
  hiding (state_of (run_callback CbVisible s)) Example.tipEl.
Proof.
  cbv zeta.
  match goal with |- hiding (state_of (run_callback CbVisible ?s)) _ =>
    destruct (@poll_force_hides s Example.tipEl (conj eq_refl eq_refl)) as [E H]
  end.
  - intros host _. reflexivity.
  - rewrite E. exact H.
Defined.

(** X18: while the host is visible the visibility poll changes nothing. *)
Theorem poll_idle_while_visible (s : State) (host : elem) :
  getTarget s = Some host -> isVisible (dom s) host = true ->
  run_callback CbVisible s = Ok tt s.
Proof.
  intros T V. unfold run_callback. rewrite T, V.
  destruct (getTemplateElement s); reflexivity.
Qed.

Lemma poll_idle_while_visible_witness :
  run_callback CbVisible Example.open_tooltip = Ok tt Example.open_tooltip.
Proof.
  apply (@poll_idle_while_visible Example.open_tooltip Example.host);
    reflexivity.
Defined.

(** X16: the template's [shown] callback resets [hoverState] and emits
    [shown]; when [hoverState] had turned to out meanwhile, no trigger is
    active, there is no hide delay and [hide] is not cancelled, the
    overlay is told to hide at once. *)
Theorem onTemplateShown_race (s : State) (el : elem) :
  (hoverState s <> HoverOut ->
   onTemplateShown s
   = set_emitted (emitted s ++ [buildEvent BvShown false s])
       (set_hoverState HoverNone s))
  /\ (hoverState s = HoverOut ->
      open_on s el ->
      isWithActiveTrigger s = false ->
      num_truthy (delay_hide (computedDelay s)) = false ->
      prevents s BvHide = false ->
      hiding (onTemplateShown s) el).
Proof.
  split.
  - intros H. unfold onTemplateShown.
    destruct (hoverState s); try contradiction; reflexivity.
  - intros H [T L] A Dl P. unfold onTemplateShown. rewrite H. cbn [hover_eqb].
    unfold leave.
    change (isWithActiveTrigger (set_hoverState HoverNone s))
      with (isWithActiveTrigger s).
    rewrite A, clearTimeout_as_set. fields.
    match goal with |- context [computedDelay ?x] =>
      change (computedDelay x) with (computedDelay s) end.
    rewrite Dl. cbn [negb].
    match goal with |- context [hide false ?x] =>
      destruct (@hide_open false x el) as (H1 & H2 & H3);
        [exact T | exact L | exact P |] end.
    unfold hiding, emitEvent. cbn [snd]. fields. auto.
Qed.

Lemma onTemplateShown_race_witness :
  let s := set_hoverState HoverOut
             (clearActiveTriggers Example.open_tooltip) in
  hiding (onTemplateShown s) Example.tipEl.
Proof.
  cbv zeta.
  match goal with |- hiding (onTemplateShown ?s) _ =>
    destruct (@onTemplateShown_race s Example.tipEl) as [_ H]
  end.
  apply H; try reflexivity. split; reflexivity.
Defined.

(** *** Global commands *)

(** X23: a global command with a non-empty id that is neither the
    controller's id nor the id of its host leaves the instance
    unchanged. *)
Theorem commands_ignore_other_ids (s : State) (id : jsstring) :
  id <> [] ->
  id <> computedId s ->
  getTargetId s <> Some id ->
  doHide (Some id) s = s
  /\ doShow (Some id) s = Ok tt s
  /\ doDisable (Some id) s = s
  /\ doEnable (Some id) s = s.
Proof.
  intros Hne Hc Ht.
  assert (M : matches_id (Some id) s = false).
  { unfold matches_id. destruct id as [|c id]; [contradiction|]. cbn [isEmpty].
    assert (C : JsString.eqb (computedId s) (c :: id) = false)
      by (apply eqb_neq; congruence).
    destruct (getTargetId s) as [t|]; [|exact C].
    rewrite C, orb_false_r. apply eqb_neq. congruence. }
  unfold doHide, doShow, doDisable, doEnable. rewrite M. auto.
Qed.

Lemma commands_ignore_other_ids_witness :
  doHide (Some (str "other")) Example.open_tooltip = Example.open_tooltip.
Proof.
  destruct (@commands_ignore_other_ids Example.open_tooltip (str "other"))
    as [H _].
  - discriminate.
  - vm_compute. discriminate.
  - vm_compute. discriminate.
  - exact H.
Defined.

(** X24: a global hide without id, with the controller's id, or with
    the id of the host force-hides an open overlay. *)
Theorem commands_reach_own_ids (s : State) (el : elem) :
  open_on s el ->
  hiding (doHide None s) el
  /\ hiding (doHide (Some (computedId s)) s) el
  /\ (forall id, getTargetId s = Some id -> hiding (doHide (Some id) s) el).
Proof.
  intros O. pose proof (forceHide_open O) as H.
  split; [exact H|]. split.
  - unfold doHide, matches_id.
    destruct (isEmpty (computedId s)); [exact H|].
    rewrite eqb_refl. destruct (getTargetId s); [rewrite orb_true_r|]; exact H.
  - intros id E. unfold doHide, matches_id. rewrite E.
    destruct (isEmpty id); [exact H|]. rewrite eqb_refl. exact H.
Qed.

Lemma commands_reach_own_ids_witness :
  hiding (doHide (Some (str "btn")) Example.open_tooltip) Example.tipEl.
Proof.
  destruct (@commands_reach_own_ids Example.open_tooltip Example.tipEl
              (conj eq_refl eq_refl)) as (_ & _ & H).
  apply H. reflexivity.
Defined.

(** *** [listen] and [unListen] *)

Lemma evtype_eqb_eq (a b : EventType) : evtype_eqb a b = true <-> a = b.
Proof. destruct a, b; simpl; split; congruence. Qed.

Lemma same_listener_eq (a b : elem * EventType) :
  same_listener a b = true <-> a = b.
Proof.
  destruct a as [e1 t1], b as [e2 t2]. unfold same_listener. cbn [fst snd].
  rewrite andb_true_iff, Nat.eqb_eq, evtype_eqb_eq. split.
  - now intros [-> ->].
  - intros [= -> ->]. auto.
Qed.

Lemma eventOn_In (el : elem) (ty : EventType) (s : State) (x : elem * EventType) :
  In x (domListeners (eventOn el ty s))
  <-> In x (domListeners s) \/ x = (el, ty).
Proof.
  unfold eventOn. destruct (existsb _ _) eqn:E.
  - apply existsb_exists in E as (y & Hy & Sy). apply same_listener_eq in Sy.
    subst y. split; [now left|]. now intros [H | ->].
  - fields. rewrite in_app_iff. simpl. split.
    + intros [H | [<- | []]]; [now left | now right].
    + intros [H | ->]; [now left | right; now left].
Qed.

Lemma fold_keeps {A B} (proj : State -> B) (f : State -> A -> State)
    (l : list A) :
  (forall s a, proj (f s a) = proj s) ->
  forall s, proj (fold_left f l s) = proj s.
Proof.
  intros Hf. induction l as [|a l IH]; intros s; simpl; [reflexivity|].
  now rewrite IH, Hf.
Qed.

Lemma listen_step (host : elem) (t : jsstring) (s0 : State)
    (x : elem * EventType) :
  In x (domListeners
          (if JsString.eqb t (str "click") then eventOn host EvClick s0
           else if JsString.eqb t (str "focus")
           then eventOn host EvFocusout (eventOn host EvFocusin s0)
           else if JsString.eqb t (str "blur") then eventOn host EvFocusout s0
           else if JsString.eqb t (str "hover")
           then eventOn host EvMouseleave (eventOn host EvMouseenter s0)
           else s0))
  <-> In x (domListeners s0)
      \/ exists ty, In ty (trigger_events t) /\ x = (host, ty).
Proof.
  unfold trigger_events.
  destruct (JsString.eqb t (str "click"));
    [|destruct (JsString.eqb t (str "focus"));
      [|destruct (JsString.eqb t (str "blur"));
        [|destruct (JsString.eqb t (str "hover"))]]];
    rewrite ?eventOn_In; cbn [In]; firstorder (subst; auto).
Qed.

Lemma listen_fold (host : elem) (l : list jsstring) (x : elem * EventType) :
  forall s0,
    In x (domListeners
            (fold_left
               (fun s trigger =>
                  if JsString.eqb trigger (str "click") then eventOn host EvClick s
                  else if JsString.eqb trigger (str "focus") then
                    eventOn host EvFocusout (eventOn host EvFocusin s)
                  else if JsString.eqb trigger (str "blur") then eventOn host EvFocusout s
                  else if JsString.eqb trigger (str "hover") then
                    eventOn host EvMouseleave (eventOn host EvMouseenter s)
                  else s) l s0))
    <-> In x (domListeners s0)
        \/ exists t ty, In t l /\ In ty (trigger_events t) /\ x = (host, ty).
Proof.
  induction l as [|t l IH]; intros s0; cbn [fold_left].
  - split; [now left|]. intros [H | (t & ty & [] & _)]. exact H.
  - rewrite IH, listen_step. clear IH. split.
    + intros [[H | (ty & Hty & E)] | (t' & ty & Ht & Hty & E)].
      * now left.
      * right. exists t, ty. repeat split; auto. now left.
      * right. exists t', ty. repeat split; auto. now right.
    + intros [H | (t' & ty & [<- | Ht] & Hty & E)].
      * left. now left.
      * left. right. eauto.
      * right. eauto.
Qed.

(** X4: with a resolved host, the DOM listeners after [listen] are those
    present before together with, for each configured trigger token, the
    events of that token on the host; tokens other than click, focus,
    blur and hover add nothing. *)
Theorem listen_registers (s : State) (host : elem) (x : elem * EventType) :
  getTarget s = Some host ->
  (In x (domListeners (listen s))
   <-> In x (domListeners s)
       \/ exists t ty, In t (computedTriggers s) /\ In ty (trigger_events t)
                       /\ x = (host, ty)).
Proof.
  intros T. unfold listen. rewrite T, listen_fold. reflexivity.
Qed.

Lemma listen_registers_witness :
  let base :=
    set__visibleInterval HNull
      (set__hoverTimeout HNull
         (set__tip None
            (instantiate
               (Example.config (VStr (str "hover focus")) Example.delay_100_50)
               Example.page Example.nobody true))) in
  In (Example.host, EvMouseenter) (domListeners (listen base))
  /\ ~ In (Example.host, EvClick) (domListeners (listen base)).
Proof.
  cbv zeta.
  match goal with |- In _ (domListeners (listen ?b)) /\ _ => set (base := b) end.
  assert (T : getTarget base = Some Example.host) by reflexivity.
  pose proof (@listen_registers base Example.host (Example.host, EvMouseenter) T)
    as [_ H1].
  pose proof (@listen_registers base Example.host (Example.host, EvClick) T)
    as [H2 _].
  split.
  - apply H1. right. exists (str "hover"), EvMouseenter.
    split; [left; reflexivity | split; [left; reflexivity | reflexivity]].
  - intros H. apply H2 in H. clear H1 H2.
    destruct H as [[] | (t & ty & Ht & Hty & E)].
    injection E as <-.
    change (computedTriggers base) with [str "hover"; str "focus"] in Ht.
    destruct Ht as [<- | [<- | []]]; vm_compute in Hty; intuition discriminate.
Defined.

Lemma same_root_refl (a : jsstring * Handler) : same_root a a = true.
Proof.
  destruct a as [n h]. unfold same_root. cbn [fst snd]. rewrite eqb_refl.
  destruct h; reflexivity.
Qed.

Lemma remove_first_skip {A} (p : A -> bool) (pre post : list A) (a : A) :
  Forall (fun x => p x = false) pre -> p a = true ->
  remove_first p (pre ++ a :: post) = pre ++ post.
Proof.
  intros H Ha. induction H as [|x pre Hx _ IH]; simpl.
  - now rewrite Ha.
  - now rewrite Hx, IH.
Qed.

(** [$off] undoes the latest [$on] of the same handler. *)
Lemma root_off_latest (a : jsstring * Handler) (l rest : list (jsstring * Handler)) :
  Forall (fun x => same_root a x = false) rest ->
  without_latest a (l ++ a :: rest) = l ++ rest.
Proof.
  intros H. unfold without_latest. rewrite rev_app_distr. cbn [List.rev]. rewrite <- app_assoc.
  change ([a] ++ List.rev l) with (a :: List.rev l). rewrite remove_first_skip.
  - now rewrite rev_app_distr, !rev_involutive.
  - apply Forall_rev. exact H.
  - apply same_root_refl.
Qed.

Lemma eventOff_rootListeners (el : elem) (ty : EventType) (s : State) :
  rootListeners (eventOff el ty s) = rootListeners s.
Proof. reflexivity. Qed.

Lemma rootChannel_ext (c : string) (s s' : State) :
  props s' = props s -> rootChannel c s' = rootChannel c s.
Proof. intros P. unfold rootChannel, templateTypeName. now rewrite P. Qed.

Lemma listen_rootListeners (s : State) (host : elem) :
  getTarget s = Some host ->
  rootListeners (listen s)
  = rootListeners s
      ++ [(rootChannel "hide" s, H_doHide); (rootChannel "show" s, H_doShow);
          (rootChannel "disable" s, H_doDisable);
          (rootChannel "enable" s, H_doEnable)].
Proof.
  intros T. unfold listen. rewrite T.
  rewrite (fold_keeps rootListeners).
  - unfold setRootListener, root_method, root_on. fields.
    rewrite <- !app_assoc. reflexivity.
  - intros s' a.
    repeat match goal with
           | |- context [if JsString.eqb ?a ?b then _ else _] =>
               destruct (JsString.eqb a b)
           end;
      unfold eventOn;
      repeat match goal with
             | |- context [existsb ?p ?l] => destruct (existsb p l)
             end; reflexivity.
Qed.

Lemma setRootListener_off (s : State) :
  rootListeners (setRootListener false s)
  = without_latest (rootChannel "enable" s, H_doEnable)
      (without_latest (rootChannel "disable" s, H_doDisable)
         (without_latest (rootChannel "show" s, H_doShow)
            (without_latest (rootChannel "hide" s, H_doHide) (rootListeners s)))).
Proof. reflexivity. Qed.

(** X5: with a resolved host, [unListen] leaves no listener on the host
    and keeps those on other elements; after [listen], it leaves the
    handlers registered on [$root] as they were before [listen]. *)
Theorem unListen_removes (s : State) (host : elem) :
  getTarget s = Some host ->
  (forall e ty,
     In (e, ty) (domListeners (unListen s))
     <-> e <> host /\ In (e, ty) (domListeners s))
  /\ rootListeners (unListen (listen s)) = rootListeners s.
Proof.
  intros T. split.
  - intros e ty. unfold unListen. rewrite T. cbn [fold_left].
    unfold setRootListener, root_method, root_off, eventOff. fields.
    rewrite !filter_In. unfold same_listener. cbn [fst snd].
    destruct (host =? e) eqn:E.
    + apply Nat.eqb_eq in E. subst e.
      destruct ty; cbn; split; intros H; try tauto;
        decompose [and] H; try discriminate; congruence.
    + apply Nat.eqb_neq in E. cbn. split; intros H.
      * split; [congruence | tauto].
      * tauto.
  - pose proof (listen_listeners_only s) as L. unfold listeners_only in L.
    assert (P : props (listen s) = props s) by (rewrite L; reflexivity).
    assert (D : dom (listen s) = dom s) by (rewrite L; reflexivity).
    pose proof (listen_rootListeners s T) as R.
    assert (T' : getTarget (listen s) = Some host)
      by (rewrite (getTarget_ext _ _ P D); exact T).
    generalize dependent (listen s). intros s1 _ P D R T'.
    unfold unListen. rewrite T'. cbn [fold_left].
    match goal with |- context [setRootListener false ?x] => set (X := x) end.
    assert (PX : props X = props s) by (subst X; exact P).
    assert (RX : rootListeners X = rootListeners s1) by reflexivity.
    rewrite setRootListener_off, RX, R, !(rootChannel_ext _ _ _ PX).
    repeat (rewrite root_off_latest;
            [|repeat constructor; unfold same_root; cbn [fst snd handler_eqb];
              apply andb_false_r]).
    apply app_nil_r.
Qed.

Lemma unListen_removes_witness :
  domListeners (unListen Example.hovering) = []
  /\ rootListeners (unListen Example.hovering) = [].
Proof.
  set (s := set__visibleInterval HNull
              (set__hoverTimeout HNull
                 (set__tip None
                    (instantiate
                       (Example.config (VStr (str "hover focus")) Example.delay_100_50)
                       Example.page Example.nobody true)))).
  destruct (@unListen_removes s Example.host eq_refl) as [_ H].
  split; [vm_compute; reflexivity | exact H].
Defined.

(** *** Scenarios *)

Lemma dropdownOpen_ext (s s' : State) :
  props s' = props s -> dom s' = dom s -> dropdownOpen s' = dropdownOpen s.
Proof.
  intros P D. unfold dropdownOpen, isDropdown.
  now rewrite (getTarget_ext _ _ P D), D.
Qed.

Lemma showable_ext (s s' : State) (host : elem) :
  props s' = props s -> dom s' = dom s -> showable s host -> showable s' host.
Proof.
  intros P D (T & B & V & Dd). unfold showable.
  now rewrite (getTarget_ext _ _ P D), (dropdownOpen_ext _ _ P D), D.
Qed.

Lemma advance_no_timers (fuel t : nat) (s : State) :
  timers s = [] ->
  localShow (advance fuel t s) = localShow s /\ _tip (advance fuel t s) = _tip s.
Proof.
  intros H. destruct fuel as [|fuel]; cbn [advance]; [auto|].
  unfold next_due. rewrite H. cbn. auto.
Qed.

(** X25: on a controller at rest with the hover trigger and a show
    delay [d] between 1 and 2^31 - 1 (the range in which the host takes
    the delay as it is), a mouseenter schedules one show timer due [d]
    later and shows nothing yet; once the clock reaches that time, the
    overlay is shown, provided the host passes the guards of [show] and
    the [show] event is not cancelled. *)
Theorem delayed_show_fires (s : State) (host : elem) (evt : Event) (d : Z) :
  idle s -> listening s host -> showable s host ->
  prevents s BvShow = false ->
  ev_type evt = EvMouseenter ->
  arrayIncludes (computedTriggers s) (str "hover") = true ->
  delay_show (computedDelay s) = Int d -> (0 < d <= 2147483647)%Z ->
  let s1 := state_of (handleEvent evt s) in
  timers s1 = [mkTimer (next_timer s) (now s + Z.to_nat d) CbShow None]
  /\ closed s1
  /\ forall fuel t, now s + Z.to_nat d <= t ->
       localShow (advance (S fuel) t s1) = true
       /\ _tip (advance (S fuel) t s1) = Some (mkTip None false).
Proof.
  intros ((L & Tp) & Hs & Tm & A) (T & Dis & En & Dd) Sh P Ty Hov Dl Hd.
  cbv zeta.
  assert (E1 : handleEvent evt s
               = Ok tt (set_hoverTimeout (HTimer (next_timer s))
                          (set_next_timer (S (next_timer s))
                             (set_timers
                                [mkTimer (next_timer s) (now s + Z.to_nat d) CbShow None]
                                (set_hoverState HoverIn
                                   (set_activeTrigger
                                      (mkActive true false false false) s)))))).
  { unfold handleEvent. rewrite T, Dis, En, Dd, Ty, Hov. cbn [negb orb].
    unfold enter. rewrite Ty. cbn [evtype_eqb]. fields.
    rewrite L, Hs, A. cbn [orb hover_eqb]. rewrite clearTimeout_as_set. fields.
    match goal with |- context [computedDelay ?x] =>
      change (computedDelay x) with (computedDelay s) end.
    rewrite Dl. cbn [num_truthy]. rewrite timeout_ms_small by lia.
    assert (Z : (d =? 0)%Z = false) by (apply Z.eqb_neq; lia).
    rewrite Z. cbn [negb]. unfold setTimeout. fields. rewrite Tm.
    destruct (hoverTimeout s); reflexivity. }
  rewrite E1. cbn [state_of]. clear E1.
  match goal with |- timers ?x = _ /\ _ => set (S1 := x) end.
  split; [reflexivity|]. split; [split; assumption|].
  intros fuel t Ht.
  set (tm := mkTimer (next_timer s) (now s + Z.to_nat d) CbShow None).
  assert (N : next_due t S1 = Some tm).
  { unfold next_due. subst S1. fields. cbn [earliest fold_left tm_due].
    apply Nat.leb_le in Ht. now rewrite Ht. }
  cbn [advance]. rewrite N. unfold fire.
  cbn [tm tm_every tm_cb tm_id tm_due].
  match goal with |- context [run_callback CbShow ?x] => set (X := x) end.
  assert (HX : hoverState X = HoverIn) by reflexivity.
  assert (TX : timers X = []).
  { subst X S1. fields. cbn [filter tm_id]. now rewrite Nat.eqb_refl. }
  assert (SX : showable X host)
    by (apply (@showable_ext s X host); [reflexivity | reflexivity | exact Sh]).
  assert (PX : prevents X BvShow = false) by exact P.
  unfold run_callback. rewrite HX. cbn [hover_eqb].
  destruct (show_open_state SX PX) as (s' & E & L' & T' & _ & _ & _ & Tm' & _).
  rewrite E. cbn [state_of].
  destruct (@advance_no_timers fuel t s') as [-> ->]; [congruence|].
  auto.
Qed.

Lemma delayed_show_fires_witness :
  let s1 := state_of (handleEvent Example.mouseenter Example.hovering) in
  localShow (advance 1 100 s1) = true.
Proof.
  cbv zeta.
  assert (I : idle Example.hovering) by (repeat split).
  assert (L : listening Example.hovering Example.host) by (repeat split).
  assert (S : showable Example.hovering Example.host) by (repeat split).
  pose proof (@delayed_show_fires Example.hovering Example.host Example.mouseenter
                100%Z I L S eq_refl eq_refl eq_refl eq_refl
                ltac:(lia)) as H.
  cbv zeta in H. destruct H as (_ & _ & H).
  destruct (H 0 100) as [H1 _]; [vm_compute; lia | exact H1].
Defined.

(** X26: with the click trigger and no delay, on a controller at rest
    whose host passes the guards and whose listeners cancel nothing, a
    first click shows the overlay with the click trigger active, and a
    second click, once the template has mounted, tells it to hide and
    releases every trigger. *)
Theorem click_opens_then_closes (s : State) (host el : elem) (c1 c2 : Event) :
  idle s -> listening s host -> showable s host ->
  prevents s BvShow = false -> prevents s BvHide = false ->
  ev_type c1 = EvClick -> ev_type c2 = EvClick ->
  arrayIncludes (computedTriggers s) (str "click") = true ->
  computedDelay s = mkDelay (Int 0) (Int 0) ->
  let s1 := state_of (handleEvent c1 s) in
  let s2 := state_of (handleEvent c2 (templateMounted el s1)) in
  (localShow s1 = true /\ _tip s1 = Some (mkTip None false)
   /\ activeTrigger s1 = mkActive false true false false)
  /\ hiding s2 el.
Proof.
  intros ((L & Tp) & Hs & Tm & A) (T & Dis & En & Dd) Sh P Ph Ty1 Ty2 Inc Dl.
  cbv zeta.
  (* the first click *)
  set (X := set_hoverState HoverIn
              (set_timers
                 match hoverTimeout s with
                 | HTimer id => filter (fun t => negb (tm_id t =? id)) (timers s)
                 | _ => timers s
                 end
                 (set_activeTrigger (mkActive false true false false) s))).
  assert (E1 : handleEvent c1 s = show X).
  { unfold handleEvent. rewrite T, Dis, En, Dd, Ty1, Inc. cbn [negb orb].
    unfold click. rewrite En, Dd. cbn [negb orb].
    unfold isWithActiveTrigger. fields. rewrite A. cbn [negb orb at_click at_hover at_focus at_manual].
    unfold enter. fields. rewrite L, Hs. cbn [orb hover_eqb].
    rewrite clearTimeout_as_set. fields.
    match goal with |- context [computedDelay ?x] =>
      change (computedDelay x) with (computedDelay s) end.
    rewrite Dl. cbn [delay_show num_truthy Z.eqb negb]. reflexivity. }
  assert (SX : showable X host)
    by (apply (@showable_ext s X host); [reflexivity | reflexivity | exact Sh]).
  assert (PX : prevents X BvShow = false) by exact P.
  destruct (show_open_state SX PX)
    as (s1 & E & L1 & T1 & _ & _ & _ & _ & A1 & H1).
  rewrite E1, E. cbn [state_of].
  destruct (show_keeps X) as (_ & _ & _ & _ & En1). rewrite E in En1.
  cbn [state_of] in En1.
  assert (K : props s1 = props s /\ dom s1 = dom s /\ prevents s1 = prevents s).
  { assert (Q : s1 = state_of (show X)) by (rewrite E; reflexivity).
    rewrite Q. unfold show.
    destruct SX as (TX & BX & VX & DX). rewrite TX, BX, VX, DX. cbn [negb orb].
    unfold emitEvent, buildEvent. cbn [bv_cancelable bv_type]. rewrite PX.
    cbn [andb state_of].
    unfold createTemplateAndShow, fixTitle, addAriaDescribedby, setAttr.
    match goal with |- context [match getTarget ?y with _ => _ end] =>
      destruct (getTarget y) end; repeat split. }
  destruct K as (P1 & D1 & V1).
  split; [repeat split; [exact L1 | exact T1 | rewrite A1; reflexivity]|].
  (* the second click, once the template has mounted *)
  set (m := templateMounted el s1).
  assert (Mt : _tip m = Some (mkTip (Some el) false))
    by (subst m; unfold templateMounted; rewrite T1; reflexivity).
  assert (Mf : m = set__tip (Some (mkTip (Some el) false)) s1)
    by (subst m; unfold templateMounted; rewrite T1; reflexivity).
  assert (Pm : props m = props s) by (rewrite Mf; exact P1).
  assert (Dm : dom m = dom s) by (rewrite Mf; exact D1).
  unfold handleEvent.
  rewrite (getTarget_ext _ _ Pm Dm), T, Dm, Dis, (dropdownOpen_ext _ _ Pm Dm), Dd.
  assert (Em : enabled m = true) by (rewrite Mf; fields; rewrite En1; exact En).
  rewrite Em, Ty2. cbn [negb orb].
  assert (Cm : computedTriggers m = computedTriggers s)
    by (unfold computedTriggers; now rewrite Pm).
  rewrite Cm, Inc. unfold click.
  rewrite Em, (dropdownOpen_ext _ _ Pm Dm), Dd. cbn [negb orb].
  assert (Am : activeTrigger m = mkActive false true false false)
    by (rewrite Mf; fields; rewrite A1; reflexivity).
  unfold isWithActiveTrigger. fields. rewrite Am.
  cbn [negb orb at_click at_hover at_focus at_manual state_of].
  unfold leave, isWithActiveTrigger. fields. cbn [orb].
  rewrite clearTimeout_as_set. fields.
  match goal with |- context [computedDelay ?x] =>
    assert (Dx : computedDelay x = computedDelay s)
      by (unfold computedDelay; fields; now rewrite Pm);
    rewrite Dx end.
  rewrite Dl. cbn [delay_hide num_truthy Z.eqb negb].
  apply hide_open.
  - unfold getTemplateElement. fields. rewrite Mt. reflexivity.
  - fields. rewrite Mf. exact L1.
  - fields. rewrite Mf. fields. rewrite V1. cbn [negb andb]. exact Ph.
Qed.

Lemma click_opens_then_closes_witness :
  let s := Example.controller
             (Example.config (VStr (str "click")) (VNum (Int 0))) Example.nobody in
  let c := mkEvent EvClick (Some Example.host) None in
  let s1 := state_of (handleEvent c s) in
  hiding (state_of (handleEvent c (templateMounted Example.tipEl s1))) Example.tipEl.
Proof.
  cbv zeta.
  match goal with |- hiding (state_of (handleEvent ?c (templateMounted _ (state_of (handleEvent _ ?s))))) _ =>
    assert (I : idle s) by (repeat split);
    assert (L : listening s Example.host) by (repeat split);
    assert (S : showable s Example.host) by (repeat split);
    pose proof (@click_opens_then_closes s Example.host Example.tipEl c c
                  I L S eq_refl eq_refl eq_refl eq_refl eq_refl eq_refl) as H
  end.
  cbv zeta in H. exact (proj2 H).
Defined.

(** *** More on the trigger configuration and the dispatch of events *)

Lemma lower_char_idem (c : ascii) : lower_char (lower_char c) = lower_char c.
Proof. destruct c as [[] [] [] [] [] [] [] []]; vm_compute; reflexivity. Qed.

Lemma toLowerCase_idem (x : jsstring) : toLowerCase (toLowerCase x) = toLowerCase x.
Proof.
  unfold toLowerCase. rewrite map_map. apply map_ext. apply lower_char_idem.
Qed.

(** X2: an array of triggers gives the same tokens as the string made of
    its truthy entries joined by spaces, in lower case: falsy entries are
    dropped and the configuration is case-insensitive. *)
Theorem triggers_forms_agree (s s' : State) (vs : list value) :
  triggers (props s) = VArr vs ->
  triggers (props s')
  = VStr (toLowerCase (join sp (map join_entry (filter truthy vs)))) ->
  computedTriggers s = computedTriggers s'.
Proof.
  intros H H'. unfold computedTriggers. rewrite H, H'. cbn [concat].
  set (J := join sp (map join_entry (filter truthy vs))).
  destruct (toLowerCase J) as [|c r] eqn:E; [reflexivity|].
  assert (I : toLowerCase (c :: r) = c :: r)
    by (rewrite <- E; apply toLowerCase_idem).
  cbn [filter truthy isEmpty negb map join_entry toString join].
  now rewrite I.
Qed.

Lemma triggers_forms_agree_witness :
  computedTriggers
    (Example.controller
       (Example.config (VArr [VStr (str "Click"); VNull; VStr (str "HOVER")])
          (VNum (Int 0))) Example.nobody)
  = computedTriggers
      (Example.controller
         (Example.config (VStr (str "click hover")) (VNum (Int 0))) Example.nobody).
Proof.
  apply (@triggers_forms_agree _ _ [VStr (str "Click"); VNull; VStr (str "HOVER")]);
    reflexivity.
Defined.

(** X6: an event whose trigger is not configured (click without
    click, mouseenter or mouseleave without hover, focusin without focus,
    focusout without focus and blur) leaves the instance unchanged. *)
Theorem unconfigured_events_ignored (s : State) (evt : Event) :
  let has t := arrayIncludes (computedTriggers s) t in
  match ev_type evt with
  | EvClick => has (str "click")
  | EvMouseenter | EvMouseleave => has (str "hover")
  | EvFocusin => has (str "focus")
  | EvFocusout => has (str "focus") || has (str "blur")
  end = false ->
  handleEvent evt s = Ok tt s.
Proof.
  cbv zeta. intros H. unfold handleEvent.
  destruct (getTarget s) as [h|]; [|reflexivity].
  destruct (isDisabled (dom s) h || negb (enabled s) || dropdownOpen s);
    [reflexivity|].
  destruct (ev_type evt); rewrite H; reflexivity.
Qed.

Lemma unconfigured_events_ignored_witness :
  handleEvent (mkEvent EvClick (Some Example.host) None) Example.hovering
  = Ok tt Example.hovering.
Proof.
  apply (@unconfigured_events_ignored Example.hovering
           (mkEvent EvClick (Some Example.host) None)).
  reflexivity.
Defined.

(** X7: a focusout whose target and related target both lie within
    the host or the open overlay leaves the instance unchanged. *)
Theorem focus_within_keeps_open (s : State) (evt : Event) (host tip a b : elem) :
  getTarget s = Some host ->
  getTemplateElement s = Some tip ->
  ev_type evt = EvFocusout ->
  ev_target evt = Some a -> ev_relatedTarget evt = Some b ->
  (contains (dom s) host a = true \/ contains (dom s) tip a = true) ->
  (contains (dom s) host b = true \/ contains (dom s) tip b = true) ->
  handleEvent evt s = Ok tt s.
Proof.
  intros T Tp Ty Ea Eb Ha Hb. unfold handleEvent. rewrite T, Ty.
  destruct (isDisabled (dom s) host || negb (enabled s) || dropdownOpen s);
    [reflexivity|].
  destruct (arrayIncludes (computedTriggers s) (str "focus")
            || arrayIncludes (computedTriggers s) (str "blur")); [|reflexivity].
  unfold focus_stays. rewrite Tp, Ea, Eb. cbn [contains_opt].
  destruct Ha as [-> | ->], Hb as [-> | ->];
    rewrite ?andb_true_r, ?orb_true_r; cbn [andb orb];
    rewrite ?orb_true_r; reflexivity.
Qed.

Lemma focus_within_keeps_open_witness :
  let into_tip := mkEvent EvFocusout (Some Example.host) (Some Example.tipEl) in
  handleEvent into_tip Example.open_tooltip = Ok tt Example.open_tooltip.
Proof.
  cbv zeta.
  apply (@focus_within_keeps_open Example.open_tooltip
           (mkEvent EvFocusout (Some Example.host) (Some Example.tipEl))
           Example.host Example.tipEl Example.host Example.tipEl);
    try reflexivity; [left | right]; reflexivity.
Defined.

(** X22: on an open overlay, [toggle] changes nothing while some
    trigger is active; when none is, with no hide delay and [hide] not
    cancelled, it tells the template to hide. *)
Theorem toggle_behaviour (s : State) (el : elem) :
  enabled s = true -> dropdownOpen s = false -> open_on s el ->
  (isWithActiveTrigger s = true -> toggle s = Ok tt s)
  /\ (isWithActiveTrigger s = false ->
      num_truthy (delay_hide (computedDelay s)) = false ->
      prevents s BvHide = false ->
      hiding (state_of (toggle s)) el).
Proof.
  intros En Dd [T L]. unfold toggle. rewrite En, Dd, L. cbn [negb orb].
  unfold leave. split.
  - intros A. now rewrite A.
  - intros A Dl P. rewrite A, clearTimeout_as_set. cbn [state_of]. fields.
    match goal with |- context [computedDelay ?x] =>
      change (computedDelay x) with (computedDelay s) end.
    rewrite Dl. cbn [negb]. apply hide_open; [exact T | exact L | exact P].
Qed.

Lemma toggle_behaviour_witness :
  toggle Example.open_tooltip = Ok tt Example.open_tooltip.
Proof.
  destruct (@toggle_behaviour Example.open_tooltip Example.tipEl
              eq_refl eq_refl (conj eq_refl eq_refl)) as [H _].
  apply H. reflexivity.
Defined.

End BVTooltipMore.

(* ================================================================= *)
(** ** Runs of the timer loop *)

Module BVTooltipRuns.

Import BVTooltip JsStringFacts BVTooltipFacts BVTooltipMore.

(** *** Which timer runs next *)

Lemma earliest_fold (l : list Timer) (acc : option Timer) :
  match fold_left
          (fun best t =>
             match best with
             | None => Some t
             | Some b => if earlier b t then Some b else Some t
             end) l acc with
  | Some b =>
      (forall x, In x l -> tm_due b <= tm_due x)
      /\ (forall a, acc = Some a -> tm_due b <= tm_due a)
  | None => l = [] /\ acc = None
  end.
Proof.
  revert acc. induction l as [|y l IH]; intros acc; cbn [fold_left].
  - destruct acc as [a|]; [|auto]. split; [intros x []|].
    intros a' [= ->]. lia.
  - match goal with |- context [fold_left _ l ?a] => specialize (IH a) end.
    destruct (fold_left _ l _) as [b|].
    + destruct IH as [H1 H2]. split.
      * intros x [<- | Hx]; [|auto].
        destruct acc as [a|]; [|apply H2; reflexivity].
        destruct (earlier a y) eqn:E.
        -- specialize (H2 a eq_refl). unfold earlier in E.
           apply orb_true_iff in E as [E | E].
           ++ apply Nat.ltb_lt in E. lia.
           ++ apply andb_true_iff in E as [E _]. apply Nat.eqb_eq in E. lia.
        -- apply H2. reflexivity.
      * intros a ->. destruct (earlier a y) eqn:E; [apply H2; reflexivity|].
        specialize (H2 y eq_refl). unfold earlier in E.
        apply orb_false_iff in E as [E1 E2]. apply Nat.ltb_ge in E1. lia.
    + destruct IH as [_ H]. destruct acc as [a|]; [|discriminate].
      destruct (earlier a y); discriminate.
Qed.

Lemma next_due_none (t : nat) (s : State) (x : Timer) :
  next_due t s = None -> In x (timers s) -> t < tm_due x.
Proof.
  unfold next_due, earliest. intros H Hin.
  pose proof (earliest_fold (timers s) None) as F.
  destruct (fold_left _ (timers s) None) as [b|].
  - destruct F as [F _]. specialize (F x Hin).
    destruct (tm_due b <=? t) eqn:L; [discriminate|].
    apply Nat.leb_gt in L. lia.
  - destruct F as [F _]. rewrite F in Hin. destruct Hin.
Qed.

(** *** The timer table across a task *)

Lemma tasks_filter_le (w : Timer -> nat) (p : Timer -> bool) (l : list Timer) :
  list_sum (map w (filter p l)) <= list_sum (map w l).
Proof.
  induction l as [|z l IH]; simpl; [lia|]. destruct (p z); simpl; lia.
Qed.

Lemma tasks_filter_out (w : Timer -> nat) (p : Timer -> bool) (l : list Timer)
    (x : Timer) :
  In x l -> p x = false ->
  list_sum (map w (filter p l)) + w x <= list_sum (map w l).
Proof.
  induction l as [|y l IH]; intros Hin Hp; [destruct Hin|].
  simpl. destruct Hin as [-> | Hin].
  - rewrite Hp. pose proof (tasks_filter_le w p l). lia.
  - specialize (IH Hin Hp). destruct (p y); simpl; lia.
Qed.

Lemma setModalListener_timers (on : bool) (s : State) :
  timers (setModalListener on s) = timers s.
Proof.
  unfold setModalListener. destruct (isInModal s); [|reflexivity].
  destruct on; reflexivity.
Qed.

Lemma setDropdownListener_timers (on : bool) (s : State) :
  timers (setDropdownListener on s) = timers s.
Proof.
  unfold setDropdownListener. destruct (getTarget s); [|reflexivity].
  destruct (hasVue (dom s) e); [|reflexivity]. destruct on; reflexivity.
Qed.

Lemma setOnTouchStartListener_timers (on : bool) (s : State) :
  timers (setOnTouchStartListener on s) = timers s.
Proof.
  unfold setOnTouchStartListener. destruct (touch (dom s)); [|reflexivity].
  generalize (bodyChildren (dom s)). intros l. revert s.
  induction l as [|el l IH]; intros s; cbn [fold_left]; [reflexivity|].
  rewrite IH. destruct on; [|reflexivity].
  destruct (existsb _ _); reflexivity.
Qed.

Lemma clearTimeout_timers (h : handle) (s : State) :
  exists p, timers (clearTimeout h s) = filter p (timers s).
Proof.
  destruct h; try (exists (fun _ => true); cbn [clearTimeout];
                   symmetry; apply forallb_filter_id; now apply forallb_forall).
  eexists. reflexivity.
Qed.

Lemma filter_filter (p q : Timer -> bool) (l : list Timer) :
  filter p (filter q l) = filter (fun x => q x && p x) l.
Proof.
  induction l as [|x l IH]; [reflexivity|]. cbn [filter].
  destruct (q x); cbn [filter andb]; [destruct (p x)|]; now rewrite IH.
Qed.

Lemma hide_timers (f : bool) (s : State) : timers (hide f s) = timers s.
Proof.
  destruct (hide_cases f s) as [-> | [-> | ->]]; try reflexivity.
  unfold hideTemplate, clearActiveTriggers, emitEvent. cbn [snd]. fields.
  destruct (_tip s); reflexivity.
Qed.

Lemma forceHide_timers (s : State) :
  exists p, timers (forceHide s) = filter p (timers s).
Proof.
  assert (I : exists p, timers s = filter p (timers s)).
  { exists (fun _ => true). symmetry. apply forallb_filter_id.
    now apply forallb_forall. }
  unfold forceHide. destruct (getTemplateElement s); [|exact I].
  destruct (localShow s); [|exact I]. cbn [negb]. cbv iota.
  rewrite hide_timers. unfold clearActiveTriggers. fields.
  match goal with |- context [clearTimeout ?h ?y] =>
    destruct (clearTimeout_timers h y) as [p ->] end.
  unfold setWhileOpenListeners.
  rewrite setOnTouchStartListener_timers. unfold visibleCheck. fields.
  match goal with |- context [clearInterval ?h ?y] =>
    destruct (clearTimeout_timers h y) as [q Q] end.
  unfold clearInterval. rewrite Q.
  rewrite setDropdownListener_timers, setModalListener_timers.
  rewrite filter_filter. eexists. reflexivity.
Qed.

Lemma run_callback_timers (cb : Callback) (s : State) :
  exists p, timers (state_of (run_callback cb s)) = filter p (timers s).
Proof.
  assert (I : exists p, timers s = filter p (timers s)).
  { exists (fun _ => true). symmetry. apply forallb_filter_id.
    now apply forallb_forall. }
  unfold run_callback. destruct cb.
  - destruct (hover_eqb _ _); [|exact I].
    destruct (show_keeps s) as (_ & _ & -> & _). exact I.
  - destruct (hover_eqb _ _); [|exact I]. cbn [state_of].
    rewrite hide_timers. exact I.
  - destruct (getTemplateElement s); [|exact I].
    destruct (_ && _); [|exact I]. apply forceHide_timers.
Qed.

(** A task is a callback run on the table from which the timer has been
    dropped or re-armed. *)
Lemma fire_unfold (x : Timer) (s : State) :
  fire x s
  = state_of
      (run_callback (tm_cb x)
         (set_timers
            (filter (fun t => negb (tm_id t =? tm_id x)) (timers s)
             ++ match tm_every x with
                | None => []
                | Some p => [mkTimer (tm_id x) (tm_due x + p) (tm_cb x) (Some p)]
                end)
            (set_now (Nat.max (now s) (tm_due x)) s))).
Proof.
  unfold fire. destruct (tm_every x); fields; [reflexivity|].
  now rewrite app_nil_r.
Qed.

Lemma fire_timers (x : Timer) (s : State) :
  exists p,
    timers (fire x s)
    = filter p
        (filter (fun t => negb (tm_id t =? tm_id x)) (timers s)
         ++ match tm_every x with
            | None => []
            | Some q => [mkTimer (tm_id x) (tm_due x + q) (tm_cb x) (Some q)]
            end).
Proof.
  rewrite fire_unfold.
  match goal with |- context [run_callback ?cb ?y] =>
    destruct (run_callback_timers cb y) as [p ->] end.
  exists p. reflexivity.
Qed.

(** Every task uses up some of the bound. *)
Lemma fire_tasks (t : nat) (x : Timer) (s : State) :
  In x (timers s) -> tm_due x <= t ->
  Forall (fun y => tm_every y <> Some 0) (timers s) ->
  tasks_until t (fire x s) < tasks_until t s
  /\ Forall (fun y => tm_every y <> Some 0) (timers (fire x s)).
Proof.
  intros Hin Hd Hp. unfold tasks_until.
  destruct (fire_timers x s) as [p ->].
  set (w := fun y => S t - tm_due y).
  assert (X : tm_every x <> Some 0) by (rewrite Forall_forall in Hp; auto).
  pose proof (@tasks_filter_out w (fun y => negb (tm_id y =? tm_id x))
                (timers s) x Hin) as O.
  cbv beta in O. rewrite Nat.eqb_refl in O. specialize (O eq_refl).
  split.
  - eapply Nat.le_lt_trans; [apply tasks_filter_le|].
    rewrite map_app, list_sum_app.
    assert (W : forall q, q <> 0 ->
                w (mkTimer (tm_id x) (tm_due x + q) (tm_cb x) (Some q)) < w x)
      by (intros q Hq; unfold w; cbn [tm_due]; lia).
    assert (W1 : 1 <= w x) by (unfold w; lia).
    clearbody w.
    destruct (tm_every x) as [q|]; simpl.
    + specialize (W q ltac:(congruence)). lia.
    + lia.
  - apply Forall_forall. intros y Hy. apply filter_In in Hy as [Hy _].
    apply in_app_or in Hy as [Hy | Hy].
    + apply filter_In in Hy as [Hy _]. rewrite Forall_forall in Hp. auto.
    + destruct (tm_every x) as [q|]; [|destruct Hy].
      destruct Hy as [<- | []]. cbn [tm_every]. congruence.
Qed.

(** *** A pending hide timer closes the overlay *)

Lemma hide_localShow (f : bool) (s : State) : localShow (hide f s) = localShow s.
Proof.
  destruct (hide_cases f s) as [-> | [-> | ->]]; try reflexivity.
  unfold hideTemplate, clearActiveTriggers, emitEvent. cbn [snd]. fields.
  destruct (_tip s); reflexivity.
Qed.

Lemma forceHide_localShow (s : State) : localShow (forceHide s) = localShow s.
Proof.
  unfold forceHide. destruct (getTemplateElement s); [|reflexivity].
  destruct (localShow s) eqn:L; [|assumption]. cbn [negb]. cbv iota.
  rewrite hide_localShow, clearTimeout_as_set. unfold clearActiveTriggers. fields.
  pose proof (core_fields (setWhileOpenListeners_core false s))
    as (_ & _ & _ & _ & _ & HL & _).
  now rewrite HL.
Qed.

Lemma closing_open (s : State) (el : elem) : closing s el -> open_on s el.
Proof.
  intros [(T & _) L]. split; [|exact L].
  unfold getTemplateElement. now rewrite T.
Qed.

Lemma forceHide_closing (s : State) (el : elem) :
  open_on s el -> closing (forceHide s) el.
Proof.
  intros O. split; [now apply forceHide_open|].
  rewrite forceHide_localShow. apply O.
Qed.

Lemma hide_closing (s : State) (el : elem) :
  open_on s el -> prevents s BvHide = false -> closing (hide false s) el.
Proof.
  intros [T L] P. split; [now apply hide_open|].
  now rewrite hide_localShow.
Qed.

(** Once the overlay is told to hide, no timer task opens it again. *)
Lemma closing_stays (x : Timer) (s : State) (el : elem) :
  closing s el -> closing (fire x s) el.
Proof.
  intros C. pose proof C as [(T & H & A) L]. rewrite fire_unfold.
  match goal with |- context [run_callback _ ?y] => set (X := y) end.
  assert (CX : closing X el) by exact C.
  assert (HX : hoverState X = HoverNone) by exact H.
  unfold run_callback. destruct (tm_cb x).
  - rewrite HX. exact CX.
  - rewrite HX. exact CX.
  - destruct (getTemplateElement X); [|exact CX].
    destruct (_ && _); [|exact CX]. cbn [state_of].
    apply forceHide_closing, closing_open, CX.
Qed.

(** While the hide timer is pending, a timer task leaves it pending or
    tells the overlay to hide; the task of the hide timer itself tells
    the overlay to hide. *)
Lemma hide_pending_step (tm x : Timer) (s : State) (el : elem) :
  tm_cb tm = CbHide ->
  hide_pending tm el s -> In x (timers s) ->
  (hide_pending tm el (fire x s) /\ x <> tm) \/ closing (fire x s) el.
Proof.
  intros Cb (Hin & U & O & H & P) Hx. rewrite fire_unfold.
  match goal with |- context [run_callback _ ?y] => set (X := y) end.
  assert (OX : open_on X el) by exact O.
  assert (HX : hoverState X = HoverOut) by exact H.
  assert (PX : prevents X BvHide = false) by exact P.
  pose proof (@hide_closing X el OX PX) as Hide.
  destruct (tm_id x =? tm_id tm) eqn:Id.
  - (* the hide timer itself *)
    apply Nat.eqb_eq in Id. rewrite Forall_forall in U.
    rewrite (U x Hx Id), Cb. right. unfold run_callback.
    rewrite HX. exact Hide.
  - (* another timer: the hide timer stays in the table *)
    assert (N : x <> tm) by (intros ->; now rewrite Nat.eqb_refl in Id).
    assert (PendX : hide_pending tm el X).
    { split; [|split; [|split; [exact OX | split; [exact HX | exact PX]]]].
      - subst X. fields. apply in_or_app. left. apply filter_In.
        split; [exact Hin|]. rewrite Nat.eqb_sym, Id. reflexivity.
      - subst X. fields. apply Forall_app. split.
        + apply Forall_forall. intros y Hy. apply filter_In in Hy as [Hy _].
          rewrite Forall_forall in U. auto.
        + destruct (tm_every x); [|constructor].
          constructor; [|constructor]. cbn [tm_id]. intros E.
          apply Nat.eqb_neq in Id. congruence. }
    unfold run_callback. destruct (tm_cb x).
    + rewrite HX. left. split; [exact PendX | exact N].
    + rewrite HX. right. exact Hide.
    + destruct (getTemplateElement X); [|left; split; [exact PendX | exact N]].
      destruct (_ && _); [|left; split; [exact PendX | exact N]].
      right. now apply forceHide_closing.
Qed.

(** With fuel for every task that is due, the run ends with the overlay
    told to hide. *)
Lemma run_closes (tm : Timer) (el : elem) (t : nat) :
  tm_cb tm = CbHide -> tm_due tm <= t ->
  forall fuel s,
    hide_pending tm el s \/ closing s el ->
    Forall (fun y => tm_every y <> Some 0) (timers s) ->
    tasks_until t s < fuel ->
    closing (advance fuel t s) el.
Proof.
  intros Cb Due. induction fuel as [|fuel IH]; intros s J Pos B; [lia|].
  cbn [advance]. destruct (next_due t s) as [x|] eqn:N.
  - apply next_due_In in N as [Hx Hd].
    destruct (@fire_tasks t x s Hx Hd Pos) as [B' Pos'].
    apply IH; [|exact Pos' | lia].
    destruct J as [J | J].
    + destruct (@hide_pending_step tm x s el Cb J Hx) as [[J' _] | J']; auto.
    + right. now apply closing_stays.
  - destruct J as [(Hin & _) | J]; [|exact J].
    pose proof (@next_due_none t s tm N Hin). lia.
Qed.

(** C8: when the triggers include [blur] and [handleEvent] receives a
    focusout that does not stay within the host and the overlay, the
    click, hover and focus triggers are all released; so, [manual]
    never being set, the closing half of [leave] runs whatever was
    active before.  Without a hide delay, an open overlay whose [hide]
    notification is not cancelled is told to hide at once.  With a hide
    delay a hide timer is scheduled, and the overlay is told to hide
    when the task of that timer runs; it does run: whatever other
    timers are pending, once the clock has reached the time the hide
    timer is due and the due tasks have run, the overlay has been told
    to hide. *)
Theorem blur_focusout_clears_triggers (s : State) (evt : Event) (host : elem) :
  listening s host ->
  ev_type evt = EvFocusout ->
  arrayIncludes (computedTriggers s) (str "blur") = true ->
  focus_stays s host evt = false ->
  exists s',
    handleEvent evt s = Ok tt s'
    /\ all_inactive (activeTrigger s')
    /\ (at_manual (activeTrigger s) = false ->
        (num_truthy (delay_hide (computedDelay s)) = true ->
           let tm := mkTimer (next_timer s)
                       (now s + timeout_ms (delay_hide (computedDelay s)))
                       CbHide None in
           hoverState s' = HoverOut
           /\ In tm (timers s')
           /\ forall el,
                open_on s el -> prevents s BvHide = false ->
                hiding (fire tm s') el
                /\ (timers_sound s ->
                    forall t fuel,
                      tm_due tm <= t -> tasks_until t s' < fuel ->
                      hiding (advance fuel t s') el))
        /\ (num_truthy (delay_hide (computedDelay s)) = false ->
            forall el, getTemplateElement s = Some el ->
            localShow s = true -> prevents s BvHide = false ->
            _tip s' = Some (mkTip (Some el) true)
            /\ hoverState s' = HoverNone
            /\ activeTrigger s' = mkActive false false false false)).
Proof.
  intros (T & Dis & En & Dd) Ty Blur Stay.
  unfold handleEvent.
  rewrite T, Dis, En, Dd, Ty, Blur, Stay, orb_true_r. simpl negb. simpl orb.
  eexists. split; [reflexivity|].
  unfold leave. rewrite Ty. cbn [evtype_eqb andb]. fields.
  change (computedTriggers (set_activeTrigger ?a s)) with (computedTriggers s).
  rewrite Blur. fields. unfold isWithActiveTrigger. fields. cbn [orb].
  rewrite clearTimeout_as_set. fields.
  match goal with
  | |- context [set_hoverState HoverOut ?x] =>
      set (X := set_hoverState HoverOut x)
  end.
  change (computedDelay X) with (computedDelay s).
  split.
  - destruct (at_manual (activeTrigger s)); [repeat split|].
    destruct (num_truthy (delay_hide (computedDelay s))); cbn [negb].
    + unfold setTimeout. subst X. fields. repeat split.
    + apply hide_inactive. subst X. repeat split.
  - intros M. rewrite M. split; intros D; rewrite D; cbn [negb].
    + cbv zeta.
      set (tm := mkTimer (next_timer s)
                   (now s + timeout_ms (delay_hide (computedDelay s))) CbHide None).
      unfold setTimeout.
      change (next_timer X) with (next_timer s). change (now X) with (now s).
      fold tm.
      match goal with |- hoverState ?y = _ /\ _ => set (S1 := y) end.
      assert (Hin : In tm (timers S1))
        by (subst S1 X; fields; apply in_or_app; right; now left).
      split; [reflexivity|]. split; [exact Hin|].
      intros el O P.
      assert (Pend : timers_sound s -> hide_pending tm el S1).
      { intros Snd. split; [exact Hin|].
        split; [|split; [exact O | split; [reflexivity | exact P]]].
        subst S1 X. fields. apply Forall_app. split; [|repeat constructor].
        apply Forall_forall. intros y Hy. cbn [tm tm_id]. intros E. exfalso.
        assert (Hy' : In y (timers s))
          by (destruct (hoverTimeout s); try exact Hy;
              apply filter_In in Hy as [Hy _]; exact Hy).
        unfold timers_sound in Snd. rewrite Forall_forall in Snd.
        destruct (Snd y Hy') as [Snd' _]. contradiction. }
      split.
      * (* the task of the hide timer *)
        rewrite fire_unfold. cbn [tm tm_cb tm_every tm_id tm_due].
        match goal with |- context [run_callback _ ?y] => set (Y := y) end.
        assert (OY : open_on Y el) by exact O.
        assert (HY : hoverState Y = HoverOut) by reflexivity.
        unfold run_callback. rewrite HY. cbn [hover_eqb state_of].
        apply hide_closing; [exact OY | exact P].
      * intros Snd t fuel Due B.
        apply (@run_closes tm el t eq_refl Due fuel S1); [left; auto | | exact B].
        subst S1 X. fields. apply Forall_app. split.
        -- unfold timers_sound in Snd. apply Forall_forall. intros y Hy.
           assert (Hy' : In y (timers s))
             by (destruct (hoverTimeout s); try exact Hy;
                 apply filter_In in Hy as [Hy _]; exact Hy).
           rewrite Forall_forall in Snd. apply (Snd y Hy').
        -- repeat constructor. discriminate.
    + intros el Tip L P. apply hide_open; [exact Tip | exact L | exact P].
Qed.

Lemma blur_focusout_clears_triggers_witness :
  let s := Example.hover_click_open in
  let s' := state_of (handleEvent Example.focusout_away s) in
  (at_hover (activeTrigger s) = true /\ at_click (activeTrigger s) = true)
  /\ all_inactive (activeTrigger s')
  /\ In (mkTimer 2 50 CbHide None) (timers s')
  /\ hiding (fire (mkTimer 2 50 CbHide None) s') Example.tipEl
  /\ hiding (advance 12 60 s') Example.tipEl.
Proof.
  cbv zeta.
  assert (L : listening Example.hover_click_open Example.host)
    by (repeat split).
  assert (O : open_on Example.hover_click_open Example.tipEl)
    by (split; reflexivity).
  destruct (@blur_focusout_clears_triggers Example.hover_click_open
              Example.focusout_away Example.host L eq_refl eq_refl eq_refl)
    as (s' & E & A & H).
  assert (S' : s' = state_of (handleEvent Example.focusout_away
                                Example.hover_click_open))
    by (rewrite E; reflexivity).
  split; [split; reflexivity|]. rewrite <- S'. split; [exact A|].
  destruct (H eq_refl) as [H1 _].
  destruct (H1 eq_refl) as (_ & Hin & Hrun).
  destruct (Hrun Example.tipEl O eq_refl) as [Hfire Hadv].
  split; [exact Hin|]. split; [exact Hfire|].
  apply Hadv.
  - unfold timers_sound. vm_compute.
    constructor; [split; intros K; discriminate K | constructor].
  - vm_compute. lia.
  - rewrite S'. vm_compute. lia.
Defined.

End BVTooltipRuns.
